(** * NPFS: Neyman-Pearson feature selection ([npfs.py])

    A shallow embedding of the [npfs] class: the constructor, [fit],
    [__check_data], [boot_iteration] and the module-level [__call__],
    together with the properties of the bootstrap loop, the early-stopping
    monitor, the worker pool and the binomial threshold.

    Conventions of the embedding.
    - A numpy [float64] is an exact rational or one of the IEEE special
      values [inf], [-inf], [nan]; rounding is not modelled, the special
      values and the comparisons with them are.
    - The entries of the Bernoulli matrix are the floats [0.0] and [1.0] and
      their row sums are small integers, all represented exactly by a
      float64; they are kept in [nat].
    - Arrays handed in by the caller live in a heap and are passed by
      reference; the matrix [Z] is local to [fit] until it is stored in the
      object, and is passed by value.
    - The feature-selection library ([feast]), the random source
      ([np.random]) and the scheduling of pool workers are parameters. *)

From Stdlib Require Import QArith Qabs Qpower ZArith List Lia Lqa String.
From stdpp Require Import base gmap list strings.

Local Open Scope Q_scope.

(** ** float64 values *)

Inductive float64 : Type :=
| Fin (q : Q)
| PInf
| NInf
| NaN.

Definition of_nat (n : nat) : float64 := Fin (inject_Z (Z.of_nat n)).

Definition Qsgn (q : Q) : Z := Z.sgn (Qnum q).

Definition fneg (x : float64) : float64 :=
  match x with
  | Fin q => Fin (- q)
  | PInf => NInf
  | NInf => PInf
  | NaN => NaN
  end.

Definition fabs (x : float64) : float64 :=
  match x with
  | Fin q => Fin (Qabs q)
  | PInf | NInf => PInf
  | NaN => NaN
  end.

Definition fadd (x y : float64) : float64 :=
  match x, y with
  | NaN, _ | _, NaN => NaN
  | Fin a, Fin b => Fin (a + b)
  | PInf, NInf | NInf, PInf => NaN
  | PInf, _ | _, PInf => PInf
  | NInf, _ | _, NInf => NInf
  end.

Definition fsub (x y : float64) : float64 := fadd x (fneg y).

(** The infinity with the sign [s]; [nan] for [s = 0]. *)
Definition signed_inf (s : Z) : float64 :=
  match s with
  | Z0 => NaN
  | Zpos _ => PInf
  | Zneg _ => NInf
  end.

Definition fmul (x y : float64) : float64 :=
  match x, y with
  | NaN, _ | _, NaN => NaN
  | Fin a, Fin b => Fin (a * b)
  | Fin a, PInf | PInf, Fin a => signed_inf (Qsgn a)
  | Fin a, NInf | NInf, Fin a => signed_inf (- Qsgn a)
  | PInf, PInf | NInf, NInf => PInf
  | PInf, NInf | NInf, PInf => NInf
  end.

(** numpy's true division: a division by zero raises nothing, it yields
    [inf], [-inf] or [nan] (and a RuntimeWarning). *)
Definition fdiv (x y : float64) : float64 :=
  match x, y with
  | NaN, _ | _, NaN => NaN
  | Fin a, Fin b =>
      if Qeq_bool b 0 then signed_inf (Qsgn a) else Fin (a / b)
  | Fin _, _ => Fin 0
  | PInf, Fin b => if Qle_bool 0 b then PInf else NInf
  | NInf, Fin b => if Qle_bool 0 b then NInf else PInf
  | _, _ => NaN
  end.

Definition Qlt_bool (a b : Q) : bool := negb (Qle_bool b a).

(** [x < y]; every comparison with [nan] is false. *)
Definition fltb (x y : float64) : bool :=
  match x, y with
  | NaN, _ | _, NaN => false
  | Fin a, Fin b => Qlt_bool a b
  | _, NInf => false
  | NInf, _ => true
  | PInf, _ => false
  | Fin _, PInf => true
  end.

Definition fsum (l : list float64) : float64 := foldl fadd (Fin 0) l.

(** [np.mean]: the sum over the count; the mean of an empty vector is
    [0/0 = nan]. *)
Definition fmean (l : list float64) : float64 :=
  fdiv (fsum l) (of_nat (length l)).

(** ** The binomial quantile *)

(** The distribution of the number of successes in [n] Bernoulli trials.
    With [p = a / b], [binom_weights n a (b - a)] lists, for each count [k]
    of successes in [n] trials, the weight of that count out of [b ^ n]:
    one more trial adds a failure (weight [b - a]) or a success (weight
    [a]). *)
Fixpoint binom_weights (n : nat) (a c : Z) : list Z :=
  match n with
  | O => [1%Z]
  | S n' =>
      let prev := binom_weights n' a c in
      zip_with Z.add (map (Z.mul c) prev ++ [0%Z]) (0%Z :: map (Z.mul a) prev)
  end.

Definition Zsum (l : list Z) : Z := foldr Z.add 0%Z l.

(** The weight of the counts [0..k] over the total weight. *)
Definition cdf_of (w : list Z) (total : Z) (k : nat) : Q :=
  inject_Z (Zsum (take (S k) w)) / inject_Z total.


(** Modelled from the spec: [scipy.stats.binom.ppf], which [npfs.py]
    imports and does not define. "Quantile(Binomial(m, p), 1 - alpha): the
    smallest integer count such that the probability of observing more than
    [delta] successes in [m] Bernoulli(p) trials is at most [alpha]".
    [binom_ppf q n p] is [binom.ppf(q, n, p)]: the smallest count [k] with
    [q <= P(X <= k)]; [n] bounds the search, as [P(X <= n) = 1]. *)
Definition binom_ppf (q : Q) (n : nat) (p : Q) : nat :=
  let a := Qnum p in
  let b := Zpos (Qden p) in
  let w := binom_weights n a (b - a) in
  let total := (b ^ Z.of_nat n)%Z in
  default n (List.find (fun k => Qle_bool q (cdf_of w total k)) (seq 0 n)).

(** ** Exceptions *)

Inductive exn : Type :=
| Exception (msg : string)
| ValueError (msg : string)
| AttributeError (attr : string)
| ImportError
| TypeError
| IndexError
| ZeroDivisionError.

(** ** Arrays *)

(** A one- or two-dimensional [np.ndarray] of floats. *)
Inductive ndarray : Type :=
| Arr1 (v : list float64)
| Arr2 (ncols : nat) (rows : list (list float64)).

(** What a caller can hand to [fit]: an array or anything else. *)
Inductive pyobj : Type :=
| Ndarray (a : ndarray)
| NotArray.

Definition loc : Type := positive.

(** [len(a)] *)
Definition len (a : ndarray) : nat :=
  match a with
  | Arr1 v => length v
  | Arr2 _ rows => length rows
  end.

(** [len(a.transpose())]: a one-dimensional array is its own transpose. *)
Definition len_transpose (a : ndarray) : nat :=
  match a with
  | Arr1 v => length v
  | Arr2 ncols _ => ncols
  end.

(** [c * a], a new array. *)
Definition scale (c : float64) (a : ndarray) : ndarray :=
  match a with
  | Arr1 v => Arr1 (map (fmul c) v)
  | Arr2 ncols rows => Arr2 ncols (map (map (fmul c)) rows)
  end.

(** [l[idx]] for a list of positions; [None] when one is out of range. *)
Fixpoint gather {A : Type} (l : list A) (idx : list nat) : option (list A) :=
  match idx with
  | [] => Some []
  | i :: idx' =>
      match l !! i, gather l idx' with
      | Some x, Some xs => Some (x :: xs)
      | _, _ => None
      end
  end.

(** [a[idx]] with an integer index array: a new array of the chosen
    entries (rows); an index out of range raises IndexError. *)
Definition getitem (a : ndarray) (idx : list nat) : exn + ndarray :=
  match a with
  | Arr1 v =>
      match gather v idx with
      | Some v' => inr (Arr1 v')
      | None => inl IndexError
      end
  | Arr2 ncols rows =>
      match gather rows idx with
      | Some rows' => inr (Arr2 ncols rows')
      | None => inl IndexError
      end
  end.

(** ** The Bernoulli matrix *)

(** The rows of [Z], one per feature, each with one entry per bootstrap. *)
Abbreviation matrix := (list (list nat)).

(** [np.zeros((n_features, n_bootstraps))] *)
Definition zeros (n_features n_bootstraps : nat) : matrix :=
  replicate n_features (replicate n_bootstraps 0%nat).

(** [Z[sf, b] = 1]: every row listed in [sf] gets a one in column [b]. A
    row index out of range raises IndexError and nothing is written; [b]
    is always a column of [Z] where [fit] writes. *)
Definition setitem (Zmat : matrix) (sf : list nat) (b : nat) : exn + matrix :=
  if forallb (fun i => i <? length Zmat)%nat sf
  then inr (foldr (fun i M => alter (<[b := 1%nat]>) i M) Zmat sf)
  else inl IndexError.

(** [Z.sum(axis=1)] *)
Definition row_sums (Zmat : matrix) : list nat := map sum_list Zmat.

(** ** The selection oracle and the object *)

(** A function of the feature-selection library:
    [method(data, labels, n_select)] returns feature indices or raises. *)
Definition selector : Type := ndarray -> ndarray -> nat -> exn + list nat.

(** The attributes of an [npfs] object. Those that [__init__] does not
    create are [None] until [fit] assigns them. *)
Record npfs : Type := Npfs {
  fs_method : string;
  n_select : nat;
  n_bootstraps : nat;
  alpha : Q;
  beta : Q;
  selected_features : list nat;
  parallel : option nat;
  min_improv : Q;
  early_stopping : bool;
  n_observations : option nat;
  n_features : option nat;
  method : option selector;
  data : option loc;
  labels : option loc;
  run_time : option nat;
  Bernoulli_matrix : option matrix
}.

(** [npfs.__init__]; [verbose] is accepted and not kept. *)
Definition init (fs_method : string) (n_select n_bootstraps : nat)
    (verbose : bool) (alpha beta : Q) (parallel : option nat) (min_improv : Q)
    : npfs :=
  {| fs_method := fs_method;
     n_select := n_select;
     n_bootstraps := n_bootstraps;
     alpha := alpha;
     beta := beta;
     selected_features := [];
     parallel := parallel;
     min_improv := min_improv;
     early_stopping := if Qeq_bool min_improv 0 then false else true;
     n_observations := None;
     n_features := None;
     method := None;
     data := None;
     labels := None;
     run_time := None;
     Bernoulli_matrix := None |}.

Definition set_selected_features (v : list nat) (o : npfs) : npfs :=
  Npfs (fs_method o) (n_select o) (n_bootstraps o) (alpha o) (beta o) v
       (parallel o) (min_improv o) (early_stopping o) (n_observations o)
       (n_features o) (method o) (data o) (labels o) (run_time o)
       (Bernoulli_matrix o).

Definition set_n_observations (v : nat) (o : npfs) : npfs :=
  Npfs (fs_method o) (n_select o) (n_bootstraps o) (alpha o) (beta o)
       (selected_features o) (parallel o) (min_improv o) (early_stopping o)
       (Some v) (n_features o) (method o) (data o) (labels o) (run_time o)
       (Bernoulli_matrix o).

Definition set_n_features (v : nat) (o : npfs) : npfs :=
  Npfs (fs_method o) (n_select o) (n_bootstraps o) (alpha o) (beta o)
       (selected_features o) (parallel o) (min_improv o) (early_stopping o)
       (n_observations o) (Some v) (method o) (data o) (labels o) (run_time o)
       (Bernoulli_matrix o).

Definition set_method (v : selector) (o : npfs) : npfs :=
  Npfs (fs_method o) (n_select o) (n_bootstraps o) (alpha o) (beta o)
       (selected_features o) (parallel o) (min_improv o) (early_stopping o)
       (n_observations o) (n_features o) (Some v) (data o) (labels o)
       (run_time o) (Bernoulli_matrix o).

Definition set_data (v : loc) (o : npfs) : npfs :=
  Npfs (fs_method o) (n_select o) (n_bootstraps o) (alpha o) (beta o)
       (selected_features o) (parallel o) (min_improv o) (early_stopping o)
       (n_observations o) (n_features o) (method o) (Some v) (labels o)
       (run_time o) (Bernoulli_matrix o).

Definition set_labels (v : loc) (o : npfs) : npfs :=
  Npfs (fs_method o) (n_select o) (n_bootstraps o) (alpha o) (beta o)
       (selected_features o) (parallel o) (min_improv o) (early_stopping o)
       (n_observations o) (n_features o) (method o) (data o) (Some v)
       (run_time o) (Bernoulli_matrix o).

Definition set_run_time (v : nat) (o : npfs) : npfs :=
  Npfs (fs_method o) (n_select o) (n_bootstraps o) (alpha o) (beta o)
       (selected_features o) (parallel o) (min_improv o) (early_stopping o)
       (n_observations o) (n_features o) (method o) (data o) (labels o)
       (Some v) (Bernoulli_matrix o).

Definition set_Bernoulli_matrix (v : matrix) (o : npfs) : npfs :=
  Npfs (fs_method o) (n_select o) (n_bootstraps o) (alpha o) (beta o)
       (selected_features o) (parallel o) (min_improv o) (early_stopping o)
       (n_observations o) (n_features o) (method o) (data o) (labels o)
       (run_time o) (Some v).

(** ** The threshold *)

(** [p = (1.0*self.n_select)/self.n_features + self.beta] *)
Definition null_probability (o : npfs) (nf : nat) : Q :=
  (1 * inject_Z (Z.of_nat (n_select o))) / inject_Z (Z.of_nat nf) + beta o.

(** [delta = binom.ppf(1 - self.alpha, self.n_bootstraps, p)] *)
Definition threshold (o : npfs) (nf : nat) : nat :=
  binom_ppf (1 - alpha o) (n_bootstraps o) (null_probability o nf).

(** The features [k] in [range(n_features)] with [z[k] > delta]. *)
Definition above_threshold (z : list nat) (delta nf : nat) : list nat :=
  List.filter (fun k => delta <? nth k z 0)%nat (seq 0 nf).

(** ** The convergence monitor *)

(** [p1 = Z.sum(axis=1)/b] *)
Definition running_frequency (Zmat : matrix) (b : nat) : list float64 :=
  map (fun s => fdiv (of_nat s) (of_nat b)) (row_sums Zmat).

(** [d = np.abs(p1 - p1_old).mean()] *)
Definition mean_abs_change (p1 p1_old : list float64) : float64 :=
  fmean (zip_with (fun x y => fabs (fsub x y)) p1 p1_old).

(** ** The worker pool *)

(** The chunk size [Pool.map] picks for [n] tasks on [P] workers. *)
Definition chunksize (n P : nat) : nat :=
  let c := (n / (P * 4))%nat in
  if (n mod (P * 4) =? 0)%nat then c else S c.

(** What a run of [fit] leaves behind in its environment. *)
Inductive event : Type :=
| EvSample (idx : list nat)
| EvSelect (n_select : nat).

(** The number of calls of the selection oracle in a log. *)
Definition oracle_calls (t : list event) : nat :=
  length (List.filter (fun e => match e with EvSelect _ => true | _ => false end) t).

(** The number of bootstrap samples drawn in a log. *)
Definition samples_drawn (t : list event) : nat :=
  length (List.filter (fun e => match e with EvSample _ => true | _ => false end) t).

(** The entry [Z[i, j]]. *)
Definition entry (Zmat : matrix) (i j : nat) : nat := nth j (nth i Zmat []) 0%nat.

(** ** The interpreter state and its monad *)

Section Model.

(** The state of [np.random] and the integers it yields:
    [randint n r] is [np.random.randint(0, n, n)] in state [r]. *)
Context {rng : Type}.
Variable randint : nat -> rng -> list nat * rng.

(** The namespace of the [feast] module. *)
Variable feast : string -> option selector.

(** Everything outside the object that [fit] reads or changes: the global
    random state, the heap of arrays, the log of samples drawn and oracle
    calls made, and the worker that takes each chunk of pool tasks. *)
Record world : Type := World {
  np_random : rng;
  heap : gmap loc pyobj;
  trace : list event;
  schedule : nat -> nat
}.

Definition set_np_random (r : rng) (w : world) : world :=
  World r (heap w) (trace w) (schedule w).

Definition set_heap (h : gmap loc pyobj) (w : world) : world :=
  World (np_random w) h (trace w) (schedule w).

Definition log (e : event) (w : world) : world :=
  World (np_random w) (heap w) (trace w ++ [e]) (schedule w).

(** A computation reads and updates the object and the world, and returns
    or raises; what it changed before raising stays changed. *)
Definition M (A : Type) : Type := npfs * world -> (exn + A) * (npfs * world).

Definition ret {A : Type} (a : A) : M A := fun s => (inr a, s).

Definition raise {A : Type} (e : exn) : M A := fun s => (inl e, s).

Definition bind {A B : Type} (m : M A) (f : A -> M B) : M B :=
  fun s =>
    match m s with
    | (inl e, s') => (inl e, s')
    | (inr a, s') => f a s'
    end.

Notation "'let!' x ':=' m 'in' k" := (bind m (fun x => k))
  (at level 10, x pattern, m at level 200, k at level 200).

Definition get_self : M npfs := fun s => (inr (fst s), s).

Definition get_world : M world := fun s => (inr (snd s), s).

Definition update_self (f : npfs -> npfs) : M unit :=
  fun s => (inr tt, (f (fst s), snd s)).

Definition update_world (f : world -> world) : M unit :=
  fun s => (inr tt, (fst s, f (snd s))).

Definition lift {A : Type} (r : exn + A) : M A :=
  match r with
  | inl e => raise e
  | inr a => ret a
  end.

(** Reading an attribute that was never assigned raises AttributeError. *)
Definition attr {A : Type} (name : string) (v : option A) : M A :=
  match v with
  | Some a => ret a
  | None => raise (AttributeError name)
  end.

(** The array behind a reference. *)
Definition deref (l : loc) : M ndarray :=
  let! w := get_world in
  match heap w !! l with
  | Some (Ndarray a) => ret a
  | _ => raise TypeError
  end.

(** A new array at a location not in use. *)
Definition alloc (a : ndarray) : M loc :=
  let! w := get_world in
  let l := fresh (dom (heap w)) in
  let! _ := update_world (set_heap (<[l := Ndarray a]> (heap w))) in
  ret l.

(** ** [__check_data] *)

(** [isinstance(x, np.ndarray)] for the object behind [x]. *)
Definition isinstance_ndarray (w : world) (x : loc) : option ndarray :=
  match heap w !! x with
  | Some (Ndarray a) => Some a
  | _ => None
  end.

Definition __check_data (data labels : loc) : M (loc * loc) :=
  let! w := get_world in
  match isinstance_ndarray w data with
  | None => raise (Exception "Data must be an numpy ndarray.")
  | Some d =>
      match isinstance_ndarray w labels with
      | None => raise (Exception "Labels must be an numpy ndarray.")
      | Some l =>
          if negb (len d =? len l)%nat
          then raise (Exception "Data and labels must be the same length")
          else
            let! data' := alloc (scale (Fin 1) d) in
            let! labels' := alloc (scale (Fin 1) l) in
            ret (data', labels')
      end
  end.

(** ** [boot_iteration] and [__call__] *)

(** [np.random.randint(0, n, n)] on the global random state. *)
Definition np_random_randint (n : nat) : M (list nat) :=
  let! w := get_world in
  let '(idx, r) := randint n (np_random w) in
  let! _ := update_world (fun w => log (EvSample idx) (set_np_random r w)) in
  ret idx.

(** [self.method(data_sub, labels_sub, self.n_select)] *)
Definition call_method (f : selector) (data_sub labels_sub : ndarray)
    (k : nat) : M (list nat) :=
  let! _ := update_world (log (EvSelect k)) in
  lift (f data_sub labels_sub k).

Definition boot_iteration : M (list nat) :=
  let! o := get_self in
  let! n := attr "n_observations" (n_observations o) in
  let! idx := np_random_randint n in
  let! d := attr "data" (data o) in
  let! d := deref d in
  let! data_sub := lift (getitem d idx) in
  let! l := attr "labels" (labels o) in
  let! l := deref l in
  let! labels_sub := lift (getitem l idx) in
  let! f := attr "method" (method o) in
  call_method f data_sub labels_sub (n_select o).

(** The module-level [__call__(obj)]: [obj.boot_iteration(None)]. *)
Definition __call__ : M (list nat) := boot_iteration.

(** ** The three execution modes *)

(** [for b in range(...): sf = self.boot_iteration(); Z[sf, b] = 1] *)
Fixpoint run_all (bs : list nat) (Zmat : matrix) : M matrix :=
  match bs with
  | [] => ret Zmat
  | b :: bs' =>
      let! sf := boot_iteration in
      let! Zmat := lift (setitem Zmat sf b) in
      run_all bs' Zmat
  end.

(** The loop with the convergence test; the [break] leaves the loop with
    [self.run_time = b]. *)
Fixpoint run_monitored (bs : list nat) (Zmat : matrix)
    (p1_old : list float64) : M matrix :=
  match bs with
  | [] => ret Zmat
  | b :: bs' =>
      let! sf := boot_iteration in
      let! Zmat := lift (setitem Zmat sf b) in
      let p1 := running_frequency Zmat b in
      let d := mean_abs_change p1 p1_old in
      let! o := get_self in
      if fltb d (Fin (min_improv o))
      then
        let! _ := update_self (set_run_time b) in
        ret Zmat
      else run_monitored bs' Zmat p1
  end.

(** One task in a worker process. The worker was forked from the parent
    (the fork start method): it has its own copy of the object and of the
    random state, [r] by now, and what it does to them is not seen by the
    parent; the log of samples and oracle calls covers all processes. An
    exception of the task is raised again in the parent. *)
Definition in_worker {A : Type} (r : rng) (m : M A) : M (A * rng) :=
  fun s =>
    let '(o, w) := s in
    match m (o, set_np_random r w) with
    | (inl e, (_, w')) => (inl e, (o, set_np_random (np_random w) w'))
    | (inr a, (_, w')) =>
        (inr (a, np_random w'), (o, set_np_random (np_random w) w'))
    end.

(** The tasks [xs] of [pool.map], in chunks of [cs], on [P] workers whose
    random states are [rngs]: the worker that the schedule gives the chunk
    runs the task, and the results come back in the order of the tasks. A
    worker starts from the random state of the parent. *)
Fixpoint run_tasks (P cs : nat) (xs : list nat) (rngs : list rng)
    : M (list (list nat)) :=
  match xs with
  | [] => ret []
  | x :: xs' =>
      let! w := get_world in
      let wid := (schedule w (x / cs) mod P)%nat in
      let r := default (np_random w) (rngs !! wid) in
      let! (sf, r') := in_worker r __call__ in
      let! sfs := run_tasks P cs xs' (<[wid := r']> rngs) in
      ret (sf :: sfs)
  end.

(** [Pool(processes=P)] followed by
    [pool.map(__call__, (self for x in range(n)))]. Every worker starts
    from the random state the parent has when the pool is created. *)
Definition pool_map (P n : nat) : M (list (list nat)) :=
  if (P =? 0)%nat
  then raise (ValueError "Number of processes must be at least 1")
  else
    let! w := get_world in
    run_tasks P (chunksize n P) (seq 0 n) (replicate P (np_random w)).

(** [for x in range(len(sfs)): Z[sfs[x], x] = 1] *)
Fixpoint assemble (sfs : list (list nat)) (x : nat) (Zmat : matrix)
    : exn + matrix :=
  match sfs with
  | [] => inr Zmat
  | sf :: sfs' =>
      match setitem Zmat sf x with
      | inl e => inl e
      | inr Zmat' => assemble sfs' (S x) Zmat'
      end
  end.

(** ** [fit] *)

(** [getattr(feast, name)] *)
Definition getattr_feast (name : string) : exn + selector :=
  match feast name with
  | Some f => inr f
  | None => inl (AttributeError name)
  end.

(** Lines 74 to 96: the matrix filled by the configured mode. *)
Definition run_trials (o : npfs) (Zmat : matrix) (nf : nat) : M matrix :=
  match parallel o with
  | None =>
      if early_stopping o
      then run_monitored (seq 0 (n_bootstraps o)) Zmat (replicate nf (Fin 0))
      else run_all (seq 0 (n_bootstraps o)) Zmat
  | Some P =>
      let! sfs := pool_map P (n_bootstraps o) in
      lift (assemble sfs 0 Zmat)
  end.

(** Lines 98 to 114: the counts, the threshold and the features kept. *)
Definition select (Zmat : matrix) : M (list nat) :=
  let z := row_sums Zmat in
  let! o := get_self in
  let! nf := attr "n_features" (n_features o) in
  if (nf =? 0)%nat then raise ZeroDivisionError
  else
    let p := null_probability o nf in
    if Qlt_bool 1 p
    then raise (ValueError "p+beta > 1 -> Invalid probability")
    else
      let delta := threshold o nf in
      let selected := above_threshold z delta nf in
      let! _ := update_self (set_Bernoulli_matrix Zmat) in
      let! _ := update_self (set_selected_features selected) in
      ret selected.

(** Lines 58 to 96: validation, the lookup of the method, and the trials. *)
Definition bootstrap_phase (data labels : loc) : M matrix :=
  let! (data, labels) := __check_data data labels in
  let! o := get_self in
  let! fs_method :=
    match getattr_feast (fs_method o) with
    | inl ImportError => raise TypeError
    | inl e => raise e
    | inr f => ret f
    end in
  let! d := deref data in
  let! _ := update_self (set_n_observations (len d)) in
  let! _ := update_self (set_n_features (len_transpose d)) in
  let! _ := update_self (set_method fs_method) in
  let! o := get_self in
  let nf := default 0%nat (n_features o) in
  let Zmat := zeros nf (n_bootstraps o) in
  let! _ := update_self (set_data data) in
  let! _ := update_self (set_labels labels) in
  let! o := get_self in
  run_trials o Zmat nf.

Definition fit (data labels : loc) : M (list nat) :=
  let! Zmat := bootstrap_phase data labels in
  select Zmat.

End Model.

Arguments world : clear implicits.
Arguments M : clear implicits.

(** ** [plot_bernoulli_matrix] *)

(** The calls that reach [matplotlib]; they are recorded, in their order,
    and taken to return. *)
Inductive plt_call : Type :=
| PltImshow (image : list (list float64))
| PltSetCmap (name : string)
| PltColorbar
| PltXlabel (text : string)
| PltYlabel (text : string)
| PltShow.

(** The array behind [self.Bernoulli_matrix] as the floats it holds: once
    plotted with [show_npfs] its entries are no longer counts. *)
Definition as_floats (Zmat : matrix) : list (list float64) :=
  map (map of_nat) Zmat.

(** What plotting reads and writes besides [self.selected_features]: the
    array behind [self.Bernoulli_matrix], [None] as long as no call of
    [fit] has assigned it, and the calls made to [matplotlib] so far. *)
Definition plot_state : Type := option (list (list float64)) * list plt_call.

(** [for k in range(len(matrix[i])): matrix[i,k] = .5]; a row [i] that
    the array does not have raises IndexError. *)
Definition paint_row (i : nat) (m : list (list float64))
    : exn + list (list float64) :=
  match m !! i with
  | None => inl IndexError
  | Some row =>
      inr (foldl (fun m k => alter (<[k := Fin (1 # 2)]>) i m) m
             (seq 0 (length row)))
  end.

(** [for i in self.selected_features: ...]: the rows painted so far stay
    painted when a later index raises. *)
Fixpoint paint_rows (sel : list nat) (m : list (list float64))
    : option exn * list (list float64) :=
  match sel with
  | [] => (None, m)
  | i :: sel' =>
      match paint_row i m with
      | inl e => (Some e, m)
      | inr m' => paint_rows sel' m'
      end
  end.

(** [plot_bernoulli_matrix(self, show_npfs)]. [matrix] is another name for
    the array of the object, not a copy of it: what the loop writes, it
    writes to [self.Bernoulli_matrix]. *)
Definition plot_bernoulli_matrix (show_npfs : bool) (selected : list nat)
    (st : plot_state) : (exn + unit) * plot_state :=
  match fst st with
  | None => (inl (AttributeError "Bernoulli_matrix"), st)
  | Some m =>
      if negb show_npfs
      then
        (inr tt,
         (Some m,
          snd st ++ [PltImshow m; PltSetCmap "hot"; PltColorbar;
                     PltXlabel "Bootstraps"; PltYlabel "Feature"; PltShow]))
      else
        match paint_rows selected m with
        | (Some e, m') => (inl e, (Some m', snd st))
        | (None, m') =>
            (inr tt,
             (Some m',
              snd st ++ [PltImshow m'; PltSetCmap "hot";
                         PltXlabel "Bootstraps"; PltYlabel "Feature";
                         PltColorbar; PltShow]))
        end
  end.

(** The first plot of the object [o]. *)
Definition plot_of (o : npfs) (show_npfs : bool) : (exn + unit) * plot_state :=
  plot_bernoulli_matrix show_npfs (selected_features o)
    (as_floats <$> Bernoulli_matrix o, []).

(** ** A small instance

    A random source that walks through the rows in turn, a library with two
    methods, and a data set of two observations of four features. *)

Definition toy_randint (n : nat) (r : nat) : list nat * nat :=
  (map (fun i => (r + i) mod n)%nat (seq 0 n), S r).

(** Always the first [k] features. *)
Definition first_features : selector := fun _ _ k => inr (seq 0 k).

(** The feature named by the first label of the sample. *)
Definition by_first_label : selector := fun _ l _ =>
  match l with
  | Arr1 (Fin q :: _) => inr [Z.to_nat (Qnum q / Zpos (Qden q))]
  | _ => inr []
  end.

Definition toy_feast (name : string) : option selector :=
  if String.eqb name "JMI" then Some first_features
  else if String.eqb name "LABEL" then Some by_first_label
  else None.

Definition toy_data : ndarray :=
  Arr2 4 [[Fin 1; Fin 2; Fin 3; Fin 4]; [Fin 5; Fin 6; Fin 7; Fin 8]].

Definition toy_labels : ndarray := Arr1 [Fin 0; Fin 1].

Definition toy_heap : gmap loc pyobj :=
  <[2%positive := Ndarray toy_labels]> (<[1%positive := Ndarray toy_data]> ∅).

Definition toy_world : world nat := World 0%nat toy_heap [] (fun c => c).

(** The same with ten features. *)
Definition wide_data : ndarray :=
  Arr2 10 [replicate 10 (Fin 1); replicate 10 (Fin 2)].

Definition wide_world : world nat :=
  World 0%nat (<[2%positive := Ndarray toy_labels]> (<[1%positive := Ndarray wide_data]> ∅))
    [] (fun c => c).

Definition wide_fit (o : npfs) : (exn + list nat) * (npfs * world nat) :=
  fit toy_randint toy_feast 1%positive 2%positive (o, wide_world).

(** The small instance with a third array, of one label. *)
Definition odd_world : world nat :=
  World 0%nat (<[3%positive := Ndarray (Arr1 [Fin 0])]> toy_heap) [] (fun c => c).

Definition toy_fit (o : npfs) : (exn + list nat) * (npfs * world nat) :=
  fit toy_randint toy_feast 1%positive 2%positive (o, toy_world).

(** ** Notions used in the statements *)

(** The location that [alloc] picks in the heap [h]. *)
Definition copy_loc (h : gmap loc pyobj) : loc := fresh (dom h).

(** The heap after [__check_data]: [h] and the float casts of the data [d]
    and the labels [l] at two new locations. *)
Definition checked_heap (h : gmap loc pyobj) (d l : ndarray) : gmap loc pyobj :=
  let h1 := <[copy_loc h := Ndarray (scale (Fin 1) d)]> h in
  <[copy_loc h1 := Ndarray (scale (Fin 1) l)]> h1.

(** The object when the trials start (after line 72 of [fit]). *)
Definition prepared (o : npfs) (f : selector) (d : ndarray) (h : gmap loc pyobj) : npfs :=
  let d' := scale (Fin 1) d in
  let h1 := <[copy_loc h := Ndarray d']> h in
  set_labels (copy_loc h1)
    (set_data (copy_loc h)
       (set_method f
          (set_n_features (len_transpose d') (set_n_observations (len d') o)))).

(** Every run of [m], whether it returns or raises, takes a state to one
    that [R] relates to it. *)
Definition preserves {rng A : Type} (R : relation (npfs * world rng)) (m : M rng A) : Prop :=
  forall s r s', m s = (r, s') -> R s s'.

(** What a bootstrap trial leaves as it was: the object, the heap and the
    schedule. *)
Definition trial_frame {rng : Type} : relation (npfs * world rng) :=
  fun s s' =>
    fst s' = fst s /\ heap (snd s') = heap (snd s)
    /\ schedule (snd s') = schedule (snd s).

(** The same, for a computation that puts the random state back. *)
Definition pool_frame {rng : Type} : relation (npfs * world rng) :=
  fun s s' => trial_frame s s' /\ np_random (snd s') = np_random (snd s).

(** The heap only grows. *)
Definition heap_frame {rng : Type} : relation (npfs * world rng) :=
  fun s s' => heap (snd s) ⊆ heap (snd s').

(** [n] more trials were run. *)
Definition trials_run {rng : Type} (w w' : world rng) (n : nat) : Prop :=
  oracle_calls (trace w') = (oracle_calls (trace w) + n)%nat
  /\ samples_drawn (trace w') = (samples_drawn (trace w) + n)%nat.

(** Every row has [n] entries. *)
Definition row_length (n : nat) (Zmat : matrix) : Prop :=
  Forall (fun row => length row = n) Zmat.

(** The columns from [k] on hold zeros only. *)
Definition blank_from (k : nat) (Zmat : matrix) : Prop :=
  forall i j, (k <= j)%nat -> entry Zmat i j = 0%nat.

(** Every entry is 0 or 1. *)
Definition binary (Zmat : matrix) : Prop :=
  forall i j, (entry Zmat i j <= 1)%nat.

(** The indicator of [i ∈ sf]. *)
Definition indicator (sf : list nat) (i : nat) : nat :=
  if bool_decide (i ∈ sf) then 1%nat else 0%nat.

(** [Zmat'] is [Zmat] with writes to the [k] columns from [x] on only. *)
Definition columns_written (x k : nat) (Zmat Zmat' : matrix) : Prop :=
  length Zmat' = length Zmat
  /\ (forall N, row_length N Zmat -> row_length N Zmat')
  /\ (forall i j, (j < x \/ x + k <= j)%nat -> entry Zmat' i j = entry Zmat i j)
  /\ (binary Zmat -> binary Zmat').

(** [inf] or [nan]: what a non-negative count over zero gives. *)
Definition inf_or_nan (x : float64) : Prop := x = PInf \/ x = NaN.

(** The object [o] configured with [parallel = P]. *)
Definition with_parallel (P : option nat) (o : npfs) : npfs :=
  Npfs (fs_method o) (n_select o) (n_bootstraps o) (alpha o) (beta o)
       (selected_features o) P (min_improv o) (early_stopping o)
       (n_observations o) (n_features o) (method o) (data o) (labels o)
       (run_time o) (Bernoulli_matrix o).

(** ** Further notions used in the statements *)

(** The matrix and the selection that the object holds are kept. *)
Definition results_kept {rng : Type} : relation (npfs * world rng) :=
  fun s s' =>
    Bernoulli_matrix (fst s') = Bernoulli_matrix (fst s)
    /\ selected_features (fst s') = selected_features (fst s).

(** The random state of the process is kept. *)
Definition random_kept {rng : Type} : relation (npfs * world rng) :=
  fun s s' => np_random (snd s') = np_random (snd s).

(** The number of ones in column [j]. *)
Definition col_sum (Zmat : matrix) (j : nat) : nat :=
  sum_list_with (fun row => nth j row 0%nat) Zmat.

(** A method that returns no more features than it is asked for. *)
Definition bounded_selector (f : selector) : Prop :=
  forall d l k sf, f d l k = inr sf -> (length sf <= k)%nat.

(** The same float: the same special value, or equal rationals. *)
Definition feq (x y : float64) : Prop :=
  match x, y with
  | Fin a, Fin b => (a == b)%Q
  | PInf, PInf | NInf, NInf | NaN, NaN => True
  | _, _ => False
  end.

(** Arrays of the same shape with the same entries. *)
Definition array_eq (a b : ndarray) : Prop :=
  match a, b with
  | Arr1 u, Arr1 v => Forall2 feq u v
  | Arr2 n r, Arr2 m s => n = m /\ Forall2 (Forall2 feq) r s
  | _, _ => False
  end.

(** The entries of [l] grow with their positions. *)
Definition increasing (l : list nat) : Prop :=
  forall i j x y, (i < j)%nat -> l !! i = Some x -> l !! j = Some y -> (x < y)%nat.

(** [np.random.randint(0, n, n)] yields [n] integers below [n]. *)
Definition sampler_in_range {rng : Type} (randint : nat -> rng -> list nat * rng) : Prop :=
  forall n r, length (fst (randint n r)) = n
    /\ Forall (fun i => i < n)%nat (fst (randint n r)).

(** On every sample of [n] observations of [nf] features, asked for [k]
    features, the method returns indices of features. *)
Definition answers_in_range (f : selector) (k n nf : nat) : Prop :=
  forall ds ls, len ds = n -> len ls = n -> len_transpose ds = nf ->
    exists sf, f ds ls k = inr sf /\ Forall (fun i => i < nf)%nat sf.

(** [Zmat'] has at most [k] more ones than [Zmat] in each of the [n]
    columns from [x] on, and no more in the others. *)
Definition columns_filled (k x n : nat) (Zmat Zmat' : matrix) : Prop :=
  forall j, (col_sum Zmat' j
             <= col_sum Zmat j + if bool_decide (x <= j < x + n) then k else 0)%nat.

(** The array [m] with every row listed in [sel] replaced by a row of
    halves. *)
Definition highlighted (sel : list nat) (m : list (list float64))
    : list (list float64) :=
  imap (fun i row =>
          if bool_decide (i ∈ sel) then replicate (length row) (Fin (1 # 2)) else row) m.

(** The selection that the object holds names rows of the matrix that it
    holds. *)
Definition consistent (o : npfs) : Prop :=
  forall Zmat, Bernoulli_matrix o = Some Zmat ->
    Forall (fun i => i < length Zmat)%nat (selected_features o).

(** An event of a trial on [n] observations that asks for [k] features: a
    sample that [randint] gave for [n], or a call for [k] features. *)
Definition trial_event {rng : Type} (randint : nat -> rng -> list nat * rng)
    (n k : nat) (e : event) : Prop :=
  match e with
  | EvSample idx => exists r, idx = fst (randint n r)
  | EvSelect k' => k' = k
  end.

(** The log has grown by events of such trials only. *)
Definition trials_logged {rng : Type} (randint : nat -> rng -> list nat * rng)
    (n k : nat) : relation (npfs * world rng) :=
  fun s s' =>
    exists t, trace (snd s') = trace (snd s) ++ t /\ Forall (trial_event randint n k) t.

(** The random state after [m] calls of [np.random.randint(0, n, n)]. *)
Fixpoint draws {rng : Type} (randint : nat -> rng -> list nat * rng)
    (n m : nat) (r : rng) : rng :=
  match m with
  | O => r
  | S m' => draws randint n m' (snd (randint n r))
  end.

(** The object with nothing but what [__init__] was given: no attribute
    that [fit] assigns, and the empty selection. *)
Definition as_constructed (o : npfs) : npfs :=
  Npfs (fs_method o) (n_select o) (n_bootstraps o) (alpha o) (beta o) []
       (parallel o) (min_improv o) (early_stopping o) None None None None None
       None None.

(** The object [o] with other results of a call of [fit]. *)
Definition with_results (rt : option nat) (B : option matrix) (sel : list nat)
    (o : npfs) : npfs :=
  Npfs (fs_method o) (n_select o) (n_bootstraps o) (alpha o) (beta o) sel
       (parallel o) (min_improv o) (early_stopping o) (n_observations o)
       (n_features o) (method o) (data o) (labels o) rt B.

(** * Properties *)

(** ** The binomial distribution *)

Section Binomial.

Local Open Scope Z_scope.

Lemma Zsum_app (xs ys : list Z) : Zsum (xs ++ ys) = Zsum xs + Zsum ys.
Proof. induction xs as [|x xs IH]; simpl; [reflexivity | rewrite IH; lia]. Qed.









End Binomial.

Section Quantile.






End Quantile.

(** ** Writes to the matrix *)

Section Matrix.

Lemma entry_lookup (Zmat : matrix) (i j : nat) :
  entry Zmat i j = default 0%nat (Zmat !! i ≫= fun row => row !! j).
Proof.
  unfold entry. rewrite !nth_lookup.
  destruct (Zmat !! i) as [row|]; simpl; [reflexivity|].
  destruct j; reflexivity.
Qed.

Lemma mark_rows_lookup (b : nat) (sf : list nat) (Zmat : matrix) (i : nat) :
  foldr (fun i M => alter (<[b := 1%nat]>) i M) Zmat sf !! i
  = (if bool_decide (i ∈ sf) then <[b := 1%nat]> else id) <$> Zmat !! i.
Proof.
  induction sf as [|a sf IH]; simpl.
  - destruct (Zmat !! i); reflexivity.
  - destruct (decide (a = i)) as [->|Hne].
    + rewrite list_lookup_alter_eq, IH.
      rewrite (bool_decide_eq_true_2 (i ∈ i :: sf)) by left.
      destruct (Zmat !! i) as [row|]; simpl; [|reflexivity].
      destruct (bool_decide (i ∈ sf)); simpl; [|reflexivity].
      f_equal. apply list_eq. intros j.
      rewrite !list_lookup_insert. rewrite length_insert.
      repeat case_decide; try reflexivity; naive_solver.
    + rewrite list_lookup_alter_ne by exact Hne. rewrite IH.
      rewrite (bool_decide_ext (i ∈ a :: sf) (i ∈ sf)); [reflexivity|].
      rewrite elem_of_cons. split; [intros [?|?]; [congruence|assumption]|intros ?; right; assumption].
Qed.

Lemma setitem_inv (Zmat Zmat' : matrix) (sf : list nat) (b : nat) :
  setitem Zmat sf b = inr Zmat' ->
  Forall (fun i => i < length Zmat)%nat sf
  /\ Zmat' = foldr (fun i M => alter (<[b := 1%nat]>) i M) Zmat sf.
Proof.
  unfold setitem. destruct (forallb _ sf) eqn:E; [|discriminate].
  intros [= <-]. split; [|reflexivity].
  rewrite forallb_forall in E. apply List.Forall_forall. intros i Hi.
  apply Nat.ltb_lt, E, Hi.
Qed.

Lemma setitem_length (Zmat Zmat' : matrix) (sf : list nat) (b : nat) :
  setitem Zmat sf b = inr Zmat' -> length Zmat' = length Zmat.
Proof.
  intros [_ ->]%setitem_inv. induction sf as [|a sf IH]; simpl; [reflexivity|].
  rewrite length_alter. exact IH.
Qed.

Lemma setitem_lookup (Zmat Zmat' : matrix) (sf : list nat) (b i : nat) :
  setitem Zmat sf b = inr Zmat' ->
  Zmat' !! i = (if bool_decide (i ∈ sf) then <[b := 1%nat]> else id) <$> Zmat !! i.
Proof. intros [_ ->]%setitem_inv. apply mark_rows_lookup. Qed.

Lemma setitem_row_length (n : nat) (Zmat Zmat' : matrix) (sf : list nat) (b : nat) :
  setitem Zmat sf b = inr Zmat' -> row_length n Zmat -> row_length n Zmat'.
Proof.
  intros H Hn. apply Forall_lookup. intros i row Hrow.
  rewrite (setitem_lookup _ _ _ _ _ H) in Hrow.
  destruct (Zmat !! i) as [row0|] eqn:E; [|discriminate].
  pose proof (Forall_lookup_1 _ _ _ _ Hn E) as Hlen. simpl in Hlen.
  simpl in Hrow. injection Hrow as <-.
  destruct (bool_decide _); simpl; [rewrite length_insert|]; exact Hlen.
Qed.

(** A write to column [b] leaves the other columns as they were. *)
Lemma setitem_entry_ne (Zmat Zmat' : matrix) (sf : list nat) (b i j : nat) :
  setitem Zmat sf b = inr Zmat' -> j <> b -> entry Zmat' i j = entry Zmat i j.
Proof.
  intros H Hne. rewrite !entry_lookup, (setitem_lookup _ _ _ _ _ H).
  destruct (Zmat !! i) as [row|]; simpl; [|reflexivity].
  destruct (bool_decide _); simpl; [|reflexivity].
  rewrite list_lookup_insert_ne by congruence. reflexivity.
Qed.

(** Column [b] gets a one in the rows of [sf]. *)
Lemma setitem_entry_eq (n : nat) (Zmat Zmat' : matrix) (sf : list nat) (b i : nat) :
  setitem Zmat sf b = inr Zmat' -> row_length n Zmat ->
  (i < length Zmat)%nat -> (b < n)%nat ->
  entry Zmat' i b = if bool_decide (i ∈ sf) then 1%nat else entry Zmat i b.
Proof.
  intros H Hn Hi Hb. rewrite !entry_lookup, (setitem_lookup _ _ _ _ _ H).
  destruct (lookup_lt_is_Some_2 _ _ Hi) as [row E]. rewrite E. simpl.
  pose proof (Forall_lookup_1 _ _ _ _ Hn E) as Hlen. simpl in Hlen.
  destruct (bool_decide _); simpl; [|reflexivity].
  rewrite list_lookup_insert_eq by lia. reflexivity.
Qed.

Lemma zeros_length (nf n : nat) : length (zeros nf n) = nf.
Proof. apply length_replicate. Qed.

Lemma zeros_row_length (nf n : nat) : row_length n (zeros nf n).
Proof. apply Forall_replicate, length_replicate. Qed.

Lemma zeros_entry (nf n i j : nat) : entry (zeros nf n) i j = 0%nat.
Proof.
  rewrite entry_lookup. unfold zeros.
  destruct (replicate nf _ !! i) as [row|] eqn:E; simpl; [|reflexivity].
  apply lookup_replicate in E as [-> _].
  destruct (replicate n 0%nat !! j) as [x|] eqn:E'; simpl; [|reflexivity].
  apply lookup_replicate in E' as [-> _]. reflexivity.
Qed.

(** A row that is blank from column [k] on sums to its first [k] entries. *)
Lemma sum_list_blank (row : list nat) (k : nat) :
  (forall j, (k <= j)%nat -> default 0%nat (row !! j) = 0%nat) ->
  sum_list row = sum_list (take k row).
Proof.
  revert k. induction row as [|x row IH]; intros k Hk; [destruct k; reflexivity|].
  destruct k as [|k]; simpl.
  - pose proof (Hk 0%nat ltac:(lia)) as H0. simpl in H0. subst x.
    rewrite (IH 0%nat); [reflexivity|]. intros j _. apply (Hk (S j)). lia.
  - f_equal. apply IH. intros j Hj. apply (Hk (S j)). lia.
Qed.

Lemma row_sums_blank (Zmat : matrix) (k : nat) :
  blank_from k Zmat -> row_sums Zmat = map (fun row => sum_list (take k row)) Zmat.
Proof.
  intros Hk. unfold row_sums. apply list_eq. intros i.
  rewrite !list_lookup_fmap.
  destruct (Zmat !! i) as [row|] eqn:E; simpl; [|reflexivity].
  f_equal. apply sum_list_blank. intros j Hj.
  specialize (Hk i j Hj). rewrite entry_lookup, E in Hk. exact Hk.
Qed.

End Matrix.

(** ** What the computations leave unchanged *)

Section Frames.

Context {rng : Type}.
Variable randint : nat -> rng -> list nat * rng.
Variable feast : string -> option selector.

Lemma copy_loc_fresh (h : gmap loc pyobj) : h !! copy_loc h = None.
Proof. apply (not_elem_of_dom (D := gset positive)). apply (is_fresh (dom h)). Qed.

Lemma len_transpose_scale (c : float64) (a : ndarray) :
  len_transpose (scale c a) = len_transpose a.
Proof. destruct a; simpl; [apply length_map | reflexivity]. Qed.

Lemma check_data_ok (data labels : loc) (o : npfs) (w : world rng) (d l : ndarray) :
  heap w !! data = Some (Ndarray d) ->
  heap w !! labels = Some (Ndarray l) ->
  len d = len l ->
  __check_data data labels (o, w)
  = (inr (copy_loc (heap w),
          copy_loc (<[copy_loc (heap w) := Ndarray (scale (Fin 1) d)]> (heap w))),
     (o, set_heap (checked_heap (heap w) d l) w)).
Proof.
  intros Hd Hl Hlen. unfold __check_data, bind, get_world, isinstance_ndarray. simpl.
  rewrite Hd, Hl, Hlen, Nat.eqb_refl. simpl. reflexivity.
Qed.

Lemma bootstrap_phase_ok (data labels : loc) (o : npfs) (w : world rng)
    (d l : ndarray) (f : selector) :
  heap w !! data = Some (Ndarray d) ->
  heap w !! labels = Some (Ndarray l) ->
  len d = len l ->
  feast (fs_method o) = Some f ->
  let o1 := prepared o f d (heap w) in
  bootstrap_phase randint feast data labels (o, w)
  = run_trials randint o1 (zeros (len_transpose d) (n_bootstraps o)) (len_transpose d)
      (o1, set_heap (checked_heap (heap w) d l) w).
Proof.
  intros Hd Hl Hlen Hf o1. unfold bootstrap_phase, bind at 1.
  rewrite (check_data_ok data labels o w d l Hd Hl Hlen).
  unfold getattr_feast, deref.
  unfold bind, get_self, get_world, update_self, ret. simpl. rewrite Hf. simpl.
  unfold checked_heap. rewrite lookup_insert_ne, lookup_insert_eq.
  2:{ intros Heq. pose proof (copy_loc_fresh (<[copy_loc (heap w) := Ndarray (scale (Fin 1) d)]> (heap w))) as Hfr.
      rewrite Heq, lookup_insert_eq in Hfr. discriminate. }
  simpl. subst o1. unfold prepared. rewrite len_transpose_scale. reflexivity.
Qed.


Section Preorder.

Context (R : relation (npfs * world rng)) `{!PreOrder R}.

Lemma preserves_ret {A : Type} (a : A) : preserves R (ret a).
Proof. intros s r s' [= <- <-]. reflexivity. Qed.

Lemma preserves_raise {A : Type} (e : exn) : preserves R (raise (A := A) e).
Proof. intros s r s' [= <- <-]. reflexivity. Qed.

Lemma preserves_bind {A B : Type} (m : M rng A) (f : A -> M rng B) :
  preserves R m -> (forall a, preserves R (f a)) -> preserves R (bind m f).
Proof.
  intros Hm Hf s r s' H. unfold bind in H.
  destruct (m s) as [[e|a] s1] eqn:E.
  - injection H as <- <-. eapply Hm, E.
  - transitivity s1; [eapply Hm, E | eapply Hf, H].
Qed.

Lemma preserves_lift {A : Type} (x : exn + A) : preserves R (lift x).
Proof. destruct x; [apply preserves_raise | apply preserves_ret]. Qed.

Lemma preserves_attr {A : Type} (name : string) (v : option A) :
  preserves R (attr name v).
Proof. destruct v; [apply preserves_ret | apply preserves_raise]. Qed.

Lemma preserves_get_self : preserves R get_self.
Proof. intros s r s' [= <- <-]. reflexivity. Qed.

Lemma preserves_get_world : preserves R get_world.
Proof. intros s r s' [= <- <-]. reflexivity. Qed.

Lemma preserves_update_world (f : world rng -> world rng) :
  (forall o w, R (o, w) (o, f w)) -> preserves R (update_world f).
Proof. intros Hf [o w] r s' [= <- <-]. apply Hf. Qed.

Lemma preserves_update_self (f : npfs -> npfs) :
  (forall o w, R (o, w) (f o, w)) -> preserves R (update_self f).
Proof. intros Hf [o w] r s' [= <- <-]. apply Hf. Qed.

End Preorder.

Lemma preserves_deref (R : relation (npfs * world rng)) `{!PreOrder R} (l : loc) :
  preserves R (deref l).
Proof.
  apply preserves_bind; [exact _ | apply preserves_get_world; exact _ |]. intros w.
  destruct (heap w !! l) as [[a|]|];
    [apply preserves_ret | apply preserves_raise ..]; exact _.
Qed.


Lemma preserves_weaken {A : Type} (R R' : relation (npfs * world rng)) (m : M rng A) :
  (forall s s', R s s' -> R' s s') -> preserves R m -> preserves R' m.
Proof. intros HR Hm s r s' H. apply HR. eapply Hm, H. Qed.

#[global] Instance trial_frame_preorder : PreOrder (@trial_frame rng).
Proof.
  split.
  - intros s. repeat split.
  - intros s1 s2 s3 (H1 & H2 & H3) (H4 & H5 & H6). repeat split; congruence.
Qed.

#[global] Instance pool_frame_preorder : PreOrder (@pool_frame rng).
Proof.
  split.
  - intros s. split; reflexivity.
  - intros s1 s2 s3 [H1 H2] [H3 H4]. split; [etransitivity; eassumption | congruence].
Qed.

#[global] Instance heap_frame_preorder : PreOrder (@heap_frame rng).
Proof.
  split.
  - intros s. unfold heap_frame. reflexivity.
  - intros s1 s2 s3 H1 H2. unfold heap_frame in *. etransitivity; eassumption.
Qed.

End Frames.

Ltac preserve_step :=
  first
    [ apply preserves_ret; exact _ | apply preserves_raise; exact _
    | apply preserves_lift; exact _ | apply preserves_attr; exact _
    | apply preserves_get_self; exact _ | apply preserves_get_world; exact _
    | apply preserves_deref; exact _
    | apply preserves_bind; [exact _ | | intros ?] ].

Ltac preserve := repeat preserve_step.

Section Trials.

Context {rng : Type}.
Variable randint : nat -> rng -> list nat * rng.
Variable feast : string -> option selector.

Lemma boot_iteration_frame : preserves trial_frame (boot_iteration randint).
Proof.
  unfold boot_iteration, np_random_randint, call_method. preserve.
  - destruct (randint _ _) as [idx r]. preserve.
    apply preserves_update_world; try exact _. intros o w. repeat split.
  - apply preserves_update_world; try exact _. intros o w. repeat split.
Qed.

Lemma run_all_frame (bs : list nat) (Zmat : matrix) :
  preserves trial_frame (run_all randint bs Zmat).
Proof.
  revert Zmat. induction bs as [|b bs IH]; intros Zmat; cbn [run_all];
    repeat first [apply boot_iteration_frame | apply IH | preserve_step].
Qed.

Lemma in_worker_frame {A : Type} (r : rng) (m : M rng A) :
  preserves trial_frame m -> preserves pool_frame (in_worker r m).
Proof.
  intros Hm [o w] res s' H. unfold in_worker in H.
  destruct (m (o, set_np_random r w)) as [[e|a] [o1 w1]] eqn:E;
    injection H as <- <-; apply Hm in E as (E1 & E2 & E3); simpl in *;
    repeat split; simpl; auto.
Qed.

Lemma run_tasks_frame (P cs : nat) (xs : list nat) (rngs : list rng) :
  preserves pool_frame (run_tasks randint P cs xs rngs).
Proof.
  revert rngs. induction xs as [|x xs IH]; intros rngs; cbn [run_tasks];
    repeat first
      [ apply in_worker_frame, boot_iteration_frame | apply IH
      | preserve_step | match goal with |- context [let '(_, _) := ?p in _] => destruct p end ].
Qed.

Lemma pool_map_frame (P n : nat) : preserves pool_frame (pool_map randint P n).
Proof.
  unfold pool_map. destruct (P =? 0)%nat;
    repeat first [apply run_tasks_frame | preserve_step].
Qed.

End Trials.

(** ** The loops *)

Section Loops.

Context {rng : Type}.
Variable randint : nat -> rng -> list nat * rng.
Variable feast : string -> option selector.

Lemma oracle_calls_app (t t' : list event) :
  oracle_calls (t ++ t') = (oracle_calls t + oracle_calls t')%nat.
Proof. unfold oracle_calls. rewrite List.filter_app, length_app. reflexivity. Qed.

Lemma samples_drawn_app (t t' : list event) :
  samples_drawn (t ++ t') = (samples_drawn t + samples_drawn t')%nat.
Proof. unfold samples_drawn. rewrite List.filter_app, length_app. reflexivity. Qed.

Lemma trials_run_refl (w : world rng) : trials_run w w 0.
Proof. split; lia. Qed.

Lemma trials_run_trans (w1 w2 w3 : world rng) (n m : nat) :
  trials_run w1 w2 n -> trials_run w2 w3 m -> trials_run w1 w3 (n + m).
Proof. intros [H1 H2] [H3 H4]. split; lia. Qed.

Lemma bind_inr {A B : Type} (m : M rng A) (f : A -> M rng B)
    (s s' : npfs * world rng) (b : B) :
  bind m f s = (inr b, s') ->
  exists a s1, m s = (inr a, s1) /\ f a s1 = (inr b, s').
Proof.
  unfold bind. destruct (m s) as [[e|a] s1]; [discriminate|].
  intros H. exists a, s1. split; [reflexivity | exact H].
Qed.

Lemma attr_inr {A : Type} (name : string) (v : option A)
    (s s' : npfs * world rng) (a : A) :
  attr name v s = (inr a, s') -> v = Some a /\ s' = s.
Proof. destruct v; [intros [= <- <-]; auto | discriminate]. Qed.

Lemma lift_inr {A : Type} (x : exn + A) (s s' : npfs * world rng) (a : A) :
  lift x s = (inr a, s') -> x = inr a /\ s' = s.
Proof. destruct x; [discriminate | intros [= <- <-]; auto]. Qed.

Lemma deref_inr (l : loc) (s s' : npfs * world rng) (a : ndarray) :
  deref l s = (inr a, s') -> heap (snd s) !! l = Some (Ndarray a) /\ s' = s.
Proof.
  unfold deref, bind, get_world. simpl.
  destruct (heap (snd s) !! l) as [[x|]|]; [intros [= <- <-]; auto | discriminate ..].
Qed.

(** A trial that returns has drawn one sample and called the oracle once. *)
Lemma boot_iteration_ok (o o' : npfs) (w w' : world rng) (sf : list nat) :
  boot_iteration randint (o, w) = (inr sf, (o', w')) -> trials_run w w' 1.
Proof.
  unfold boot_iteration. intros H.
  apply bind_inr in H as (o0 & s0 & [= <- <-] & H1); cbv beta in H1.
  apply bind_inr in H1 as (n & s1 & Hm1 & H2); cbv beta in H2.
  apply attr_inr in Hm1 as [_ ->].
  apply bind_inr in H2 as (idx & s2 & E & H3); cbv beta in H3.
  assert (Hs2 : exists r, s2 = (o, log (EvSample idx) (set_np_random r w))).
  { unfold np_random_randint, bind, get_world, update_world, ret in E. simpl in E.
    destruct (randint n (np_random w)) as [idx' r]. injection E as <- <-. eauto. }
  destruct Hs2 as [r ->].
  apply bind_inr in H3 as (d & s3 & Hm3 & H4); cbv beta in H4.
  apply attr_inr in Hm3 as [_ ->].
  apply bind_inr in H4 as (d0 & s4 & Hm4 & H5); cbv beta in H5.
  apply deref_inr in Hm4 as [_ ->].
  apply bind_inr in H5 as (data_sub & s5 & Hm5 & H6); cbv beta in H6.
  apply lift_inr in Hm5 as [_ ->].
  apply bind_inr in H6 as (l & s6 & Hm6 & H7); cbv beta in H7.
  apply attr_inr in Hm6 as [_ ->].
  apply bind_inr in H7 as (l0 & s7 & Hm7 & H8); cbv beta in H8.
  apply deref_inr in Hm7 as [_ ->].
  apply bind_inr in H8 as (labels_sub & s8 & Hm8 & H9); cbv beta in H9.
  apply lift_inr in Hm8 as [_ ->].
  apply bind_inr in H9 as (f & s9 & Hm9 & H10); cbv beta in H10.
  apply attr_inr in Hm9 as [_ ->].
  unfold call_method in H10.
  apply bind_inr in H10 as (u & s10 & Hm10 & H11); cbv beta in H11.
  injection Hm10 as _ <-. apply lift_inr in H11 as [_ Hs]. injection Hs as -> ->.
  split; simpl; rewrite <- !app_assoc;
    [rewrite oracle_calls_app | rewrite samples_drawn_app]; reflexivity.
Qed.

Lemma run_all_ok (bs : list nat) (Zmat Zmat' : matrix) (o o' : npfs) (w w' : world rng) :
  run_all randint bs Zmat (o, w) = (inr Zmat', (o', w')) ->
  trials_run w w' (length bs).
Proof.
  revert Zmat o w. induction bs as [|b bs IH]; intros Zmat o w H.
  - injection H as <- <- <-. apply trials_run_refl.
  - cbn [run_all] in H. unfold bind at 1 in H.
    destruct (boot_iteration randint (o, w)) as [[e|sf] [o1 w1]] eqn:E1; [discriminate|].
    unfold bind at 1 in H. unfold lift in H.
    destruct (setitem Zmat sf b) as [e|Z1] eqn:E2; [discriminate|].
    simpl in H. apply IH in H. apply boot_iteration_ok in E1.
    apply (trials_run_trans _ _ _ 1 _ E1 H).
Qed.


Lemma columns_written_refl (x : nat) (Zmat : matrix) : columns_written x 0 Zmat Zmat.
Proof. repeat split; auto. Qed.

Lemma setitem_binary (Zmat Zmat' : matrix) (sf : list nat) (b : nat) :
  setitem Zmat sf b = inr Zmat' -> binary Zmat -> binary Zmat'.
Proof.
  intros H Hb i j. specialize (Hb i j).
  rewrite entry_lookup in *. rewrite (setitem_lookup _ _ _ _ _ H).
  destruct (Zmat !! i) as [row|]; simpl in *; [|lia].
  destruct (bool_decide _); simpl; [|exact Hb].
  rewrite list_lookup_insert. case_decide; simpl; [lia | exact Hb].
Qed.

Lemma columns_written_step (x k : nat) (Zmat Z1 Zmat' : matrix) (sf : list nat) :
  setitem Zmat sf x = inr Z1 ->
  columns_written (S x) k Z1 Zmat' ->
  columns_written x (S k) Zmat Zmat'.
Proof.
  intros H (H1 & H2 & H3 & H4). split; [|split; [|split]].
  - rewrite H1. eapply setitem_length, H.
  - intros N HN. eapply H2, setitem_row_length; eassumption.
  - intros i j Hj. rewrite H3 by lia. eapply setitem_entry_ne; [exact H | lia].
  - intros Hb. eapply H4, setitem_binary; eassumption.
Qed.

Lemma columns_written_blank (x k : nat) (Zmat Zmat' : matrix) :
  columns_written x k Zmat Zmat' -> blank_from x Zmat -> blank_from (x + k) Zmat'.
Proof.
  intros (_ & _ & H & _) Hb i j Hj. rewrite H by lia. apply Hb. lia.
Qed.

Lemma run_all_columns (n x : nat) (Zmat Zmat' : matrix) (s s' : npfs * world rng) :
  run_all randint (seq x n) Zmat s = (inr Zmat', s') ->
  columns_written x n Zmat Zmat'.
Proof.
  revert x Zmat s. induction n as [|n IH]; intros x Zmat s H.
  - injection H as <- <-. apply columns_written_refl.
  - cbn [seq run_all] in H. unfold bind at 1 in H.
    destruct (boot_iteration randint s) as [[e|sf] s1]; [discriminate|].
    unfold bind at 1 in H. unfold lift in H.
    destruct (setitem Zmat sf x) as [e|Z1] eqn:E2; [discriminate|].
    simpl in H. apply IH in H. eapply columns_written_step; eassumption.
Qed.

(** The monitored loop either runs every trial or stops after the trial
    with index [x + m - 1], having set [run_time] to that index. *)
Lemma run_monitored_ok (n x : nat) (Zmat Zmat' : matrix) (p1_old : list float64)
    (o o' : npfs) (w w' : world rng) :
  run_monitored randint (seq x n) Zmat p1_old (o, w) = (inr Zmat', (o', w')) ->
  heap w' = heap w /\ schedule w' = schedule w /\
  exists m, (m <= n)%nat /\ trials_run w w' m /\ columns_written x m Zmat Zmat'
    /\ ((o' = o /\ m = n) \/ (0 < m /\ o' = set_run_time (x + m - 1) o)%nat).
Proof.
  revert x Zmat p1_old w. induction n as [|n IH]; intros x Zmat p1_old w H.
  - injection H as <- <- <-. repeat split. exists 0%nat.
    split; [lia|]. split; [apply trials_run_refl|].
    split; [apply columns_written_refl|]. left. split; reflexivity.
  - cbn [seq run_monitored] in H. unfold bind at 1 in H.
    destruct (boot_iteration randint (o, w)) as [[e|sf] [o1 w1]] eqn:E1; [discriminate|].
    pose proof (boot_iteration_frame randint _ _ _ E1) as (Ho & Hh & Hs).
    simpl in Ho, Hh, Hs. subst o1.
    apply boot_iteration_ok in E1.
    unfold bind at 1 in H. unfold lift in H.
    destruct (setitem Zmat sf x) as [e|Z1] eqn:E2; [discriminate|].
    simpl in H. unfold bind at 1, get_self in H. simpl in H.
    destruct (fltb _ _).
    + unfold bind, update_self, ret in H. simpl in H. injection H as <- <- <-.
      split; [exact Hh|]. split; [exact Hs|]. exists 1%nat.
      split; [lia|]. split; [exact E1|].
      split; [eapply columns_written_step; [exact E2|apply columns_written_refl]|].
      right. split; [lia|]. f_equal. lia.
    + apply IH in H as (Hh' & Hs' & m & Hm & Ht & Hc & Ho).
      split; [congruence|]. split; [congruence|]. exists (S m).
      split; [lia|]. split; [apply (trials_run_trans _ _ _ 1 m E1 Ht)|].
      split; [eapply columns_written_step; eassumption|].
      destruct Ho as [[-> ->]|[Hpos ->]]; [left; split; reflexivity|].
      right. split; [lia|]. f_equal. lia.
Qed.

Lemma first_frequency_inf_or_nan (Zmat : matrix) :
  Forall inf_or_nan (running_frequency Zmat 0).
Proof.
  unfold running_frequency. apply Forall_map, Forall_forall. intros s _.
  unfold of_nat, fdiv, inf_or_nan. simpl. destruct (Z.of_nat s) eqn:E; auto. lia.
Qed.

Lemma fsum_inf_or_nan (a : float64) (l : list float64) :
  inf_or_nan a -> Forall inf_or_nan l -> inf_or_nan (foldl fadd a l).
Proof.
  revert a. induction l as [|x l IH]; intros a Ha Hl; [exact Ha|].
  inversion Hl as [|? ? Hx Hl']; subst. simpl. apply IH; [|exact Hl'].
  destruct Ha as [-> | ->], Hx as [-> | ->]; [left|right ..]; reflexivity.
Qed.

(** The change from any previous vector to one without finite entries is
    [inf] or [nan], and neither is below a tolerance. *)
Lemma mean_abs_change_inf_or_nan (p1 p1_old : list float64) :
  Forall inf_or_nan p1 -> inf_or_nan (mean_abs_change p1 p1_old).
Proof.
  intros Hp. unfold mean_abs_change, fmean.
  set (l := zip_with _ p1 p1_old).
  assert (Hl : Forall inf_or_nan l).
  { subst l. clear -Hp. revert p1_old. induction Hp as [|x p1 Hx Hp IH]; intros [|y ys];
      simpl; constructor; [|apply IH].
    destruct Hx as [-> | ->]; destruct y; unfold inf_or_nan; simpl; auto. }
  destruct l as [|x l]; [right; reflexivity|].
  assert (Hs : inf_or_nan (fsum (x :: l))).
  { inversion Hl as [|? ? Hx Hl']; subst.
    apply (fsum_inf_or_nan (fadd (Fin 0) x) l); [|exact Hl'].
    destruct Hx as [-> | ->]; [left|right]; reflexivity. }
  destruct Hs as [-> | ->]; [left|right]; reflexivity.
Qed.

Lemma inf_or_nan_not_below (d : float64) (tol : Q) :
  inf_or_nan d -> fltb d (Fin tol) = false.
Proof. intros [-> | ->]; reflexivity. Qed.

Lemma run_monitored_first (bs : list nat) (Zmat Z1 : matrix) (p1_old : list float64)
    (s s1 : npfs * world rng) (sf : list nat) :
  boot_iteration randint s = (inr sf, s1) ->
  setitem Zmat sf 0 = inr Z1 ->
  run_monitored randint (0%nat :: bs) Zmat p1_old s
  = run_monitored randint bs Z1 (running_frequency Z1 0) s1.
Proof.
  intros E1 E2. cbn [run_monitored]. unfold bind at 1. rewrite E1.
  unfold bind at 1. rewrite E2. simpl. unfold bind at 1, get_self. simpl.
  rewrite inf_or_nan_not_below; [reflexivity|].
  apply mean_abs_change_inf_or_nan, first_frequency_inf_or_nan.
Qed.

Lemma set_np_random_id (w : world rng) (r : rng) :
  set_np_random (np_random w) (set_np_random r w) = w.
Proof. destruct w; reflexivity. Qed.

Lemma run_tasks_ok (P cs : nat) (xs : list nat) (rngs : list rng)
    (sfs : list (list nat)) (o o' : npfs) (w w' : world rng) :
  run_tasks randint P cs xs rngs (o, w) = (inr sfs, (o', w')) ->
  length sfs = length xs /\ trials_run w w' (length xs).
Proof.
  revert rngs sfs w. induction xs as [|x xs IH]; intros rngs sfs w H.
  - injection H as <- <- <-. split; [reflexivity | apply trials_run_refl].
  - cbn [run_tasks] in H. unfold bind at 1, get_world in H. simpl in H.
    set (r := default (np_random w) (rngs !! _)) in H.
    unfold bind at 1, in_worker, __call__ in H.
    destruct (boot_iteration randint (o, set_np_random r w)) as [[e|sf] [o1 w1]] eqn:E1;
      [discriminate|].
    apply boot_iteration_ok in E1.
    unfold bind at 1 in H.
    destruct (run_tasks _ _ _ _ _ _) as [[e|sfs'] [o2 w2]] eqn:E2; [discriminate|].
    injection H as <- <- <-. apply IH in E2 as [Hlen Ht].
    split; [simpl; congruence|].
    exact (trials_run_trans w (set_np_random (np_random w) w1) _ 1 _ E1 Ht).
Qed.

Lemma assemble_columns (sfs : list (list nat)) (x : nat) (Zmat Zmat' : matrix) :
  assemble sfs x Zmat = inr Zmat' -> columns_written x (length sfs) Zmat Zmat'.
Proof.
  revert x Zmat. induction sfs as [|sf sfs IH]; intros x Zmat H.
  - injection H as <-. apply columns_written_refl.
  - cbn [assemble] in H. destruct (setitem Zmat sf x) as [e|Z1] eqn:E; [discriminate|].
    apply IH in H. eapply columns_written_step; eassumption.
Qed.

(** Column [x + k] of the assembled matrix records the [k]-th result. *)
Lemma assemble_entry (N : nat) (sfs : list (list nat)) (x : nat) (Zmat Zmat' : matrix)
    (i k : nat) (sf : list nat) :
  assemble sfs x Zmat = inr Zmat' ->
  row_length N Zmat -> (x + length sfs <= N)%nat -> (i < length Zmat)%nat ->
  sfs !! k = Some sf ->
  entry Zmat' i (x + k) = if bool_decide (i ∈ sf) then 1%nat else entry Zmat i (x + k).
Proof.
  revert x Zmat k. induction sfs as [|sf0 sfs IH]; intros x Zmat k H HN Hx Hi Hk;
    [discriminate|].
  cbn [assemble] in H. destruct (setitem Zmat sf0 x) as [e|Z1] eqn:E; [discriminate|].
  simpl in Hx. destruct k as [|k].
  - injection Hk as ->. rewrite Nat.add_0_r.
    destruct (assemble_columns _ _ _ _ H) as (_ & _ & Hout & _).
    rewrite Hout by lia. eapply setitem_entry_eq; [exact E | exact HN | exact Hi | lia].
  - simpl in Hk. replace (x + S k)%nat with (S x + k)%nat by lia.
    rewrite (IH (S x) Z1 k H); [| |lia| |exact Hk].
    + rewrite (setitem_entry_ne _ _ _ _ _ _ E) by lia. reflexivity.
    + eapply setitem_row_length; eassumption.
    + rewrite (setitem_length _ _ _ _ E). exact Hi.
Qed.

Lemma select_inv (Zmat : matrix) (o o' : npfs) (w w' : world rng) (sel : list nat) :
  select Zmat (o, w) = (inr sel, (o', w')) ->
  exists nf, n_features o = Some nf /\ nf <> 0%nat
    /\ (null_probability o nf <= 1)%Q
    /\ sel = above_threshold (row_sums Zmat) (threshold o nf) nf
    /\ o' = set_selected_features sel (set_Bernoulli_matrix Zmat o)
    /\ w' = w.
Proof.
  unfold select, bind, get_self, attr, update_self, ret, raise. simpl.
  destruct (n_features o) as [nf|]; [|discriminate].
  destruct (nf =? 0)%nat eqn:E0; [discriminate|].
  destruct (Qlt_bool 1 _) eqn:Ep; [discriminate|].
  intros [= <- <- <-]. exists nf. split; [reflexivity|].
  split; [apply Nat.eqb_neq, E0|]. split; [|auto].
  unfold Qlt_bool in Ep. apply negb_false_iff, Qle_bool_iff in Ep. exact Ep.
Qed.

End Loops.

(** ** [fit], step by step *)

Section Fit.

Context {rng : Type}.
Variable randint : nat -> rng -> list nat * rng.
Variable feast : string -> option selector.

Lemma pool_map_ok (P n : nat) (sfs : list (list nat)) (o o' : npfs) (w w' : world rng) :
  pool_map randint P n (o, w) = (inr sfs, (o', w')) ->
  length sfs = n /\ trials_run w w' n.
Proof.
  unfold pool_map. destruct (P =? 0)%nat; [discriminate|].
  unfold bind, get_world. simpl. intros H.
  apply run_tasks_ok in H. rewrite length_seq in H. exact H.
Qed.

Lemma blank_zeros (nf n k : nat) : blank_from k (zeros nf n).
Proof. intros i j _. apply zeros_entry. Qed.

(** What a run of the trials that returns has done, in each mode. *)
Lemma run_trials_ok (o o' : npfs) (nf : nat) (Zmat : matrix) (w w' : world rng) :
  run_trials randint o (zeros nf (n_bootstraps o)) nf (o, w) = (inr Zmat, (o', w')) ->
  heap w' = heap w /\ length Zmat = nf /\ row_length (n_bootstraps o) Zmat /\
  exists m, (m <= n_bootstraps o)%nat /\ trials_run w w' m /\ blank_from m Zmat
    /\ ((o' = o /\ m = n_bootstraps o)
        \/ (parallel o = None /\ early_stopping o = true /\ (0 < m)%nat
            /\ o' = set_run_time (m - 1) o)).
Proof.
  unfold run_trials. intros H.
  assert (Hshape : forall m, columns_written 0 m (zeros nf (n_bootstraps o)) Zmat ->
            length Zmat = nf /\ row_length (n_bootstraps o) Zmat /\ blank_from m Zmat).
  { intros m Hc. pose proof Hc as (H1 & H2 & _). split; [|split].
    - rewrite H1. apply zeros_length.
    - apply H2, zeros_row_length.
    - apply (columns_written_blank 0 m _ _ Hc), blank_zeros. }
  destruct (parallel o) as [P|] eqn:EP.
  - apply bind_inr in H as (sfs & [o1 w1] & Hp & Ha). apply lift_inr in Ha as [Ha Hs].
    injection Hs as -> ->.
    pose proof (pool_map_frame randint _ _ _ _ _ Hp) as [(Ho & Hh & _) _].
    simpl in Ho, Hh. subst o1.
    apply pool_map_ok in Hp as [Hlen Ht]. apply assemble_columns in Ha.
    rewrite Hlen in Ha. destruct (Hshape _ Ha) as (H1 & H2 & H3).
    split; [exact Hh|]. split; [exact H1|]. split; [exact H2|].
    exists (n_bootstraps o). split; [lia|]. split; [exact Ht|]. split; [exact H3|].
    left. split; reflexivity.
  - destruct (early_stopping o) eqn:EE.
    + apply run_monitored_ok in H as (Hh & _ & m & Hm & Ht & Hc & Ho).
      destruct (Hshape _ Hc) as (H1 & H2 & H3).
      split; [exact Hh|]. split; [exact H1|]. split; [exact H2|].
      exists m. split; [exact Hm|]. split; [exact Ht|]. split; [exact H3|].
      destruct Ho as [Ho|[Hpos Ho]]; [left; exact Ho|]. right. auto.
    + pose proof (run_all_frame randint _ _ _ _ _ H) as (Ho & Hh & _).
      simpl in Ho, Hh. subst o'.
      pose proof (run_all_columns randint _ _ _ _ _ _ H) as Hc.
      apply run_all_ok in H. rewrite length_seq in H.
      destruct (Hshape _ Hc) as (H1 & H2 & H3).
      split; [exact Hh|]. split; [exact H1|]. split; [exact H2|].
      exists (n_bootstraps o). split; [lia|]. split; [exact H|]. split; [exact H3|].
      left. split; reflexivity.
Qed.

Lemma check_data_inr (data labels : loc) (s s' : npfs * world rng) (x : loc * loc) :
  __check_data data labels s = (inr x, s') ->
  exists d l, heap (snd s) !! data = Some (Ndarray d)
    /\ heap (snd s) !! labels = Some (Ndarray l) /\ len d = len l.
Proof.
  unfold __check_data, bind at 1, get_world, isinstance_ndarray. simpl.
  destruct (heap (snd s) !! data) as [[d|]|]; [|discriminate ..].
  destruct (heap (snd s) !! labels) as [[l|]|]; [|discriminate ..].
  destruct (len d =? len l)%nat eqn:E; [|discriminate]. simpl. intros _.
  exists d, l. repeat split. apply Nat.eqb_eq, E.
Qed.

(** A bootstrap phase that returns had valid inputs and a known method. *)
Lemma bootstrap_phase_inr (data labels : loc) (o : npfs) (w : world rng)
    (Zmat : matrix) (s' : npfs * world rng) :
  bootstrap_phase randint feast data labels (o, w) = (inr Zmat, s') ->
  exists d l f, heap w !! data = Some (Ndarray d)
    /\ heap w !! labels = Some (Ndarray l) /\ len d = len l
    /\ feast (fs_method o) = Some f.
Proof.
  intros H. pose proof H as H0. unfold bootstrap_phase in H.
  apply bind_inr in H as ([d' l'] & s1 & Hc & H1).
  pose proof (check_data_inr _ _ _ _ _ Hc) as (d & l & Hd & Hl & Hlen).
  simpl in Hd, Hl. exists d, l.
  destruct (feast (fs_method o)) as [f|] eqn:Hf; [exists f; auto|]. exfalso.
  rewrite (check_data_ok data labels o w d l Hd Hl Hlen) in Hc.
  injection Hc as _ _ <-.
  apply bind_inr in H1 as (o0 & s2 & Hg & H2). injection Hg as <- <-.
  apply bind_inr in H2 as (f & s3 & Hm & _).
  unfold getattr_feast in Hm. rewrite Hf in Hm. discriminate.
Qed.

(** The attributes that the trials and the selection read are those of the
    constructor. *)
Lemma prepared_config (o : npfs) (f : selector) (d : ndarray) (h : gmap loc pyobj) :
  let o1 := prepared o f d h in
  n_select o1 = n_select o /\ n_bootstraps o1 = n_bootstraps o
  /\ alpha o1 = alpha o /\ beta o1 = beta o /\ parallel o1 = parallel o
  /\ early_stopping o1 = early_stopping o /\ min_improv o1 = min_improv o
  /\ run_time o1 = run_time o /\ Bernoulli_matrix o1 = Bernoulli_matrix o
  /\ selected_features o1 = selected_features o
  /\ n_features o1 = Some (len_transpose d)
  /\ data o1 = Some (copy_loc h)
  /\ labels o1 = Some (copy_loc (<[copy_loc h := Ndarray (scale (Fin 1) d)]> h)).
Proof. simpl. rewrite len_transpose_scale. repeat split. Qed.

(** A call of [fit] that returns, step by step. *)
Lemma fit_inv (data labels : loc) (o o' : npfs) (w w' : world rng) (sel : list nat) :
  fit randint feast data labels (o, w) = (inr sel, (o', w')) ->
  exists d l f Zmat o2,
    heap w !! data = Some (Ndarray d) /\ heap w !! labels = Some (Ndarray l)
    /\ len d = len l /\ feast (fs_method o) = Some f
    /\ run_trials randint (prepared o f d (heap w))
         (zeros (len_transpose d) (n_bootstraps o)) (len_transpose d)
         (prepared o f d (heap w), set_heap (checked_heap (heap w) d l) w)
       = (inr Zmat, (o2, w'))
    /\ select Zmat (o2, w') = (inr sel, (o', w')).
Proof.
  unfold fit. intros H. apply bind_inr in H as (Zmat & [o2 w2] & Hb & Hs).
  pose proof (bootstrap_phase_inr _ _ _ _ _ _ Hb) as (d & l & f & Hd & Hl & Hlen & Hf).
  rewrite (bootstrap_phase_ok randint feast data labels o w d l f Hd Hl Hlen Hf) in Hb.
  pose proof (select_inv _ _ _ _ _ _ Hs) as (_ & _ & _ & _ & _ & _ & Hw). subst w2.
  exists d, l, f, Zmat, o2. auto 10.
Qed.

End Fit.

(** ** What [fit] guarantees *)

Section Claims.

Context {rng : Type}.
Variable randint : nat -> rng -> list nat * rng.
Variable feast : string -> option selector.

Lemma trial_frame_heap (s s' : npfs * world rng) : trial_frame s s' -> heap_frame s s'.
Proof. intros (_ & H & _). unfold heap_frame. rewrite H. reflexivity. Qed.

Lemma pool_frame_heap (s s' : npfs * world rng) : pool_frame s s' -> heap_frame s s'.
Proof. intros [H _]. apply trial_frame_heap, H. Qed.

Lemma update_self_heap (f : npfs -> npfs) : preserves (@heap_frame rng) (update_self f).
Proof. apply preserves_update_self; try exact _. intros o w. unfold heap_frame. reflexivity. Qed.

Lemma alloc_heap (a : ndarray) : preserves (@heap_frame rng) (alloc a).
Proof.
  intros [o w] r s' H. unfold alloc, bind, get_world, update_world, ret in H.
  simpl in H. injection H as <- <-. unfold heap_frame. simpl.
  apply insert_subseteq, copy_loc_fresh.
Qed.

Lemma check_data_heap (data labels : loc) :
  preserves (@heap_frame rng) (__check_data data labels).
Proof.
  unfold __check_data. preserve.
  destruct (isinstance_ndarray a data); [|preserve].
  destruct (isinstance_ndarray a labels); [|preserve].
  destruct (negb _); repeat first [apply alloc_heap | preserve_step].
Qed.

Lemma run_monitored_heap (bs : list nat) (Zmat : matrix) (p1_old : list float64) :
  preserves (@heap_frame rng) (run_monitored randint bs Zmat p1_old).
Proof.
  revert Zmat p1_old. induction bs as [|b bs IH]; intros Zmat p1_old; cbn [run_monitored];
    repeat first
      [ apply (preserves_weaken trial_frame heap_frame _ trial_frame_heap),
          boot_iteration_frame
      | apply update_self_heap | apply IH | preserve_step
      | match goal with |- context [if ?c then _ else _] => destruct c end ].
Qed.

Lemma run_trials_heap (o : npfs) (Zmat : matrix) (nf : nat) :
  preserves (@heap_frame rng) (run_trials randint o Zmat nf).
Proof.
  unfold run_trials. destruct (parallel o) as [P|]; [|destruct (early_stopping o)].
  - repeat first
      [ apply (preserves_weaken pool_frame heap_frame _ pool_frame_heap), pool_map_frame
      | preserve_step ].
  - apply run_monitored_heap.
  - apply (preserves_weaken trial_frame heap_frame _ trial_frame_heap), run_all_frame.
Qed.

Lemma select_heap (Zmat : matrix) : preserves (@heap_frame rng) (select Zmat).
Proof.
  unfold select. preserve. destruct (a0 =? 0)%nat; [preserve|].
  destruct (Qlt_bool _ _); repeat first [apply update_self_heap | preserve_step].
Qed.

Lemma fit_heap (data labels : loc) :
  preserves (@heap_frame rng) (fit randint feast data labels).
Proof.
  unfold fit, bootstrap_phase.
  repeat first
    [ apply check_data_heap | apply update_self_heap | apply run_trials_heap
    | apply select_heap | preserve_step
    | match goal with |- context [let '(_, _) := ?p in _] => destruct p end
    | match goal with |- context [match ?c with inl _ => _ | inr _ => _ end] =>
        destruct c as [[]|] end ].
Qed.


(** A call of [fit] that returns: the inputs were valid, [m] trials were
    run, the matrix is blank from column [m] on, and the object holds the
    matrix and the features above the threshold. *)
Lemma fit_success (data labels : loc) (o o' : npfs) (w w' : world rng) (sel : list nat) :
  fit randint feast data labels (o, w) = (inr sel, (o', w')) ->
  exists d l f Zmat m o2,
    heap w !! data = Some (Ndarray d) /\ heap w !! labels = Some (Ndarray l)
    /\ len d = len l /\ feast (fs_method o) = Some f
    /\ heap w' = checked_heap (heap w) d l
    /\ length Zmat = len_transpose d /\ row_length (n_bootstraps o) Zmat
    /\ (m <= n_bootstraps o)%nat /\ trials_run w w' m /\ blank_from m Zmat
    /\ len_transpose d <> 0%nat
    /\ (null_probability o (len_transpose d) <= 1)%Q
    /\ sel = above_threshold (row_sums Zmat) (threshold o (len_transpose d))
               (len_transpose d)
    /\ o' = set_selected_features sel (set_Bernoulli_matrix Zmat o2)
    /\ ((o2 = prepared o f d (heap w) /\ m = n_bootstraps o)
        \/ (parallel o = None /\ early_stopping o = true /\ (0 < m)%nat
            /\ o2 = set_run_time (m - 1) (prepared o f d (heap w)))).
Proof.
  intros H.
  apply fit_inv in H as (d & l & f & Zmat & o2 & Hd & Hl & Hlen & Hf & Hr & Hs).
  apply (run_trials_ok randint (prepared o f d (heap w)) o2 (len_transpose d) Zmat
           (set_heap (checked_heap (heap w) d l) w) w')
    in Hr as (Hh & Hrows & Hcols & m & Hm & Ht & Hb & Ho).
  apply select_inv in Hs as (nf & Hnf & Hnz & Hp & Hsel & Ho' & _).
  assert (Hcfg : n_features o2 = Some (len_transpose d)
                 /\ null_probability o2 = null_probability o
                 /\ threshold o2 = threshold o).
  { destruct Ho as [[-> _]|(_ & _ & _ & ->)]; simpl; rewrite len_transpose_scale;
      repeat split. }
  destruct Hcfg as (Hnf' & Hp' & Ht').
  rewrite Hnf' in Hnf. injection Hnf as <-. rewrite Hp' in Hp. rewrite Ht' in Hsel.
  exists d, l, f, Zmat, m, o2.
  repeat (split; [assumption|]). exact Ho.
Qed.


(** A trial does not read [self.parallel]. *)
Lemma boot_iteration_with_parallel (P : option nat) (o : npfs) (w : world rng) :
  boot_iteration randint (with_parallel P o, w)
  = (fst (boot_iteration randint (o, w)),
     (with_parallel P o, snd (snd (boot_iteration randint (o, w))))).
Proof.
  unfold boot_iteration, np_random_randint, call_method, deref, bind, get_self,
    get_world, update_world, attr, lift, ret, raise. simpl.
  destruct (n_observations o) as [n|]; [|reflexivity]. simpl.
  destruct (randint n (np_random w)) as [idx r]. simpl.
  destruct (data o) as [dl|]; [|reflexivity]. simpl.
  destruct (heap w !! dl) as [[d|]|]; [|reflexivity ..]. simpl.
  destruct (getitem d idx) as [e|data_sub]; [reflexivity|]. simpl.
  destruct (labels o) as [ll|]; [|reflexivity]. simpl.
  destruct (heap w !! ll) as [[l|]|]; [|reflexivity ..]. simpl.
  destruct (getitem l idx) as [e|labels_sub]; [reflexivity|]. simpl.
  destruct (method o) as [f|]; [|reflexivity]. simpl.
  destruct (f data_sub labels_sub (n_select o)); reflexivity.
Qed.


(** A pool of one worker runs the trials as the sequential loop does. *)
Lemma run_all_pool_of_one (P : option nat) (n x cs : nat) (Zmat Zmat' : matrix)
    (o o' : npfs) (w w' : world rng) (r0 : rng) :
  run_all randint (seq x n) Zmat (o, w) = (inr Zmat', (o', w')) ->
  exists sfs,
    run_tasks randint 1 cs (seq x n) [np_random w]
      (with_parallel P o, set_np_random r0 w)
    = (inr sfs, (with_parallel P o, set_np_random r0 w'))
    /\ assemble sfs x Zmat = inr Zmat'.
Proof.
  revert x Zmat w. induction n as [|n IH]; intros x Zmat w H.
  - injection H as <- <- <-. exists []. split; reflexivity.
  - cbn [seq run_all] in H. unfold bind at 1 in H.
    destruct (boot_iteration randint (o, w)) as [[e|sf] [o1 w1]] eqn:E1; [discriminate|].
    unfold bind at 1 in H. unfold lift in H.
    destruct (setitem Zmat sf x) as [e|Z1] eqn:E2; [discriminate|].
    simpl in H.
    pose proof (boot_iteration_frame randint _ _ _ E1) as (Ho & _ & _).
    simpl in Ho. subst o1.
    destruct (IH _ _ _ H) as (sfs & Hrun & Hasm).
    exists (sf :: sfs). split.
    + cbn [seq run_tasks]. unfold bind at 1, get_world. simpl.
      unfold bind at 1, in_worker, __call__.
      rewrite set_np_random_id, boot_iteration_with_parallel, E1. simpl.
      unfold bind at 1.
      change (set_np_random (np_random (set_np_random r0 w)) w1)
        with (set_np_random r0 w1).
      rewrite Hrun. reflexivity.
    + cbn [assemble]. rewrite E2. exact Hasm.
Qed.

Lemma set_np_random_same (w : world rng) : set_np_random (np_random w) w = w.
Proof. destruct w; reflexivity. Qed.

Lemma select_ok (Zmat : matrix) (o : npfs) (w : world rng) (nf : nat) :
  n_features o = Some nf -> nf <> 0%nat -> (null_probability o nf <= 1)%Q ->
  select Zmat (o, w)
  = (inr (above_threshold (row_sums Zmat) (threshold o nf) nf),
     (set_selected_features (above_threshold (row_sums Zmat) (threshold o nf) nf)
        (set_Bernoulli_matrix Zmat o), w)).
Proof.
  intros Hnf Hnz Hp. unfold select, bind, get_self, attr, update_self, ret. simpl.
  rewrite Hnf. simpl.
  destruct (nf =? 0)%nat eqn:E0; [apply Nat.eqb_eq in E0; contradiction|].
  unfold Qlt_bool. apply Qle_bool_iff in Hp. rewrite Hp. reflexivity.
Qed.

Lemma run_trials_pool (P nf : nat) (o : npfs) (w : world rng) (Zmat Zmat' : matrix)
    (sfs : list (list nat)) (s' : npfs * world rng) :
  parallel o = Some (S P) ->
  run_tasks randint (S P) (chunksize (n_bootstraps o) (S P)) (seq 0 (n_bootstraps o))
    (replicate (S P) (np_random w)) (o, w) = (inr sfs, s') ->
  assemble sfs 0 Zmat = inr Zmat' ->
  run_trials randint o Zmat nf (o, w) = (inr Zmat', s').
Proof.
  intros HP Hrun Hasm. unfold run_trials. rewrite HP.
  unfold bind at 1, pool_map. cbn [Nat.eqb]. unfold bind at 1, get_world.
  cbn [snd]. rewrite Hrun, Hasm. reflexivity.
Qed.

(** The monitored loop never stops with its first trial. *)
Lemma run_monitored_not_first (n : nat) (Zmat Zmat' : matrix) (p1_old : list float64)
    (o o' : npfs) (w w' : world rng) :
  run_monitored randint (seq 0 n) Zmat p1_old (o, w) = (inr Zmat', (o', w')) ->
  o' = o \/ exists b, (0 < b)%nat /\ o' = set_run_time b o.
Proof.
  destruct n as [|n]; [intros [= _ <- _]; left; reflexivity|].
  intros H. pose proof H as H0. cbn [seq run_monitored] in H0. unfold bind at 1 in H0.
  destruct (boot_iteration randint (o, w)) as [[e|sf] [o1 w1]] eqn:E1; [discriminate|].
  unfold bind at 1 in H0. unfold lift in H0.
  destruct (setitem Zmat sf 0) as [e|Z1] eqn:E2; [discriminate|]. clear H0.
  pose proof (boot_iteration_frame randint _ _ _ E1) as (Ho & _ & _).
  simpl in Ho. subst o1. cbn [seq] in H.
  rewrite (run_monitored_first randint _ _ _ _ _ _ _ E1 E2) in H.
  apply run_monitored_ok in H as (_ & _ & m & _ & _ & _ & [[-> _]|[Hpos ->]]);
    [left; reflexivity|].
  right. exists (1 + m - 1)%nat. split; [lia | reflexivity].
Qed.

(** What [__check_data] does, case by case. *)
Lemma check_data_cases (data_in labels_in : loc) (o : npfs) (w : world rng) :
  (exists e, __check_data data_in labels_in (o, w) = (inl e, (o, w)))
  \/ (exists d l, heap w !! data_in = Some (Ndarray d)
        /\ heap w !! labels_in = Some (Ndarray l) /\ len d = len l).
Proof.
  unfold __check_data, bind at 1, get_world, isinstance_ndarray. simpl.
  destruct (heap w !! data_in) as [[d|]|]; [|left; eexists; reflexivity ..].
  destruct (heap w !! labels_in) as [[l|]|]; [|left; eexists; reflexivity ..].
  destruct (len d =? len l)%nat eqn:E; simpl.
  - right. exists d, l. repeat split. apply Nat.eqb_eq, E.
  - left. eexists. reflexivity.
Qed.

(** ** The properties the specification claims *)

(** C1 (amended): when the monitor has stopped the loop after [m = b + 1]
    trials, the counts [z] are the row sums of the first [m] columns, the
    other columns being blank, and the features returned are those whose
    count exceeds the quantile of Binomial([n_bootstraps], p): the
    threshold is computed for [n_bootstraps] trials, not for [m]. *)
Theorem C1_threshold_after_early_stop (data labels : loc) (o o' : npfs)
    (w w' : world rng) (sel : list nat) (b : nat) :
  run_time o = None ->
  fit randint feast data labels (o, w) = (inr sel, (o', w')) ->
  run_time o' = Some b ->
  trials_run w w' (S b)
  /\ exists Zmat nf,
       Bernoulli_matrix o' = Some Zmat /\ n_features o' = Some nf
       /\ row_sums Zmat = map (fun row => sum_list (take (S b) row)) Zmat
       /\ sel = above_threshold (row_sums Zmat)
                  (binom_ppf (1 - alpha o) (n_bootstraps o) (null_probability o nf)) nf.
Proof.
  intros Hnone H Hb.
  apply fit_success in H
    as (d & l & f & Zmat & m & o2 & _ & _ & _ & _ & _ & _ & _ & Hm & Ht & Hblank
        & _ & _ & Hsel & -> & Ho).
  destruct Ho as [[-> _]|(HP & HE & Hpos & ->)]; simpl in Hb; [congruence|].
  injection Hb as <-. replace (S (m - 1)) with m by lia.
  split; [exact Ht|]. exists Zmat, (len_transpose d).
  split; [reflexivity|]. split; [simpl; rewrite len_transpose_scale; reflexivity|].
  split; [apply row_sums_blank, Hblank | exact Hsel].
Qed.

(** C2: the first trial of the monitored loop computes its frequency vector
    as the row sums divided by the loop index [b = 0]; every entry is [inf]
    or [nan], the test does not stop the loop, and the loop goes on with
    that vector as [p1_old]. *)
Theorem C2_first_trial_divides_by_zero (bs : list nat) (Zmat Z1 : matrix)
    (p1_old : list float64) (s s1 : npfs * world rng) (sf : list nat) :
  boot_iteration randint s = (inr sf, s1) ->
  setitem Zmat sf 0 = inr Z1 ->
  running_frequency Z1 0 = map (fun c => fdiv (of_nat c) (Fin 0)) (row_sums Z1)
  /\ Forall inf_or_nan (running_frequency Z1 0)
  /\ run_monitored randint (0%nat :: bs) Zmat p1_old s
     = run_monitored randint bs Z1 (running_frequency Z1 0) s1.
Proof.
  intros Hb Hs. split; [reflexivity|].
  split; [apply first_frequency_inf_or_nan|].
  exact (run_monitored_first randint bs Zmat Z1 p1_old s s1 sf Hb Hs).
Qed.


(** C4 (amended): in both modes the result of trial [x] goes to column [x]
    of [Z]: a parallel fit that returns has filled column [x] with the
    indicator of the [x]-th result of the pool. The workers are not seeded:
    each goes on from the random state it has from the parent. So a pool of
    one worker draws the samples of the sequential loop, and the parallel
    fit returns what the sequential fit returns, with the same matrix. *)
Theorem C4_pool_of_one_matches_sequential :
  (forall (data labels : loc) (o o' : npfs) (w w' : world rng) (sel : list nat),
     parallel o = None -> early_stopping o = false ->
     fit randint feast data labels (o, w) = (inr sel, (o', w')) ->
     exists o'' w'',
       fit randint feast data labels (with_parallel (Some 1%nat) o, w)
       = (inr sel, (o'', w''))
       /\ Bernoulli_matrix o'' = Bernoulli_matrix o')
  /\ (forall (P nf : nat) (o : npfs) (s s' : npfs * world rng) (Zmat : matrix),
        parallel o = Some P ->
        run_trials randint o (zeros nf (n_bootstraps o)) nf s = (inr Zmat, s') ->
        exists sfs,
          pool_map randint P (n_bootstraps o) s = (inr sfs, s')
          /\ length sfs = n_bootstraps o
          /\ forall i x sf, (i < nf)%nat -> sfs !! x = Some sf ->
               entry Zmat i x = indicator sf i).
Proof.
  split.
  - intros data labels o o' w w' sel HP HE H.
    apply fit_inv in H as (d & l & f & Zmat & o2 & Hd & Hl & Hlen & Hf & Hr & Hs).
    set (o1 := prepared o f d (heap w)) in *.
    set (w1 := set_heap (checked_heap (heap w) d l) w) in *.
    unfold run_trials in Hr.
    change (parallel o1) with (parallel o) in Hr.
    change (early_stopping o1) with (early_stopping o) in Hr.
    rewrite HP, HE in Hr.
    pose proof (run_all_frame randint _ _ _ _ _ Hr) as (Ho & _ & _).
    simpl in Ho. subst o2.
    apply (run_all_pool_of_one (Some 1%nat) _ _ (chunksize (n_bootstraps o) 1) _ _ _ _ _ _
             (np_random w1)) in Hr as (sfs & Hrun & Hasm).
    rewrite set_np_random_same in Hrun.
    apply select_inv in Hs as (nf & Hnf & Hnz & Hp & Hsel & Ho' & _).
    eexists _, _. split.
    + unfold fit, bind at 1.
      rewrite (bootstrap_phase_ok randint feast data labels
                 (with_parallel (Some 1%nat) o) w d l f Hd Hl Hlen Hf).
      change (prepared (with_parallel (Some 1%nat) o) f d (heap w))
        with (with_parallel (Some 1%nat) o1).
      change (n_bootstraps o1) with (n_bootstraps o) in Hrun, Hasm.
      change (n_bootstraps (with_parallel (Some 1%nat) o)) with (n_bootstraps o).
      fold w1.
      rewrite (run_trials_pool 0 (len_transpose d) (with_parallel (Some 1%nat) o1) w1
                 _ Zmat sfs _ eq_refl Hrun Hasm).
      rewrite (select_ok Zmat (with_parallel (Some 1%nat) o1) _ nf Hnf Hnz Hp).
      rewrite Hsel. reflexivity.
    + rewrite Ho'. reflexivity.
  - intros P nf o [o0 w0] [o1 w1] Zmat HP H. unfold run_trials in H. rewrite HP in H.
    apply bind_inr in H as (sfs & [o2 w2] & Hpool & Ha). apply lift_inr in Ha as [Ha ->].
    exists sfs. pose proof (pool_map_ok randint _ _ _ _ _ _ _ Hpool) as [Hlen _].
    split; [exact Hpool|]. split; [exact Hlen|].
    intros i x sf Hi Hx.
    pose proof (assemble_entry (n_bootstraps o) sfs 0 _ _ i x sf Ha
                  (zeros_row_length _ _)) as He.
    rewrite zeros_length, zeros_entry in He. simpl in He.
    apply He; [lia | exact Hi | exact Hx].
Qed.

(** C5 (amended): when the monitor stops the loop, in the iteration with
    index [b], the loop ends there: [b + 1] trials have been run, no more
    than [n_bootstraps] (all of them when the stop comes with the last
    trial), the columns from [b + 1] on are blank, and [run_time] has been
    assigned. *)
Theorem C5_early_stop_ends_loop (data labels : loc) (o o' : npfs) (w w' : world rng)
    (sel : list nat) (b : nat) :
  run_time o = None ->
  fit randint feast data labels (o, w) = (inr sel, (o', w')) ->
  run_time o' = Some b ->
  parallel o = None /\ early_stopping o = true
  /\ trials_run w w' (S b) /\ (S b <= n_bootstraps o)%nat
  /\ exists Zmat, Bernoulli_matrix o' = Some Zmat /\ blank_from (S b) Zmat.
Proof.
  intros Hnone H Hb.
  apply fit_success in H
    as (d & l & f & Zmat & m & o2 & _ & _ & _ & _ & _ & _ & _ & Hm & Ht & Hblank
        & _ & _ & _ & -> & Ho).
  destruct Ho as [[-> _]|(HP & HE & Hpos & ->)]; simpl in Hb; [congruence|].
  injection Hb as <-. replace (S (m - 1)) with m by lia.
  split; [exact HP|]. split; [exact HE|]. split; [exact Ht|]. split; [exact Hm|].
  exists Zmat. split; [reflexivity | exact Hblank].
Qed.


(** C7: with 10 features, [n_select = 3], 100 bootstraps, [alpha = 0.01]
    and [beta = 0], the null probability is 3/10 and the threshold is the
    0.99 quantile of Binomial(100, 3/10), which is 41; a call of [fit] that
    returns gives the features counted more than 41 times. *)
Theorem C7_threshold_example (fs : string) (par : option nat) (mi : Q) :
  let o := init fs 3 100 false (1 # 100) 0 par mi in
  (null_probability o 10 == 3 # 10)%Q
  /\ threshold o 10 = binom_ppf (99 # 100) 100 (3 # 10)
  /\ threshold o 10 = 41%nat
  /\ forall (data labels : loc) (w w' : world rng) (o' : npfs) (sel : list nat),
       fit randint feast data labels (o, w) = (inr sel, (o', w')) ->
       n_features o' = Some 10%nat ->
       exists Zmat, Bernoulli_matrix o' = Some Zmat
         /\ sel = above_threshold (row_sums Zmat) 41 10.
Proof.
  intros o.
  assert (H41 : threshold o 10 = 41%nat) by (vm_compute; reflexivity).
  split; [reflexivity|]. split; [vm_compute; reflexivity|]. split; [exact H41|].
  intros data labels w w' o' sel H Hnf.
  apply fit_success in H
    as (d & l & f & Zmat & m & o2 & _ & _ & _ & _ & _ & _ & _ & _ & _ & _
        & _ & _ & Hsel & -> & Ho).
  assert (Hnf' : len_transpose d = 10%nat).
  { destruct Ho as [[-> _]|(_ & _ & _ & ->)]; simpl in Hnf;
      rewrite len_transpose_scale in Hnf; congruence. }
  rewrite Hnf', H41 in Hsel. exists Zmat. split; [reflexivity | exact Hsel].
Qed.


(** C9 (amended): after every call of [fit] that returns, the object holds
    the selected features and the full Bernoulli matrix, [n_features] rows
    of [n_bootstraps] columns. A trial count ([run_time]) is assigned only
    by the early stop of the sequential monitored loop; in every other case
    [fit] leaves [run_time] as it found it. *)
Theorem C9_fit_retains_matrix (data labels : loc) (o o' : npfs) (w w' : world rng)
    (sel : list nat) :
  fit randint feast data labels (o, w) = (inr sel, (o', w')) ->
  selected_features o' = sel
  /\ (exists Zmat nf,
        Bernoulli_matrix o' = Some Zmat /\ n_features o' = Some nf
        /\ length Zmat = nf /\ row_length (n_bootstraps o') Zmat)
  /\ (run_time o' = run_time o
      \/ (parallel o = None /\ early_stopping o = true
          /\ exists b, (b < n_bootstraps o)%nat /\ run_time o' = Some b)).
Proof.
  intros H.
  apply fit_success in H
    as (d & l & f & Zmat & m & o2 & _ & _ & _ & _ & _ & Hrows & Hcols & Hm & _ & _
        & _ & _ & _ & -> & Ho).
  split; [reflexivity|].
  destruct Ho as [[-> _]|(HP & HE & Hpos & ->)]; simpl; rewrite len_transpose_scale.
  - split; [exists Zmat, (len_transpose d); auto|]. left. reflexivity.
  - split; [exists Zmat, (len_transpose d); auto|]. right.
    split; [exact HP|]. split; [exact HE|]. exists (m - 1)%nat. split; [lia|reflexivity].
Qed.

(** C10: [fit] writes to no array that existed when it was called, whatever
    its outcome: the heap only grows. When it returns, the arrays of the
    caller hold what they held, and [self.data] and [self.labels] are two
    new arrays, the float casts of the caller's. *)
Theorem C10_fit_leaves_caller_arrays_unchanged (data_in labels_in : loc) (o o' : npfs)
    (w w' : world rng) (r : exn + list nat) :
  fit randint feast data_in labels_in (o, w) = (r, (o', w')) ->
  (forall x a, heap w !! x = Some a -> heap w' !! x = Some a)
  /\ (forall sel, r = inr sel ->
      exists d l d' l',
        heap w' !! data_in = Some (Ndarray d) /\ heap w' !! labels_in = Some (Ndarray l)
        /\ data o' = Some d' /\ labels o' = Some l'
        /\ heap w !! d' = None /\ heap w !! l' = None
        /\ heap w' !! d' = Some (Ndarray (scale (Fin 1) d))
        /\ heap w' !! l' = Some (Ndarray (scale (Fin 1) l))).
Proof.
  intros H. pose proof (fit_heap data_in labels_in _ _ _ H) as Hsub.
  unfold heap_frame in Hsub. simpl in Hsub.
  assert (Hkeep : forall x a, heap w !! x = Some a -> heap w' !! x = Some a).
  { intros x a Hx. eapply lookup_weaken; eassumption. }
  split; [exact Hkeep|]. intros sel ->.
  apply fit_success in H
    as (d & l & f & Zmat & m & o2 & Hd & Hl & _ & _ & Hh & _ & _ & _ & _ & _
        & _ & _ & _ & -> & Ho).
  set (h1 := <[copy_loc (heap w) := Ndarray (scale (Fin 1) d)]> (heap w)).
  assert (Hne : copy_loc h1 <> copy_loc (heap w)).
  { intros Heq. pose proof (copy_loc_fresh h1) as Hfr.
    rewrite Heq in Hfr. unfold h1 in Hfr. rewrite lookup_insert_eq in Hfr.
    discriminate. }
  exists d, l, (copy_loc (heap w)), (copy_loc h1).
  split; [apply Hkeep, Hd|]. split; [apply Hkeep, Hl|].
  split; [destruct Ho as [[-> _]|(_ & _ & _ & ->)]; reflexivity|].
  split; [destruct Ho as [[-> _]|(_ & _ & _ & ->)]; reflexivity|].
  split; [apply copy_loc_fresh|].
  split.
  { pose proof (copy_loc_fresh h1) as Hfr. unfold h1 in Hfr.
    rewrite lookup_insert_ne in Hfr; [exact Hfr|]. intros Heq. apply Hne.
    symmetry. exact Heq. }
  rewrite Hh. unfold checked_heap. fold h1. split.
  - rewrite lookup_insert_ne by exact Hne. unfold h1. apply lookup_insert_eq.
  - apply lookup_insert_eq.
Qed.


(** ** Further properties *)

Lemma zeros_binary (nf n : nat) : binary (zeros nf n).
Proof. intros i j. rewrite zeros_entry. lia. Qed.

(** Every entry of the Bernoulli matrix that [fit] keeps is 0 or 1. *)
Theorem Bernoulli_matrix_binary (data_in labels_in : loc) (o o' : npfs)
    (w w' : world rng) (sel : list nat) (Zmat : matrix) :
  fit randint feast data_in labels_in (o, w) = (inr sel, (o', w')) ->
  Bernoulli_matrix o' = Some Zmat ->
  forall i j, entry Zmat i j = 0%nat \/ entry Zmat i j = 1%nat.
Proof.
  intros H HB.
  apply fit_inv in H as (d & l & f & Z0 & o2 & _ & _ & _ & _ & Hr & Hs).
  apply select_inv in Hs as (_ & _ & _ & _ & _ & -> & _).
  simpl in HB. injection HB as ->.
  assert (Hc : exists m, columns_written 0 m (zeros (len_transpose d) (n_bootstraps o)) Zmat).
  { unfold run_trials in Hr. destruct (parallel _) as [P|].
    - apply bind_inr in Hr as (sfs & s1 & _ & Ha). apply lift_inr in Ha as [Ha _].
      eexists. eapply assemble_columns, Ha.
    - destruct (early_stopping _).
      + apply run_monitored_ok in Hr as (_ & _ & m & _ & _ & Hc & _). eauto.
      + eexists. eapply run_all_columns, Hr. }
  destruct Hc as (m & _ & _ & _ & Hb).
  intros i j. pose proof (Hb (zeros_binary _ _) i j). lia.
Qed.

(** Arrays of different lengths: [fit] raises before anything else
    happens; no array is allocated, no trial is run, the object is as it
    was. *)
Theorem length_mismatch_fails_first (data_in labels_in : loc) (o : npfs)
    (w : world rng) (d l : ndarray) :
  heap w !! data_in = Some (Ndarray d) ->
  heap w !! labels_in = Some (Ndarray l) ->
  len d <> len l ->
  fit randint feast data_in labels_in (o, w)
  = (inl (Exception "Data and labels must be the same length"), (o, w)).
Proof.
  intros Hd Hl Hlen.
  unfold fit, bind at 1, bootstrap_phase, bind at 1, __check_data, bind at 1,
    get_world, isinstance_ndarray.
  simpl. rewrite Hd, Hl. apply Nat.eqb_neq in Hlen. rewrite Hlen. reflexivity.
Qed.

(** Without early stopping, sequential or parallel, a fit that returns has
    run exactly [n_bootstraps] trials. *)
Theorem all_trials_without_early_stop (data_in labels_in : loc) (o o' : npfs)
    (w w' : world rng) (sel : list nat) :
  fit randint feast data_in labels_in (o, w) = (inr sel, (o', w')) ->
  early_stopping o = false \/ parallel o <> None ->
  trials_run w w' (n_bootstraps o).
Proof.
  intros H Hmode.
  apply fit_success in H
    as (d & l & f & Zmat & m & o2 & _ & _ & _ & _ & _ & _ & _ & _ & Ht & _
        & _ & _ & _ & _ & Ho).
  destruct Ho as [[_ <-]|(HP & HE & _)]; [exact Ht|].
  destruct Hmode; congruence.
Qed.

End Claims.

(** ** Every outcome of [fit] *)

Section Outcomes.

Context {rng : Type}.
Variable randint : nat -> rng -> list nat * rng.
Variable feast : string -> option selector.

#[global] Instance results_kept_preorder : PreOrder (@results_kept rng).
Proof.
  split.
  - intros s. split; reflexivity.
  - intros s1 s2 s3 [H1 H2] [H3 H4]. split; congruence.
Qed.

#[global] Instance random_kept_preorder : PreOrder (@random_kept rng).
Proof.
  split.
  - intros s. reflexivity.
  - intros s1 s2 s3 H1 H2. unfold random_kept in *. congruence.
Qed.

Lemma trial_frame_results (s s' : npfs * world rng) : trial_frame s s' -> results_kept s s'.
Proof. intros (H & _ & _). split; rewrite H; reflexivity. Qed.

Lemma pool_frame_results (s s' : npfs * world rng) : pool_frame s s' -> results_kept s s'.
Proof. intros [H _]. apply trial_frame_results, H. Qed.

Lemma pool_frame_random (s s' : npfs * world rng) : pool_frame s s' -> random_kept s s'.
Proof. intros [_ H]. exact H. Qed.

Lemma set_run_time_results (b : nat) :
  preserves (@results_kept rng) (update_self (set_run_time b)).
Proof. apply preserves_update_self; try exact _. intros o w. split; reflexivity. Qed.

Lemma run_monitored_results (bs : list nat) (Zmat : matrix) (p1_old : list float64) :
  preserves (@results_kept rng) (run_monitored randint bs Zmat p1_old).
Proof.
  revert Zmat p1_old. induction bs as [|b bs IH]; intros Zmat p1_old; cbn [run_monitored];
    repeat first
      [ apply (preserves_weaken trial_frame results_kept _ trial_frame_results),
          boot_iteration_frame
      | apply IH | preserve_step
      | match goal with |- context [if ?c then _ else _] => destruct c end
      | apply set_run_time_results ].
Qed.

Lemma run_trials_results (o : npfs) (Zmat : matrix) (nf : nat) :
  preserves (@results_kept rng) (run_trials randint o Zmat nf).
Proof.
  unfold run_trials. destruct (parallel o) as [P|]; [|destruct (early_stopping o)].
  - repeat first
      [ apply (preserves_weaken pool_frame results_kept _ pool_frame_results), pool_map_frame
      | preserve_step ].
  - apply run_monitored_results.
  - apply (preserves_weaken trial_frame results_kept _ trial_frame_results), run_all_frame.
Qed.

(** A selection that raises has assigned nothing. *)
Lemma select_inl (Zmat : matrix) (s s' : npfs * world rng) (e : exn) :
  select Zmat s = (inl e, s') -> s' = s.
Proof.
  unfold select, bind, get_self, attr, update_self, ret, raise. simpl.
  destruct (n_features (fst s)) as [nf|]; simpl; [|intros [= _ <-]; reflexivity].
  destruct (nf =? 0)%nat; [intros [= _ <-]; reflexivity|].
  destruct (Qlt_bool _ _); [intros [= _ <-]; reflexivity | discriminate].
Qed.

(** The selection reads and writes the object only. *)
Lemma select_world (Zmat : matrix) (s s' : npfs * world rng) (r : exn + list nat) :
  select Zmat s = (r, s') -> snd s' = snd s.
Proof.
  unfold select, bind, get_self, attr, update_self, ret, raise. simpl.
  destruct (n_features (fst s)) as [nf|]; simpl; [|intros [= _ <-]; reflexivity].
  destruct (nf =? 0)%nat; [intros [= _ <-]; reflexivity|].
  destruct (Qlt_bool _ _); intros [= _ <-]; reflexivity.
Qed.

(** The three ways a call of [fit] goes: the validation raises, the lookup
    of the method raises, or the trials are started. *)
Lemma fit_cases (data_in labels_in : loc) (o : npfs) (w : world rng) :
  (exists e, fit randint feast data_in labels_in (o, w) = (inl e, (o, w)))
  \/ (exists d l,
        heap w !! data_in = Some (Ndarray d) /\ heap w !! labels_in = Some (Ndarray l)
        /\ len d = len l
        /\ ((feast (fs_method o) = None
             /\ fit randint feast data_in labels_in (o, w)
                = (inl (AttributeError (fs_method o)),
                   (o, set_heap (checked_heap (heap w) d l) w)))
            \/ (exists f, feast (fs_method o) = Some f
                /\ fit randint feast data_in labels_in (o, w)
                   = bind (run_trials randint (prepared o f d (heap w))
                             (zeros (len_transpose d) (n_bootstraps o)) (len_transpose d))
                       select
                       (prepared o f d (heap w),
                        set_heap (checked_heap (heap w) d l) w)))).
Proof.
  destruct (check_data_cases data_in labels_in o w) as [[e He]|(d & l & Hd & Hl & Hlen)].
  - left. exists e. unfold fit, bind at 1, bootstrap_phase, bind at 1.
    rewrite He. reflexivity.
  - right. exists d, l. repeat (split; [assumption|]).
    destruct (feast (fs_method o)) as [f|] eqn:Hf.
    + right. exists f. split; [reflexivity|]. unfold fit, bind at 1.
      rewrite (bootstrap_phase_ok randint feast data_in labels_in o w d l f Hd Hl Hlen Hf).
      reflexivity.
    + left. split; [reflexivity|].
      unfold fit, bind at 1, bootstrap_phase, bind at 1.
      rewrite (check_data_ok data_in labels_in o w d l Hd Hl Hlen).
      unfold bind at 1, get_self. simpl. unfold bind at 1, getattr_feast.
      rewrite Hf. reflexivity.
Qed.

Lemma increasing_filter_seq (f : nat -> bool) (a n : nat) :
  increasing (List.filter f (seq a n))
  /\ Forall (fun x => a <= x < a + n)%nat (List.filter f (seq a n)).
Proof.
  revert a. induction n as [|n IH]; intros a.
  - split; [intros i j x y _ Hi; destruct i; discriminate | constructor].
  - destruct (IH (S a)) as [Hinc Hb]. cbn [seq List.filter].
    assert (Hb' : Forall (fun x => a <= x < a + S n)%nat (List.filter f (seq (S a) n))).
    { eapply Forall_impl; [exact Hb|]. simpl. intros x Hx. lia. }
    destruct (f a); [|split; assumption]. split.
    + intros i j x y Hij Hi Hj. destruct j as [|j]; [lia|]. simpl in Hj.
      destruct i as [|i].
      * injection Hi as <-.
        pose proof (Forall_lookup_1 _ _ _ _ Hb Hj) as Hy. simpl in Hy. lia.
      * simpl in Hi. apply (Hinc i j x y); [lia | exact Hi | exact Hj].
    + constructor; [lia | exact Hb'].
Qed.

Lemma fmul_one (x : float64) : feq (fmul (Fin 1) x) x.
Proof. destruct x; simpl; auto. apply Qmult_1_l. Qed.

Lemma scale_one (a : ndarray) : array_eq (scale (Fin 1) a) a.
Proof.
  assert (Hrow : forall v, Forall2 feq (map (fmul (Fin 1)) v) v).
  { induction v as [|x v IH]; constructor; [apply fmul_one | exact IH]. }
  destruct a as [v|n rows]; simpl; [apply Hrow|]. split; [reflexivity|].
  induction rows as [|row rows IH]; constructor; [apply Hrow | exact IH].
Qed.

(** A call of [fit] that raises keeps the matrix and the selection. *)
Lemma fit_inl_results (data_in labels_in : loc) (s s' : npfs * world rng) (e : exn) :
  fit randint feast data_in labels_in s = (inl e, s') -> results_kept s s'.
Proof.
  destruct s as [o w], s' as [o' w']. intros H.
  destruct (fit_cases data_in labels_in o w)
    as [[e0 He]|(d & l & _ & _ & _ & [[_ He]|(f & _ & He)])];
    rewrite He in H.
  - simplify_eq. split; reflexivity.
  - simplify_eq. split; reflexivity.
  - unfold bind in H.
    destruct (run_trials _ _ _ _ _) as [[e1|Zmat] s2] eqn:Hr.
    + simplify_eq. apply run_trials_results in Hr. exact Hr.
    + apply select_inl in H. subst s2. apply run_trials_results in Hr. exact Hr.
Qed.


(** A call of [fit] that returns holds a selection of rows of its matrix. *)
Lemma fit_inr_results (data_in labels_in : loc) (o o' : npfs)
    (w w' : world rng) (sel : list nat) :
  fit randint feast data_in labels_in (o, w) = (inr sel, (o', w')) ->
  exists Zmat, Bernoulli_matrix o' = Some Zmat /\ selected_features o' = sel
    /\ Forall (fun i => i < length Zmat)%nat sel.
Proof.
  intros H.
  apply fit_success in H
    as (d & l & f & Zmat & k & o2 & _ & _ & _ & _ & _ & HZ & _ & _ & _ & _
        & _ & _ & Hsel & -> & _).
  exists Zmat. split; [reflexivity|]. split; [reflexivity|].
  rewrite HZ, Hsel.
  destruct (increasing_filter_seq
              (fun k => threshold o (len_transpose d) <? nth k (row_sums Zmat) 0)%nat
              0 (len_transpose d)) as [_ Hb].
  eapply Forall_impl; [exact Hb|]. simpl. intros x Hx. lia.
Qed.

(** ** Further properties of [fit] and [__check_data] *)

(** A call of [fit] that raises, at whatever point, assigns neither the
    Bernoulli matrix nor the selection: the object holds those of the last
    call that returned, or none. *)
Theorem fit_failure_keeps_results (data_in labels_in : loc) (o o' : npfs)
    (w w' : world rng) (e : exn) :
  fit randint feast data_in labels_in (o, w) = (inl e, (o', w')) ->
  Bernoulli_matrix o' = Bernoulli_matrix o
  /\ selected_features o' = selected_features o.
Proof.
  intros H. apply fit_inl_results in H as [HB Hs]. simpl in HB, Hs.
  split; [exact HB | exact Hs].
Qed.

(** The features that [fit] returns are in increasing order, each one an
    index below [n_features], and they are what the object keeps. *)
Theorem selection_increasing (data_in labels_in : loc) (o o' : npfs)
    (w w' : world rng) (sel : list nat) :
  fit randint feast data_in labels_in (o, w) = (inr sel, (o', w')) ->
  increasing sel
  /\ (exists nf, n_features o' = Some nf /\ Forall (fun k => k < nf)%nat sel)
  /\ selected_features o' = sel.
Proof.
  intros H.
  apply fit_success in H
    as (d & l & f & Zmat & m & o2 & _ & _ & _ & _ & _ & _ & _ & _ & _ & _
        & _ & _ & -> & -> & Ho).
  destruct (increasing_filter_seq
              (fun k => threshold o (len_transpose d) <? nth k (row_sums Zmat) 0)%nat
              0 (len_transpose d)) as [Hinc Hb].
  split; [exact Hinc|]. split; [|reflexivity].
  exists (len_transpose d). split.
  - destruct Ho as [[-> _]|(_ & _ & _ & ->)]; simpl; rewrite len_transpose_scale;
      reflexivity.
  - eapply Forall_impl; [exact Hb|]. simpl. intros x Hx. lia.
Qed.

(** In parallel mode the random state of the calling process is the same
    after [fit] as before, whether [fit] returns or raises: every sample
    is drawn in a worker, from the worker's copy of the state. *)
Theorem parallel_fit_keeps_random_state (data_in labels_in : loc) (o o' : npfs)
    (w w' : world rng) (r : exn + list nat) (P : nat) :
  parallel o = Some P ->
  fit randint feast data_in labels_in (o, w) = (r, (o', w')) ->
  np_random w' = np_random w.
Proof.
  intros HP H.
  destruct (fit_cases data_in labels_in o w)
    as [[e0 He]|(d & l & _ & _ & _ & [[_ He]|(f & _ & He)])];
    rewrite He in H.
  - simplify_eq. reflexivity.
  - simplify_eq. reflexivity.
  - unfold bind at 1 in H. unfold run_trials in H.
    replace (parallel (prepared o f d (heap w))) with (Some P) in H
      by (symmetry; exact HP).
    destruct (bind (pool_map randint P (n_bootstraps (prepared o f d (heap w)))) _ _)
      as [[e1|Zmat] s2] eqn:Hr.
    + simplify_eq.
      assert (Hk : preserves (@random_kept rng)
                (bind (pool_map randint P (n_bootstraps (prepared o f d (heap w))))
                   (fun sfs => lift (assemble sfs 0
                      (zeros (len_transpose d) (n_bootstraps o)))))).
      { repeat first
          [ apply (preserves_weaken pool_frame random_kept _ pool_frame_random),
              pool_map_frame
          | preserve_step ]. }
      apply Hk in Hr. exact Hr.
    + assert (Hk : preserves (@random_kept rng)
                (bind (pool_map randint P (n_bootstraps (prepared o f d (heap w))))
                   (fun sfs => lift (assemble sfs 0
                      (zeros (len_transpose d) (n_bootstraps o)))))).
      { repeat first
          [ apply (preserves_weaken pool_frame random_kept _ pool_frame_random),
              pool_map_frame
          | preserve_step ]. }
      apply Hk in Hr. apply select_world in H. simpl in H.
      unfold random_kept in Hr. simpl in Hr. rewrite <- Hr. f_equal. exact H.
Qed.

(** Data without a single feature: [fit] never returns. The trials are run
    all the same, and when every one of them completes the error is the
    division by [n_features = 0] of line 100. *)
Theorem no_features_never_returns (data_in labels_in : loc) (o o' : npfs)
    (w w' : world rng) (d : ndarray) (r : exn + list nat) :
  heap w !! data_in = Some (Ndarray d) ->
  len_transpose d = 0%nat ->
  fit randint feast data_in labels_in (o, w) = (r, (o', w')) ->
  exists e, r = inl e
    /\ forall Zmat s2,
         bootstrap_phase randint feast data_in labels_in (o, w) = (inr Zmat, s2) ->
         e = ZeroDivisionError /\ s2 = (o', w').
Proof.
  intros Hd Hz H. unfold fit, bind in H.
  destruct (bootstrap_phase randint feast data_in labels_in (o, w))
    as [[e|Zmat] [o2 w2]] eqn:Hb.
  - simplify_eq. exists e. split; [reflexivity|]. intros; discriminate.
  - pose proof (bootstrap_phase_inr _ _ _ _ _ _ _ _ Hb) as (d0 & l & f & Hd0 & Hl & Hlen & Hf).
    rewrite Hd in Hd0. injection Hd0 as <-.
    rewrite (bootstrap_phase_ok randint feast data_in labels_in o w d l f Hd Hl Hlen Hf)
      in Hb.
    apply (run_trials_ok randint (prepared o f d (heap w)) o2 (len_transpose d) Zmat
             (set_heap (checked_heap (heap w) d l) w) w2) in Hb
      as (_ & _ & _ & m & _ & _ & _ & Ho).
    assert (Hnf : n_features o2 = Some 0%nat).
    { destruct Ho as [[-> _]|(_ & _ & _ & ->)]; simpl; rewrite len_transpose_scale, Hz;
        reflexivity. }
    unfold select, bind, get_self, attr in H. simpl in H. rewrite Hnf in H. simpl in H.
    unfold raise in H. simplify_eq. exists ZeroDivisionError. split; [reflexivity|].
    intros Z1 s2 Hs. simplify_eq. split; reflexivity.
Qed.

(** An argument that is no array is rejected before anything else is
    looked at, the data first: the error names the data even when the
    labels are no array either, and the object and the heap are as they
    were. *)
Theorem non_array_rejected (data_in labels_in : loc) (o : npfs) (w : world rng) :
  isinstance_ndarray w data_in = None \/ isinstance_ndarray w labels_in = None ->
  fit randint feast data_in labels_in (o, w)
  = (inl (Exception (match isinstance_ndarray w data_in with
                     | Some _ => "Labels must be an numpy ndarray."
                     | None => "Data must be an numpy ndarray."
                     end)), (o, w)).
Proof.
  intros H.
  unfold fit, bind at 1, bootstrap_phase, bind at 1, __check_data, bind at 1, get_world.
  simpl.
  destruct (isinstance_ndarray w data_in) as [d|]; [|reflexivity].
  destruct H as [H|H]; [discriminate|]. rewrite H. reflexivity.
Qed.

(** What [__check_data] returns are two new arrays, apart from each other
    and from every array there was, with the shape and the entries of the
    arguments; nothing else changes. *)
Theorem check_data_copies (data_in labels_in d' l' : loc) (o o' : npfs)
    (w w' : world rng) :
  __check_data data_in labels_in (o, w) = (inr (d', l'), (o', w')) ->
  exists a b a' b',
    heap w !! data_in = Some (Ndarray a) /\ heap w !! labels_in = Some (Ndarray b)
    /\ heap w !! d' = None /\ heap w !! l' = None /\ d' <> l'
    /\ heap w' = <[l' := Ndarray b']> (<[d' := Ndarray a']> (heap w))
    /\ array_eq a' a /\ array_eq b' b
    /\ o' = o /\ np_random w' = np_random w /\ trace w' = trace w.
Proof.
  intros H. pose proof (check_data_inr _ _ _ _ _ H) as (a & b & Ha & Hb & Hlen).
  simpl in Ha, Hb.
  rewrite (check_data_ok data_in labels_in o w a b Ha Hb Hlen) in H.
  simplify_eq.
  set (h1 := <[copy_loc (heap w) := Ndarray (scale (Fin 1) a)]> (heap w)).
  assert (Hfr : h1 !! copy_loc h1 = None) by apply copy_loc_fresh.
  exists a, b, (scale (Fin 1) a), (scale (Fin 1) b).
  split; [exact Ha|]. split; [exact Hb|]. split; [apply copy_loc_fresh|].
  assert (Hne : copy_loc (heap w) <> copy_loc h1).
  { intros Heq. rewrite <- Heq in Hfr. unfold h1 in Hfr.
    rewrite lookup_insert_eq in Hfr. discriminate. }
  split.
  { unfold h1 in Hfr. rewrite lookup_insert_ne in Hfr by exact Hne. exact Hfr. }
  split; [exact Hne|]. split; [reflexivity|].
  split; [apply scale_one|]. split; [apply scale_one|]. repeat split.
Qed.

End Outcomes.

(** ** The convergence monitor, trial by trial *)

Section Monitor.

Context {rng : Type}.
Variable randint : nat -> rng -> list nat * rng.
Variable feast : string -> option selector.

(** The change from a vector without finite entries is [inf] or [nan]
    too, whatever the new vector. *)
Lemma mean_abs_change_from_inf_or_nan (p1 p1_old : list float64) :
  Forall inf_or_nan p1_old -> inf_or_nan (mean_abs_change p1 p1_old).
Proof.
  intros Hp. unfold mean_abs_change, fmean.
  set (l := zip_with _ p1 p1_old).
  assert (Hl : Forall inf_or_nan l).
  { subst l. clear -Hp. revert p1. induction Hp as [|y p1_old Hy Hp IH]; intros [|x xs];
      simpl; try constructor; [|apply IH].
    destruct Hy as [-> | ->]; destruct x; unfold inf_or_nan; simpl; auto. }
  destruct l as [|x l]; [right; reflexivity|].
  assert (Hs : inf_or_nan (fsum (x :: l))).
  { inversion Hl as [|? ? Hx Hl']; subst.
    apply (fsum_inf_or_nan (fadd (Fin 0) x) l); [|exact Hl'].
    destruct Hx as [-> | ->]; [left|right]; reflexivity. }
  destruct Hs as [-> | ->]; [left|right]; reflexivity.
Qed.

(** The monitored loop does not stop with its first trial nor with its
    second. *)
Lemma run_monitored_third (n : nat) (Zmat Zmat' : matrix) (p1_old : list float64)
    (o o' : npfs) (w w' : world rng) :
  run_monitored randint (seq 0 n) Zmat p1_old (o, w) = (inr Zmat', (o', w')) ->
  o' = o \/ exists b, (2 <= b)%nat /\ o' = set_run_time b o.
Proof.
  destruct n as [|n]; [intros H; injection H as _ <- _; left; reflexivity|].
  intros H. pose proof H as H0. cbn [seq run_monitored] in H0. unfold bind at 1 in H0.
  destruct (boot_iteration randint (o, w)) as [[e|sf] [o1 w1]] eqn:E1; [discriminate|].
  unfold bind at 1 in H0. unfold lift in H0.
  destruct (setitem Zmat sf 0) as [e|Z1] eqn:E2; [discriminate|]. clear H0.
  pose proof (boot_iteration_frame randint _ _ _ E1) as (Ho & _ & _).
  simpl in Ho. subst o1. cbn [seq] in H.
  rewrite (run_monitored_first randint _ _ _ _ _ _ _ E1 E2) in H.
  destruct n as [|n]; [injection H as _ <- _; left; reflexivity|].
  cbn [seq run_monitored] in H. unfold bind at 1 in H.
  destruct (boot_iteration randint (o, w1)) as [[e|sf2] [o2 w2]] eqn:E3; [discriminate|].
  pose proof (boot_iteration_frame randint _ _ _ E3) as (Ho & _ & _).
  simpl in Ho. subst o2.
  unfold bind at 1 in H. unfold lift in H.
  destruct (setitem Z1 sf2 1) as [e|Z2] eqn:E4; [discriminate|].
  simpl in H. unfold bind at 1, get_self in H. simpl in H.
  rewrite inf_or_nan_not_below in H
    by apply mean_abs_change_from_inf_or_nan, first_frequency_inf_or_nan.
  apply run_monitored_ok in H as (_ & _ & m & _ & _ & _ & [[-> _]|[Hpos ->]]);
    [left; reflexivity|].
  right. exists (2 + m - 1)%nat. split; [lia | reflexivity].
Qed.

(** The monitored loop does what the plain loop does in as many trials. *)
Lemma run_monitored_prefix (n x : nat) (Zmat Zmat' : matrix) (p1_old : list float64)
    (o o' : npfs) (w w' : world rng) :
  run_monitored randint (seq x n) Zmat p1_old (o, w) = (inr Zmat', (o', w')) ->
  exists m, (m <= n)%nat
    /\ run_all randint (seq x m) Zmat (o, w) = (inr Zmat', (o, w')).
Proof.
  revert x Zmat p1_old w. induction n as [|n IH]; intros x Zmat p1_old w H.
  - injection H as <- _ <-. exists 0%nat. split; [lia | reflexivity].
  - cbn [seq run_monitored] in H. unfold bind at 1 in H.
    destruct (boot_iteration randint (o, w)) as [[e|sf] [o1 w1]] eqn:E1; [discriminate|].
    pose proof (boot_iteration_frame randint _ _ _ E1) as (Ho & _ & _).
    simpl in Ho. subst o1.
    unfold bind at 1 in H. unfold lift in H.
    destruct (setitem Zmat sf x) as [e|Z1] eqn:E2; [discriminate|].
    simpl in H. unfold bind at 1, get_self in H. simpl in H.
    destruct (fltb _ _).
    + unfold bind, update_self, ret in H. simpl in H. injection H as <- _ <-.
      exists 1%nat. split; [lia|]. cbn [seq run_all]. unfold bind at 1. rewrite E1.
      unfold bind at 1. rewrite E2. reflexivity.
    + apply IH in H as (m & Hm & H). exists (S m). split; [lia|].
      cbn [seq run_all]. unfold bind at 1. rewrite E1.
      unfold bind at 1. rewrite E2. exact H.
Qed.

(** The monitored loop is the plain loop cut short: when it returns after
    [m] trials, the plain loop over the first [m] indices returns the same
    matrix, with the same samples drawn and the same calls made. *)
Theorem monitored_loop_is_plain_loop_cut_short (n x : nat) (Zmat Zmat' : matrix)
    (p1_old : list float64) (o o' : npfs) (w w' : world rng) :
  run_monitored randint (seq x n) Zmat p1_old (o, w) = (inr Zmat', (o', w')) ->
  exists m, (m <= n)%nat
    /\ run_all randint (seq x m) Zmat (o, w) = (inr Zmat', (o, w'))
    /\ trials_run w w' m
    /\ (o' = o \/ (0 < m)%nat /\ o' = set_run_time (x + m - 1) o).
Proof.
  intros H. pose proof (run_monitored_prefix _ _ _ _ _ _ _ _ _ H) as (m & Hm & Hrun).
  exists m. split; [exact Hm|]. split; [exact Hrun|].
  apply run_all_ok in Hrun. rewrite length_seq in Hrun.
  split; [exact Hrun|].
  apply run_monitored_ok in H as (_ & _ & m' & _ & Ht & _ & Ho).
  assert (m' = m) as -> by (destruct Ht, Hrun; lia).
  destruct Ho as [[-> _]|[Hpos ->]]; [left; reflexivity | right; split; [exact Hpos | reflexivity]].
Qed.

(** A stop is never recorded before the third trial: when [fit] assigns
    [run_time], it is a loop index [b >= 2], and [b + 1] trials have been
    run. The change after the first trial is [inf] or [nan], and so is the
    change after the second, which is measured from the frequencies of the
    first. *)
Theorem early_stop_not_before_third_trial (data_in labels_in : loc) (o o' : npfs)
    (w w' : world rng) (sel : list nat) :
  fit randint feast data_in labels_in (o, w) = (inr sel, (o', w')) ->
  run_time o' = run_time o
  \/ exists b, run_time o' = Some b /\ (2 <= b)%nat /\ trials_run w w' (S b).
Proof.
  intros H. pose proof (fit_inv randint feast _ _ _ _ _ _ _ H)
    as (d0 & l0 & f0 & Z0 & o3 & Hd0 & _ & _ & Hf0 & Hr & Hs).
  apply fit_success in H
    as (d & l & f & Zmat & m & o2 & Hd & _ & _ & Hf & _ & _ & _ & _ & Ht & _
        & _ & _ & _ & -> & Ho).
  rewrite Hd in Hd0. injection Hd0 as <-. rewrite Hf in Hf0. injection Hf0 as <-.
  destruct Ho as [[-> _]|(HP & HE & Hpos & ->)]; [left; reflexivity|].
  unfold run_trials in Hr.
  change (parallel (prepared o f d (heap w))) with (parallel o) in Hr.
  change (early_stopping (prepared o f d (heap w))) with (early_stopping o) in Hr.
  rewrite HP, HE in Hr.
  apply run_monitored_third in Hr as [Ho|(b & Hb & Ho)].
  - left. apply select_inv in Hs as (_ & _ & _ & _ & _ & Heq & _).
    apply (f_equal run_time) in Heq. simpl in Heq. simpl.
    rewrite Ho in Heq. simpl in Heq. exact Heq.
  - right. apply select_inv in Hs as (_ & _ & _ & _ & _ & Heq & _).
    apply (f_equal run_time) in Heq. simpl in Heq. rewrite Ho in Heq. simpl in Heq.
    injection Heq as Heq. exists (m - 1)%nat. split; [reflexivity|].
    split; [lia|]. replace (S (m - 1)) with m by lia. exact Ht.
Qed.

End Monitor.

(** ** The columns of the matrix *)

Section Columns.

Context {rng : Type}.
Variable randint : nat -> rng -> list nat * rng.
Variable feast : string -> option selector.

Lemma nth_mark_ne (b j : nat) (row : list nat) :
  j <> b -> nth j (<[b := 1%nat]> row) 0%nat = nth j row 0%nat.
Proof. intros Hne. rewrite !nth_lookup, list_lookup_insert_ne by congruence. reflexivity. Qed.

Lemma nth_mark_le (b : nat) (row : list nat) :
  (nth b (<[b := 1%nat]> row) 0 <= nth b row 0 + 1)%nat.
Proof.
  destruct (decide (b < length row)%nat) as [Hlt|Hge].
  - rewrite nth_lookup, list_lookup_insert_eq by exact Hlt.
    change (default 0%nat (Some 1%nat)) with 1%nat. lia.
  - rewrite list_insert_ge by lia. lia.
Qed.

Lemma col_sum_mark (b i j : nat) (Zmat : matrix) :
  (col_sum (alter (<[b := 1%nat]>) i Zmat) j
   <= col_sum Zmat j + if bool_decide (j = b) then 1 else 0)%nat.
Proof.
  unfold col_sum. revert i. induction Zmat as [|row Zmat IH]; intros i; [simpl; lia|].
  destruct i as [|i]; cbn [alter list_alter sum_list_with].
  - case_bool_decide as Hj.
    + subst j. pose proof (nth_mark_le b row). lia.
    + rewrite nth_mark_ne by exact Hj. lia.
  - specialize (IH i). lia.
Qed.

(** A write to column [b] puts at most [length sf] ones there. *)
Lemma setitem_col_sum (Zmat Zmat' : matrix) (sf : list nat) (b j : nat) :
  setitem Zmat sf b = inr Zmat' ->
  (col_sum Zmat' j <= col_sum Zmat j + if bool_decide (j = b) then length sf else 0)%nat.
Proof.
  intros [_ ->]%setitem_inv. induction sf as [|i sf IH]; simpl.
  - case_bool_decide; lia.
  - pose proof (col_sum_mark b i j (foldr (fun i M => alter (<[b := 1%nat]>) i M) Zmat sf)).
    case_bool_decide; lia.
Qed.

Lemma columns_filled_refl (k x : nat) (Zmat : matrix) : columns_filled k x 0 Zmat Zmat.
Proof. intros j. case_bool_decide; lia. Qed.

Lemma columns_filled_step (k x n : nat) (Zmat Z1 Zmat' : matrix) (sf : list nat) :
  setitem Zmat sf x = inr Z1 -> (length sf <= k)%nat ->
  columns_filled k (S x) n Z1 Zmat' -> columns_filled k x (S n) Zmat Zmat'.
Proof.
  intros H Hk Hc j. specialize (Hc j).
  pose proof (setitem_col_sum _ _ _ _ j H) as H1.
  repeat case_bool_decide; lia.
Qed.

Lemma columns_filled_weaken (k x n m : nat) (Zmat Zmat' : matrix) :
  (n <= m)%nat -> columns_filled k x n Zmat Zmat' -> columns_filled k x m Zmat Zmat'.
Proof. intros Hn Hc j. specialize (Hc j). repeat case_bool_decide; lia. Qed.

Lemma col_sum_zeros (nf n j : nat) : col_sum (zeros nf n) j = 0%nat.
Proof.
  unfold col_sum, zeros. induction nf as [|nf IH]; simpl; [reflexivity|].
  rewrite IH, nth_lookup. destruct (replicate n 0%nat !! j) as [v|] eqn:E; simpl; [|reflexivity].
  apply lookup_replicate in E as [-> _]. reflexivity.
Qed.

(** What a trial returns is what the method returned. *)
Lemma boot_iteration_result (o : npfs) (w : world rng) (s' : npfs * world rng)
    (sf : list nat) :
  boot_iteration randint (o, w) = (inr sf, s') ->
  exists f ds ls, method o = Some f /\ f ds ls (n_select o) = inr sf.
Proof.
  unfold boot_iteration. intros H.
  apply bind_inr in H as (o0 & s0 & Hm0 & H1); cbv beta in H1.
  unfold get_self in Hm0. simpl in Hm0. injection Hm0 as <- <-.
  apply bind_inr in H1 as (n & s1 & Hm1 & H2); cbv beta in H2.
  apply bind_inr in H2 as (idx & s2 & E & H3); cbv beta in H3.
  apply bind_inr in H3 as (d & s3 & Hm3 & H4); cbv beta in H4.
  apply bind_inr in H4 as (d0 & s4 & Hm4 & H5); cbv beta in H5.
  apply bind_inr in H5 as (data_sub & s5 & Hm5 & H6); cbv beta in H6.
  apply bind_inr in H6 as (l & s6 & Hm6 & H7); cbv beta in H7.
  apply bind_inr in H7 as (l0 & s7 & Hm7 & H8); cbv beta in H8.
  apply bind_inr in H8 as (labels_sub & s8 & Hm8 & H9); cbv beta in H9.
  apply bind_inr in H9 as (f & s9 & Hm9 & H10); cbv beta in H10.
  apply attr_inr in Hm9 as [Hf _].
  unfold call_method in H10.
  apply bind_inr in H10 as (u & s10 & Hm10 & H11); cbv beta in H11.
  apply lift_inr in H11 as [H11 _].
  exists f, data_sub, labels_sub. split; [|exact H11].
  destruct (method o); [congruence | discriminate].
Qed.

Section Bounded.

Variables (o : npfs) (k : nat).
Hypothesis Hk : forall w sf s', boot_iteration randint (o, w) = (inr sf, s') ->
  (length sf <= k)%nat.

Lemma run_all_filled (n x : nat) (Zmat Zmat' : matrix) (w : world rng)
    (s' : npfs * world rng) :
  run_all randint (seq x n) Zmat (o, w) = (inr Zmat', s') ->
  columns_filled k x n Zmat Zmat'.
Proof.
  revert x Zmat w. induction n as [|n IH]; intros x Zmat w H.
  - injection H as <- _. apply columns_filled_refl.
  - cbn [seq run_all] in H. unfold bind at 1 in H.
    destruct (boot_iteration randint (o, w)) as [[e|sf] [o1 w1]] eqn:E1; [discriminate|].
    pose proof (boot_iteration_frame randint _ _ _ E1) as (Ho & _ & _).
    simpl in Ho. subst o1. apply Hk in E1.
    unfold bind at 1 in H. unfold lift in H.
    destruct (setitem Zmat sf x) as [e|Z1] eqn:E2; [discriminate|].
    simpl in H. apply IH in H. eapply columns_filled_step; eassumption.
Qed.

Lemma run_tasks_bounded (P cs : nat) (xs : list nat) (rngs : list rng)
    (sfs : list (list nat)) (w : world rng) (s' : npfs * world rng) :
  run_tasks randint P cs xs rngs (o, w) = (inr sfs, s') ->
  Forall (fun sf => length sf <= k)%nat sfs.
Proof.
  revert rngs w sfs s'. induction xs as [|x xs IH]; intros rngs w sfs s' H.
  - injection H as <- _. constructor.
  - cbn [run_tasks] in H. unfold bind at 1, get_world in H. simpl in H.
    set (r := default (np_random w) (rngs !! _)) in H.
    unfold bind at 1, in_worker, __call__ in H.
    destruct (boot_iteration randint (o, set_np_random r w)) as [[e|sf] [o1 w1]] eqn:E1;
      [discriminate|].
    apply Hk in E1.
    unfold bind at 1 in H.
    destruct (run_tasks _ _ _ _ _ _) as [[e|sfs'] s2] eqn:E2; [discriminate|].
    injection H as <- _. apply IH in E2. constructor; assumption.
Qed.

Lemma assemble_filled (sfs : list (list nat)) (x : nat) (Zmat Zmat' : matrix) :
  Forall (fun sf => length sf <= k)%nat sfs ->
  assemble sfs x Zmat = inr Zmat' ->
  columns_filled k x (length sfs) Zmat Zmat'.
Proof.
  intros Hs. revert x Zmat. induction Hs as [|sf sfs Hsf Hs IH]; intros x Zmat H.
  - injection H as <-. apply columns_filled_refl.
  - cbn [assemble] in H. destruct (setitem Zmat sf x) as [e|Z1] eqn:E; [discriminate|].
    apply IH in H. simpl. eapply columns_filled_step; eassumption.
Qed.

Lemma run_trials_filled (nf : nat) (Zmat Zmat' : matrix) (w : world rng)
    (s' : npfs * world rng) :
  run_trials randint o Zmat nf (o, w) = (inr Zmat', s') ->
  exists n, columns_filled k 0 n Zmat Zmat'.
Proof.
  unfold run_trials. intros H. destruct (parallel o) as [P|].
  - apply bind_inr in H as (sfs & [o1 w1] & Hp & Ha). apply lift_inr in Ha as [Ha _].
    unfold pool_map in Hp. destruct (P =? 0)%nat; [discriminate|].
    unfold bind at 1, get_world in Hp. simpl in Hp.
    apply run_tasks_bounded in Hp. eexists. eapply assemble_filled; eassumption.
  - destruct (early_stopping o).
    + destruct s' as [o' w'].
      apply run_monitored_prefix in H as (m & _ & H).
      exists m. eapply run_all_filled, H.
    + eexists. eapply run_all_filled, H.
Qed.

End Bounded.

(** When the method returns no more features than it is asked for, no
    column of the Bernoulli matrix holds more than [n_select] ones. *)
Theorem column_sums_bounded (data_in labels_in : loc) (o o' : npfs)
    (w w' : world rng) (sel : list nat) (Zmat : matrix) :
  (forall f, feast (fs_method o) = Some f -> bounded_selector f) ->
  fit randint feast data_in labels_in (o, w) = (inr sel, (o', w')) ->
  Bernoulli_matrix o' = Some Zmat ->
  forall j, (col_sum Zmat j <= n_select o)%nat.
Proof.
  intros Hf H HB.
  apply fit_inv in H as (d & l & f & Z0 & o2 & _ & _ & _ & Hfs & Hr & Hs).
  apply select_inv in Hs as (_ & _ & _ & _ & _ & -> & _).
  simpl in HB. injection HB as ->.
  apply (run_trials_filled (prepared o f d (heap w)) (n_select o)) in Hr as [n Hc].
  - intros j. specialize (Hc j). rewrite col_sum_zeros in Hc.
    case_bool_decide; lia.
  - intros w0 sf s' Hb. apply boot_iteration_result in Hb as (f0 & ds & ls & Hm & Hb).
    simpl in Hm. injection Hm as <-. apply (Hf f Hfs) in Hb. exact Hb.
Qed.

End Columns.

(** ** When [fit] returns *)

Section Returns.

Context {rng : Type}.
Variable randint : nat -> rng -> list nat * rng.
Variable feast : string -> option selector.

Lemma len_scale (c : float64) (a : ndarray) : len (scale c a) = len a.
Proof. destruct a; simpl; apply length_map. Qed.

Lemma gather_in_range {A : Type} (l : list A) (idx : list nat) :
  Forall (fun i => i < length l)%nat idx ->
  exists xs, gather l idx = Some xs /\ length xs = length idx.
Proof.
  induction 1 as [|i idx Hi _ (xs & IH & Hlen)]; [exists []; split; reflexivity|].
  destruct (lookup_lt_is_Some_2 _ _ Hi) as [x Hx].
  exists (x :: xs). simpl. rewrite Hx, IH, Hlen. split; reflexivity.
Qed.

Lemma getitem_in_range (a : ndarray) (idx : list nat) :
  Forall (fun i => i < len a)%nat idx ->
  exists a', getitem a idx = inr a' /\ len a' = length idx
    /\ (length idx = len a -> len_transpose a' = len_transpose a).
Proof.
  intros H. destruct a as [v|n rows]; simpl in *;
    destruct (gather_in_range _ _ H) as (xs & -> & Hlen); eexists;
    (split; [reflexivity|]); simpl; split; auto; congruence.
Qed.

Lemma setitem_in_range (Zmat : matrix) (sf : list nat) (b : nat) :
  Forall (fun i => i < length Zmat)%nat sf ->
  exists Z1, setitem Zmat sf b = inr Z1 /\ length Z1 = length Zmat.
Proof.
  intros H. unfold setitem.
  assert (E : forallb (fun i => i <? length Zmat)%nat sf = true).
  { apply forallb_forall. intros i Hi. apply Nat.ltb_lt.
    rewrite List.Forall_forall in H. apply H, Hi. }
  rewrite E. eexists. split; [reflexivity|].
  eapply setitem_length. unfold setitem. rewrite E. reflexivity.
Qed.

Section Prepared.

Variables (o : npfs) (f : selector) (d' l' : ndarray) (ld ll : loc)
  (h : gmap loc pyobj).
Hypothesis Hn : n_observations o = Some (len d').
Hypothesis Hdata : data o = Some ld.
Hypothesis Hlab : labels o = Some ll.
Hypothesis Hm : method o = Some f.
Hypothesis Hhd : h !! ld = Some (Ndarray d').
Hypothesis Hhl : h !! ll = Some (Ndarray l').
Hypothesis Hlen : len l' = len d'.
Hypothesis Hrand : sampler_in_range randint.
Hypothesis Hf : answers_in_range f (n_select o) (len d') (len_transpose d').

(** On valid data, with a sampler and a method that keep to their ranges,
    a trial returns. *)
Lemma boot_iteration_returns (w : world rng) :
  heap w = h ->
  exists sf w', boot_iteration randint (o, w) = (inr sf, (o, w'))
    /\ heap w' = h /\ Forall (fun i => i < len_transpose d')%nat sf.
Proof.
  intros Hw.
  unfold boot_iteration, np_random_randint, call_method, deref, bind, get_self,
    get_world, update_world, attr, lift, ret, raise. simpl.
  rewrite Hn. simpl.
  destruct (Hrand (len d') (np_random w)) as [Hl Hr].
  destruct (randint (len d') (np_random w)) as [idx r]. simpl in *.
  rewrite Hdata. simpl. rewrite Hw, Hhd. simpl.
  destruct (getitem_in_range d' idx Hr) as (ds & -> & Hds & Hdt). simpl.
  rewrite Hlab. simpl. rewrite ?Hw, Hhl. simpl.
  assert (Hr' : Forall (fun i => i < len l')%nat idx) by (rewrite Hlen; exact Hr).
  destruct (getitem_in_range l' idx Hr') as (ls & -> & Hls & _). simpl.
  rewrite Hm. simpl.
  destruct (Hf ds ls) as (sf & -> & Hsf); [congruence | congruence | auto |].
  simpl. eexists _, _. split; [reflexivity|]. split; [exact Hw | exact Hsf].
Qed.

Lemma run_all_returns (bs : list nat) (Zmat : matrix) (w : world rng) :
  heap w = h -> length Zmat = len_transpose d' ->
  exists Zmat' w', run_all randint bs Zmat (o, w) = (inr Zmat', (o, w'))
    /\ heap w' = h.
Proof.
  revert Zmat w. induction bs as [|b bs IH]; intros Zmat w Hw HZ.
  - exists Zmat, w. split; [reflexivity | exact Hw].
  - destruct (boot_iteration_returns w Hw) as (sf & w1 & E1 & Hw1 & Hsf).
    rewrite <- HZ in Hsf.
    destruct (setitem_in_range Zmat sf b Hsf) as (Z1 & E2 & HZ1).
    destruct (IH Z1 w1 Hw1 ltac:(congruence)) as (Zmat' & w' & H & Hw').
    exists Zmat', w'. split; [|exact Hw'].
    cbn [run_all]. unfold bind at 1. rewrite E1. unfold bind at 1. rewrite E2.
    exact H.
Qed.

Lemma run_monitored_returns (bs : list nat) (Zmat : matrix) (p1_old : list float64)
    (w : world rng) :
  heap w = h -> length Zmat = len_transpose d' ->
  exists Zmat' o' w',
    run_monitored randint bs Zmat p1_old (o, w) = (inr Zmat', (o', w')).
Proof.
  revert Zmat p1_old w. induction bs as [|b bs IH]; intros Zmat p1_old w Hw HZ.
  - exists Zmat, o, w. reflexivity.
  - destruct (boot_iteration_returns w Hw) as (sf & w1 & E1 & Hw1 & Hsf).
    rewrite <- HZ in Hsf.
    destruct (setitem_in_range Zmat sf b Hsf) as (Z1 & E2 & HZ1).
    cbn [run_monitored]. unfold bind at 1. rewrite E1. unfold bind at 1. rewrite E2.
    simpl. unfold bind at 1, get_self. simpl.
    destruct (fltb _ _).
    + eexists _, _, _. reflexivity.
    + apply IH; [exact Hw1 | congruence].
Qed.

Lemma run_tasks_returns (P cs : nat) (xs : list nat) (rngs : list rng) (w : world rng) :
  heap w = h ->
  exists sfs w', run_tasks randint P cs xs rngs (o, w) = (inr sfs, (o, w'))
    /\ Forall (Forall (fun i => i < len_transpose d')%nat) sfs.
Proof.
  revert rngs w. induction xs as [|x xs IH]; intros rngs w Hw.
  - exists [], w. split; [reflexivity | constructor].
  - cbn [run_tasks]. unfold bind at 1, get_world. simpl.
    set (wid := (schedule w (x / cs) mod P)%nat).
    set (r := default (np_random w) (rngs !! wid)).
    destruct (boot_iteration_returns (set_np_random r w) Hw) as (sf & w1 & E1 & Hw1 & Hsf).
    unfold bind at 1, in_worker, __call__. rewrite E1.
    destruct (IH (<[wid := np_random w1]> rngs) (set_np_random (np_random w) w1) Hw1)
      as (sfs & w' & H & Hsfs).
    unfold bind at 1. rewrite H. eexists _, _. split; [reflexivity|].
    constructor; assumption.
Qed.

Lemma assemble_returns (sfs : list (list nat)) (x : nat) (Zmat : matrix) :
  Forall (Forall (fun i => i < length Zmat)%nat) sfs ->
  exists Zmat', assemble sfs x Zmat = inr Zmat'.
Proof.
  revert x Zmat. induction sfs as [|sf sfs IH]; intros x Zmat H.
  - exists Zmat. reflexivity.
  - inversion H as [|? ? Hsf Hsfs]; subst.
    destruct (setitem_in_range Zmat sf x Hsf) as (Z1 & E & HZ1).
    cbn [assemble]. rewrite E. apply IH. rewrite HZ1. exact Hsfs.
Qed.

Lemma run_trials_returns (Zmat : matrix) (nf : nat) (w : world rng) :
  heap w = h -> length Zmat = len_transpose d' -> parallel o <> Some 0%nat ->
  exists Zmat' o' w', run_trials randint o Zmat nf (o, w) = (inr Zmat', (o', w')).
Proof.
  intros Hw HZ HP. unfold run_trials. destruct (parallel o) as [P|].
  - unfold bind at 1, pool_map.
    destruct (P =? 0)%nat eqn:E0; [apply Nat.eqb_eq in E0; congruence|].
    unfold bind at 1, get_world. simpl.
    destruct (run_tasks_returns P (chunksize (n_bootstraps o) P) (seq 0 (n_bootstraps o))
                (replicate P (np_random w)) w Hw) as (sfs & w' & -> & Hsfs).
    rewrite <- HZ in Hsfs. destruct (assemble_returns sfs 0 Zmat Hsfs) as [Zmat' ->].
    eexists _, _, _. reflexivity.
  - destruct (early_stopping o).
    + apply run_monitored_returns; assumption.
    + destruct (run_all_returns (seq 0 (n_bootstraps o)) Zmat w Hw HZ)
        as (Zmat' & w' & -> & _).
      eexists _, _, _. reflexivity.
Qed.

End Prepared.

(** [fit] returns: on arrays of the same length with at least one feature,
    for a method that [feast] has, with [p <= 1] and a pool that is not
    empty, when the sampler and the method keep to their ranges. *)
Theorem fit_returns (data_in labels_in : loc) (o : npfs) (w : world rng)
    (d l : ndarray) (f : selector) :
  heap w !! data_in = Some (Ndarray d) ->
  heap w !! labels_in = Some (Ndarray l) ->
  len d = len l ->
  feast (fs_method o) = Some f ->
  sampler_in_range randint ->
  answers_in_range f (n_select o) (len d) (len_transpose d) ->
  len_transpose d <> 0%nat ->
  (null_probability o (len_transpose d) <= 1)%Q ->
  parallel o <> Some 0%nat ->
  exists sel o' w',
    fit randint feast data_in labels_in (o, w) = (inr sel, (o', w')).
Proof.
  intros Hd Hl Hlen Hfs Hrand Hf Hnz Hp HP.
  unfold fit, bind at 1.
  rewrite (bootstrap_phase_ok randint feast data_in labels_in o w d l f Hd Hl Hlen Hfs).
  set (o1 := prepared o f d (heap w)).
  set (w1 := set_heap (checked_heap (heap w) d l) w).
  set (h1 := <[copy_loc (heap w) := Ndarray (scale (Fin 1) d)]> (heap w)).
  assert (Hne : copy_loc h1 <> copy_loc (heap w)).
  { intros Heq. pose proof (copy_loc_fresh h1) as Hfr.
    rewrite Heq in Hfr. unfold h1 in Hfr. rewrite lookup_insert_eq in Hfr.
    discriminate. }
  assert (Hhd : checked_heap (heap w) d l !! copy_loc (heap w)
                = Some (Ndarray (scale (Fin 1) d))).
  { unfold checked_heap. fold h1. rewrite lookup_insert_ne by exact Hne.
    unfold h1. apply lookup_insert_eq. }
  assert (Hhl : checked_heap (heap w) d l !! copy_loc h1
                = Some (Ndarray (scale (Fin 1) l))).
  { unfold checked_heap. fold h1. apply lookup_insert_eq. }
  assert (Hlen' : len (scale (Fin 1) l) = len (scale (Fin 1) d)).
  { rewrite !len_scale. symmetry. exact Hlen. }
  assert (Hf' : answers_in_range f (n_select o1) (len (scale (Fin 1) d))
                  (len_transpose (scale (Fin 1) d))).
  { rewrite len_scale, len_transpose_scale. exact Hf. }
  assert (HZ : length (zeros (len_transpose d) (n_bootstraps o))
               = len_transpose (scale (Fin 1) d)).
  { rewrite len_transpose_scale. apply zeros_length. }
  destruct (run_trials_returns o1 f (scale (Fin 1) d) (scale (Fin 1) l)
              (copy_loc (heap w)) (copy_loc h1) (checked_heap (heap w) d l)
              eq_refl eq_refl eq_refl eq_refl Hhd Hhl Hlen' Hrand Hf'
              (zeros (len_transpose d) (n_bootstraps o)) (len_transpose d) w1
              eq_refl HZ HP)
    as (Zmat & o2 & w2 & Hr).
  rewrite Hr.
    pose proof Hr as Hr'.
    apply (run_trials_ok randint o1 o2 (len_transpose d) Zmat w1 w2) in Hr'
      as (_ & _ & _ & m & _ & _ & _ & Ho).
    assert (Hcfg : n_features o2 = Some (len_transpose d)
                   /\ null_probability o2 = null_probability o).
    { destruct Ho as [[-> _]|(_ & _ & _ & ->)]; simpl; rewrite len_transpose_scale;
        split; reflexivity. }
    destruct Hcfg as [Hnf Hnp].
    rewrite (select_ok Zmat o2 w2 (len_transpose d) Hnf Hnz)
      by (rewrite Hnp; exact Hp).
    eexists _, _, _. reflexivity.
Qed.

End Returns.

(** ** What the trials log *)

Section Log.

Context {rng : Type}.
Variable randint : nat -> rng -> list nat * rng.
Variable feast : string -> option selector.

Lemma trials_logged_refl (n k : nat) (s : npfs * world rng) :
  trials_logged randint n k s s.
Proof. exists []. split; [rewrite app_nil_r; reflexivity | constructor]. Qed.

Lemma trials_logged_trans (n k : nat) (s1 s2 s3 : npfs * world rng) :
  trials_logged randint n k s1 s2 -> trials_logged randint n k s2 s3 ->
  trials_logged randint n k s1 s3.
Proof.
  intros (t1 & H1 & F1) (t2 & H2 & F2). exists (t1 ++ t2). split.
  - rewrite H2, H1, app_assoc. reflexivity.
  - apply Forall_app. split; assumption.
Qed.

Lemma trials_logged_same (n k : nat) (s s' : npfs * world rng) :
  trace (snd s') = trace (snd s) -> trials_logged randint n k s s'.
Proof. intros H. exists []. split; [rewrite app_nil_r; exact H | constructor]. Qed.

(** A trial, however it ends, logs a sample of the size of the data and
    at most one call, for [n_select] features. *)
Lemma boot_iteration_logged (o : npfs) (w : world rng) (n : nat)
    (r : exn + list nat) (s' : npfs * world rng) :
  n_observations o = Some n ->
  boot_iteration randint (o, w) = (r, s') ->
  trials_logged randint n (n_select o) (o, w) s'.
Proof.
  intros Hn.
  unfold boot_iteration, np_random_randint, call_method, deref, bind, get_self,
    get_world, update_world, attr, lift, ret, raise. simpl.
  rewrite Hn. simpl.
  destruct (randint n (np_random w)) as [idx r0] eqn:E. simpl.
  assert (Hs : trial_event randint n (n_select o) (EvSample idx)).
  { exists (np_random w). rewrite E. reflexivity. }
  assert (H1 : forall (x : exn + list nat) (w1 : world rng),
             trace w1 = trace w ++ [EvSample idx] ->
             (x, (o, w1)) = (r, s') -> trials_logged randint n (n_select o) (o, w) s').
  { intros x w1 Hw1 Heq. simplify_eq. exists [EvSample idx].
    split; [exact Hw1 | repeat constructor; exact Hs]. }
  assert (H2 : forall (x : exn + list nat) (w1 : world rng),
             trace w1 = (trace w ++ [EvSample idx]) ++ [EvSelect (n_select o)] ->
             (x, (o, w1)) = (r, s') -> trials_logged randint n (n_select o) (o, w) s').
  { intros x w1 Hw1 Heq. simplify_eq. exists [EvSample idx; EvSelect (n_select o)].
    split; [simpl; rewrite Hw1, <- app_assoc; reflexivity|].
    repeat constructor. exact Hs. }
  destruct (data o) as [dl|]; [|apply H1; reflexivity]. simpl.
  destruct (heap w !! dl) as [[d|]|]; [|apply H1; reflexivity ..]. simpl.
  destruct (getitem d idx) as [e|data_sub]; [apply H1; reflexivity|]. simpl.
  destruct (labels o) as [ll|]; [|apply H1; reflexivity]. simpl.
  destruct (heap w !! ll) as [[l|]|]; [|apply H1; reflexivity ..]. simpl.
  destruct (getitem l idx) as [e|labels_sub]; [apply H1; reflexivity|]. simpl.
  destruct (method o) as [f|]; [|apply H1; reflexivity]. simpl.
  destruct (f data_sub labels_sub (n_select o)); apply H2; reflexivity.
Qed.

Section Object.

Variables (o : npfs) (n : nat).
Hypothesis Hn : n_observations o = Some n.

Lemma run_all_logged (bs : list nat) (Zmat : matrix) (w : world rng)
    (r : exn + matrix) (s' : npfs * world rng) :
  run_all randint bs Zmat (o, w) = (r, s') ->
  trials_logged randint n (n_select o) (o, w) s'.
Proof.
  revert Zmat w. induction bs as [|b bs IH]; intros Zmat w H.
  - injection H as _ <-. apply trials_logged_refl.
  - cbn [run_all] in H. unfold bind at 1 in H.
    destruct (boot_iteration randint (o, w)) as [res [o1 w1]] eqn:E1.
    pose proof (boot_iteration_frame randint _ _ _ E1) as (Ho & _ & _).
    simpl in Ho. subst o1. apply (boot_iteration_logged o w n _ _ Hn) in E1.
    destruct res as [e|sf]; [injection H as _ <-; exact E1|].
    unfold bind at 1 in H. unfold lift in H.
    destruct (setitem Zmat sf b) as [e|Z1]; simpl in H;
      [injection H as _ <-; exact E1|].
    eapply trials_logged_trans; [exact E1 | eapply IH, H].
Qed.

Lemma run_monitored_logged (bs : list nat) (Zmat : matrix) (p1_old : list float64)
    (w : world rng) (r : exn + matrix) (s' : npfs * world rng) :
  run_monitored randint bs Zmat p1_old (o, w) = (r, s') ->
  trials_logged randint n (n_select o) (o, w) s'.
Proof.
  revert Zmat p1_old w. induction bs as [|b bs IH]; intros Zmat p1_old w H.
  - injection H as _ <-. apply trials_logged_refl.
  - cbn [run_monitored] in H. unfold bind at 1 in H.
    destruct (boot_iteration randint (o, w)) as [res [o1 w1]] eqn:E1.
    pose proof (boot_iteration_frame randint _ _ _ E1) as (Ho & _ & _).
    simpl in Ho. subst o1. apply (boot_iteration_logged o w n _ _ Hn) in E1.
    destruct res as [e|sf]; [injection H as _ <-; exact E1|].
    unfold bind at 1 in H. unfold lift in H.
    destruct (setitem Zmat sf b) as [e|Z1]; simpl in H;
      [injection H as _ <-; exact E1|].
    unfold bind at 1, get_self in H. simpl in H.
    destruct (fltb _ _).
    + unfold bind, update_self, ret in H. simpl in H. injection H as _ <-.
      destruct E1 as (t & Ht & Ft). exists t. split; [exact Ht | exact Ft].
    + eapply trials_logged_trans; [exact E1 | eapply IH, H].
Qed.

Lemma run_tasks_logged (P cs : nat) (xs : list nat) (rngs : list rng) (w : world rng)
    (r : exn + list (list nat)) (s' : npfs * world rng) :
  run_tasks randint P cs xs rngs (o, w) = (r, s') ->
  trials_logged randint n (n_select o) (o, w) s'.
Proof.
  revert rngs w r s'. induction xs as [|x xs IH]; intros rngs w r s' H.
  - injection H as _ <-. apply trials_logged_refl.
  - cbn [run_tasks] in H. unfold bind at 1, get_world in H. simpl in H.
    set (r0 := default (np_random w) (rngs !! _)) in H.
    unfold bind at 1, in_worker, __call__ in H.
    destruct (boot_iteration randint (o, set_np_random r0 w)) as [res [o1 w1]] eqn:E1.
    apply (boot_iteration_logged o _ n _ _ Hn) in E1.
    assert (E1' : trials_logged randint n (n_select o) (o, w)
                    (o, set_np_random (np_random w) w1)).
    { destruct E1 as (t & Ht & Ft). exists t. split; [exact Ht | exact Ft]. }
    destruct res as [e|sf]; [injection H as _ <-; exact E1'|].
    unfold bind at 1 in H.
    destruct (run_tasks _ _ _ _ _ _) as [res2 s2] eqn:E2.
    apply IH in E2.
    assert (s' = s2) as ->.
    { destruct res2; injection H as _ <-; reflexivity. }
    eapply trials_logged_trans; eassumption.
Qed.

Lemma run_trials_logged (Zmat : matrix) (nf : nat) (w : world rng)
    (r : exn + matrix) (s' : npfs * world rng) :
  run_trials randint o Zmat nf (o, w) = (r, s') ->
  trials_logged randint n (n_select o) (o, w) s'.
Proof.
  unfold run_trials. intros H. destruct (parallel o) as [P|].
  - unfold bind at 1, pool_map in H. destruct (P =? 0)%nat.
    + injection H as _ <-. apply trials_logged_refl.
    + unfold bind at 1, get_world in H. simpl in H.
      destruct (run_tasks _ _ _ _ _ _) as [res s2] eqn:E.
      apply run_tasks_logged in E.
      assert (s' = s2) as ->.
      { destruct res as [e|sfs]; [injection H as _ <-; reflexivity|].
        unfold lift in H. destruct (assemble _ _ _); injection H as _ <-; reflexivity. }
      exact E.
  - destruct (early_stopping o);
      [eapply run_monitored_logged | eapply run_all_logged]; exact H.
Qed.

End Object.

(** Without the convergence monitor, the trials leave the object as it
    is, however they end. *)
Lemma run_trials_object (o o0 o' : npfs) (Zmat : matrix) (nf : nat) (w w' : world rng)
    (r : exn + matrix) :
  early_stopping o = false \/ parallel o <> None ->
  run_trials randint o Zmat nf (o0, w) = (r, (o', w')) -> o' = o0.
Proof.
  intros Hmode H. unfold run_trials in H. destruct (parallel o) as [P|].
  - assert (Hk : preserves (@trial_frame rng)
              (bind (pool_map randint P (n_bootstraps o))
                 (fun sfs => lift (assemble sfs 0 Zmat)))).
    { repeat first
        [ apply (preserves_weaken pool_frame trial_frame _ (fun s s' H => proj1 H)),
            pool_map_frame
        | preserve_step ]. }
    apply Hk in H as (Ho & _). exact Ho.
  - destruct Hmode as [HE|HP]; [|congruence]. rewrite HE in H.
    apply run_all_frame in H as (Ho & _). exact Ho.
Qed.

(** ** The log and the trial count *)

(** Whatever the mode and however [fit] ends, every sample it has drawn
    was asked of [np.random.randint] for the number of observations of the
    data, and every call of the method asked for [n_select] features. *)
Theorem samples_of_data_size (data_in labels_in : loc) (o o' : npfs)
    (w w' : world rng) (r : exn + list nat) (d : ndarray) :
  heap w !! data_in = Some (Ndarray d) ->
  fit randint feast data_in labels_in (o, w) = (r, (o', w')) ->
  exists t, trace w' = trace w ++ t
    /\ Forall (trial_event randint (len d) (n_select o)) t.
Proof.
  intros Hd H.
  destruct (fit_cases randint feast data_in labels_in o w)
    as [[e0 He]|(d0 & l & Hd0 & _ & _ & [[_ He]|(f & _ & He)])];
    rewrite He in H.
  - simplify_eq. exists []. split; [rewrite app_nil_r; reflexivity | constructor].
  - simplify_eq. exists []. split; [rewrite app_nil_r; reflexivity | constructor].
  - rewrite Hd in Hd0. injection Hd0 as <-.
    unfold bind in H.
    destruct (run_trials _ _ _ _ _) as [res [o2 w2]] eqn:Hr.
    apply (run_trials_logged (prepared o f d (heap w)) (len d)) in Hr;
      [|simpl; rewrite len_scale; reflexivity].
    assert (Hw : trace w' = trace w2).
    { destruct res as [e|Zmat]; [simplify_eq; reflexivity|].
      apply select_world in H. simpl in H. rewrite H. reflexivity. }
    destruct Hr as (t & Ht & Ft). exists t. rewrite Hw. split; [exact Ht | exact Ft].
Qed.

(** [run_time] is assigned by the convergence monitor and by nothing
    else: without early stopping, and in parallel mode, a call of [fit]
    leaves it as it was, whether it returns or raises. *)
Theorem run_time_assigned_by_monitor_only (data_in labels_in : loc) (o o' : npfs)
    (w w' : world rng) (r : exn + list nat) :
  early_stopping o = false \/ parallel o <> None ->
  fit randint feast data_in labels_in (o, w) = (r, (o', w')) ->
  run_time o' = run_time o.
Proof.
  intros Hmode H.
  destruct (fit_cases randint feast data_in labels_in o w)
    as [[e0 He]|(d & l & _ & _ & _ & [[_ He]|(f & _ & He)])];
    rewrite He in H.
  - simplify_eq. reflexivity.
  - simplify_eq. reflexivity.
  - unfold bind in H.
    destruct (run_trials _ _ _ _ _) as [res [o2 w2]] eqn:Hr.
    apply run_trials_object in Hr; [|exact Hmode]. subst o2.
    destruct res as [e|Zmat]; [simplify_eq; reflexivity|].
    destruct r as [e|sel].
    + apply select_inl in H. simplify_eq. reflexivity.
    + apply select_inv in H as (_ & _ & _ & _ & _ & -> & _). reflexivity.
Qed.

End Log.

(** ** The random state and the state of the object *)

Section Random.

Context {rng : Type}.
Variable randint : nat -> rng -> list nat * rng.
Variable feast : string -> option selector.

(** A trial that returns has asked [randint] once. *)
Lemma boot_iteration_random (o : npfs) (w : world rng) (n : nat) (sf : list nat)
    (s' : npfs * world rng) :
  n_observations o = Some n ->
  boot_iteration randint (o, w) = (inr sf, s') ->
  np_random (snd s') = snd (randint n (np_random w)).
Proof.
  intros Hn.
  unfold boot_iteration, np_random_randint, call_method, deref, bind, get_self,
    get_world, update_world, attr, lift, ret, raise. simpl.
  rewrite Hn. simpl.
  destruct (randint n (np_random w)) as [idx r0]. simpl.
  destruct (data o) as [dl|]; [|discriminate]. simpl.
  destruct (heap w !! dl) as [[d|]|]; [|discriminate ..]. simpl.
  destruct (getitem d idx) as [e|data_sub]; [discriminate|]. simpl.
  destruct (labels o) as [ll|]; [|discriminate]. simpl.
  destruct (heap w !! ll) as [[l|]|]; [|discriminate ..]. simpl.
  destruct (getitem l idx) as [e|labels_sub]; [discriminate|]. simpl.
  destruct (method o) as [f|]; [|discriminate]. simpl.
  destruct (f data_sub labels_sub (n_select o)); [discriminate|].
  intros H. injection H as _ <-. reflexivity.
Qed.

Lemma run_all_random (o : npfs) (n : nat) (bs : list nat) (Zmat Zmat' : matrix)
    (w : world rng) (s' : npfs * world rng) :
  n_observations o = Some n ->
  run_all randint bs Zmat (o, w) = (inr Zmat', s') ->
  np_random (snd s') = draws randint n (length bs) (np_random w).
Proof.
  intros Hn. revert Zmat w. induction bs as [|b bs IH]; intros Zmat w H.
  - injection H as _ <-. reflexivity.
  - cbn [run_all] in H. unfold bind at 1 in H.
    destruct (boot_iteration randint (o, w)) as [[e|sf] [o1 w1]] eqn:E1; [discriminate|].
    pose proof (boot_iteration_frame randint _ _ _ E1) as (Ho & _ & _).
    simpl in Ho. subst o1.
    apply (boot_iteration_random o w n sf _ Hn) in E1. simpl in E1.
    unfold bind at 1 in H. unfold lift in H.
    destruct (setitem Zmat sf b) as [e|Z1]; [discriminate|].
    simpl in H. apply IH in H. rewrite H, E1. reflexivity.
Qed.

(** In sequential mode every trial draws from the random state of the
    caller: after a call of [fit] that returns, with [m] trials run, the
    state is the one that [m] calls of [np.random.randint] for
    [len(data)] indices lead to. *)
Theorem sequential_fit_advances_random_state (data_in labels_in : loc) (o o' : npfs)
    (w w' : world rng) (sel : list nat) (d : ndarray) :
  parallel o = None ->
  heap w !! data_in = Some (Ndarray d) ->
  fit randint feast data_in labels_in (o, w) = (inr sel, (o', w')) ->
  exists m, (m <= n_bootstraps o)%nat /\ trials_run w w' m
    /\ np_random w' = draws randint (len d) m (np_random w).
Proof.
  intros HP Hd H.
  apply fit_inv in H as (d0 & l & f & Zmat & o2 & Hd0 & _ & _ & _ & Hr & Hs).
  rewrite Hd in Hd0. injection Hd0 as <-.
  apply select_inv in Hs as (_ & _ & _ & _ & _ & _ & _).
  set (o1 := prepared o f d (heap w)) in *.
  assert (Hn : n_observations o1 = Some (len d)).
  { simpl. rewrite len_scale. reflexivity. }
  assert (Hrun : exists m, (m <= n_bootstraps o)%nat
            /\ run_all randint (seq 0 m) (zeros (len_transpose d) (n_bootstraps o))
                 (o1, set_heap (checked_heap (heap w) d l) w) = (inr Zmat, (o1, w'))).
  { unfold run_trials in Hr.
    change (parallel o1) with (parallel o) in Hr. rewrite HP in Hr.
    destruct (early_stopping o1).
    - apply run_monitored_prefix in Hr. exact Hr.
    - pose proof (run_all_frame randint _ _ _ _ _ Hr) as (Ho & _ & _).
      simpl in Ho. subst o2. exists (n_bootstraps o). split; [lia | exact Hr]. }
  destruct Hrun as (m & Hm & Hrun). exists m. split; [exact Hm|].
  pose proof (run_all_random o1 (len d) _ _ _ _ _ Hn Hrun) as Hrand.
  apply run_all_ok in Hrun. rewrite length_seq in Hrun, Hrand.
  split; [exact Hrun | exact Hrand].
Qed.

End Random.

Section Refit.

Context {rng : Type}.
Variable randint : nat -> rng -> list nat * rng.
Variable feast : string -> option selector.

Variables (rt : option nat) (B : option matrix) (sel : list nat).

(** The validation does not look at the object. *)
Lemma check_data_any_object (data_in labels_in : loc) (o o0 : npfs) (w : world rng)
    (e : exn) :
  __check_data data_in labels_in (o, w) = (inl e, (o, w)) ->
  __check_data data_in labels_in (o0, w) = (inl e, (o0, w)).
Proof.
  unfold __check_data, alloc, bind, get_world, update_world, ret, raise,
    isinstance_ndarray. simpl.
  destruct (heap w !! data_in) as [[d|]|];
    [|intros H; simplify_eq; reflexivity ..].
  destruct (heap w !! labels_in) as [[l|]|];
    [|intros H; simplify_eq; reflexivity ..].
  destruct (negb _); simpl; intros H; simplify_eq; reflexivity.
Qed.

(** A trial reads none of the results of an earlier call. *)
Lemma boot_iteration_with_results (o : npfs) (w : world rng) :
  boot_iteration randint (with_results rt B sel o, w)
  = (fst (boot_iteration randint (o, w)),
     (with_results rt B sel o, snd (snd (boot_iteration randint (o, w))))).
Proof.
  unfold boot_iteration, np_random_randint, call_method, deref, bind, get_self,
    get_world, update_world, attr, lift, ret, raise. simpl.
  destruct (n_observations o) as [n|]; [|reflexivity]. simpl.
  destruct (randint n (np_random w)) as [idx r]. simpl.
  destruct (data o) as [dl|]; [|reflexivity]. simpl.
  destruct (heap w !! dl) as [[d|]|]; [|reflexivity ..]. simpl.
  destruct (getitem d idx) as [e|data_sub]; [reflexivity|]. simpl.
  destruct (labels o) as [ll|]; [|reflexivity]. simpl.
  destruct (heap w !! ll) as [[l|]|]; [|reflexivity ..]. simpl.
  destruct (getitem l idx) as [e|labels_sub]; [reflexivity|]. simpl.
  destruct (method o) as [f|]; [|reflexivity]. simpl.
  destruct (f data_sub labels_sub (n_select o)); reflexivity.
Qed.

Lemma run_all_cons (b : nat) (bs : list nat) (Zmat : matrix) (s : npfs * world rng) :
  run_all randint (b :: bs) Zmat s
  = match boot_iteration randint s with
    | (inl e, s1) => (inl e, s1)
    | (inr sf, s1) =>
        match setitem Zmat sf b with
        | inl e => (inl e, s1)
        | inr Z1 => run_all randint bs Z1 s1
        end
    end.
Proof.
  cbn [run_all]. unfold bind, lift.
  destruct (boot_iteration randint s) as [[e|sf] s1]; [reflexivity|].
  destruct (setitem Zmat sf b); reflexivity.
Qed.

Lemma run_monitored_cons (b : nat) (bs : list nat) (Zmat : matrix)
    (p1_old : list float64) (s : npfs * world rng) :
  run_monitored randint (b :: bs) Zmat p1_old s
  = match boot_iteration randint s with
    | (inl e, s1) => (inl e, s1)
    | (inr sf, s1) =>
        match setitem Zmat sf b with
        | inl e => (inl e, s1)
        | inr Z1 =>
            if fltb (mean_abs_change (running_frequency Z1 b) p1_old)
                 (Fin (min_improv (fst s1)))
            then (inr Z1, (set_run_time b (fst s1), snd s1))
            else run_monitored randint bs Z1 (running_frequency Z1 b) s1
        end
    end.
Proof.
  cbn [run_monitored]. unfold bind, lift, get_self, update_self, ret.
  destruct (boot_iteration randint s) as [[e|sf] s1]; [reflexivity|].
  destruct (setitem Zmat sf b); [reflexivity|]. simpl.
  destruct (fltb _ _); reflexivity.
Qed.

Lemma run_tasks_cons (P cs x : nat) (xs : list nat) (rngs : list rng)
    (o : npfs) (w : world rng) :
  run_tasks randint P cs (x :: xs) rngs (o, w)
  = let wid := (schedule w (x / cs) mod P)%nat in
    let r := default (np_random w) (rngs !! wid) in
    match boot_iteration randint (o, set_np_random r w) with
    | (inl e, (_, w1)) => (inl e, (o, set_np_random (np_random w) w1))
    | (inr sf, (_, w1)) =>
        match run_tasks randint P cs xs (<[wid := np_random w1]> rngs)
                (o, set_np_random (np_random w) w1) with
        | (inl e, s) => (inl e, s)
        | (inr sfs, s) => (inr (sf :: sfs), s)
        end
    end.
Proof.
  cbn [run_tasks]. unfold bind, get_world, in_worker, __call__, ret. simpl.
  destruct (boot_iteration randint _) as [[e|sf] [o1 w1]]; [reflexivity|].
  destruct (run_tasks randint P cs xs _ _) as [[e|sfs] s]; reflexivity.
Qed.

Lemma run_all_with_results (bs : list nat) (Zmat : matrix) (o : npfs) (w : world rng) :
  run_all randint bs Zmat (with_results rt B sel o, w)
  = (fst (run_all randint bs Zmat (o, w)),
     (with_results rt B sel o, snd (snd (run_all randint bs Zmat (o, w))))).
Proof.
  revert Zmat w. induction bs as [|b bs IH]; intros Zmat w; [reflexivity|].
  rewrite !run_all_cons, boot_iteration_with_results.
  destruct (boot_iteration randint (o, w)) as [[e|sf] [o1 w1]] eqn:E1; [reflexivity|].
  pose proof (boot_iteration_frame randint _ _ _ E1) as (Ho & _ & _).
  simpl in Ho. subst o1. simpl.
  destruct (setitem Zmat sf b) as [e|Z1]; [reflexivity|]. apply IH.
Qed.

Lemma run_monitored_with_results (bs : list nat) (Zmat : matrix)
    (p1_old : list float64) (o : npfs) (w : world rng) :
  exists rt',
    run_monitored randint bs Zmat p1_old (with_results rt B sel o, w)
    = (fst (run_monitored randint bs Zmat p1_old (o, w)),
       (with_results rt' B sel (fst (snd (run_monitored randint bs Zmat p1_old (o, w)))),
        snd (snd (run_monitored randint bs Zmat p1_old (o, w))))).
Proof.
  revert Zmat p1_old w. induction bs as [|b bs IH]; intros Zmat p1_old w;
    [exists rt; reflexivity|].
  rewrite !run_monitored_cons, boot_iteration_with_results.
  destruct (boot_iteration randint (o, w)) as [res [o1 w1]] eqn:E1.
  pose proof (boot_iteration_frame randint _ _ _ E1) as (Ho & _ & _).
  simpl in Ho. subst o1. destruct res as [e|sf]; [exists rt; reflexivity|]. simpl.
  destruct (setitem Zmat sf b) as [e|Z1]; [exists rt; reflexivity|].
  destruct (fltb _ _).
  - exists (Some b). reflexivity.
  - apply IH.
Qed.

Lemma run_tasks_with_results (P cs : nat) (xs : list nat) (rngs : list rng)
    (o : npfs) (w : world rng) :
  run_tasks randint P cs xs rngs (with_results rt B sel o, w)
  = (fst (run_tasks randint P cs xs rngs (o, w)),
     (with_results rt B sel o, snd (snd (run_tasks randint P cs xs rngs (o, w))))).
Proof.
  revert rngs w. induction xs as [|x xs IH]; intros rngs w; [reflexivity|].
  rewrite !run_tasks_cons. cbv zeta. rewrite boot_iteration_with_results.
  destruct (boot_iteration randint (o, _)) as [[e|sf] [o1 w1]] eqn:E1; [reflexivity|].
  simpl. rewrite IH.
  destruct (run_tasks randint P cs xs _ (o, _)) as [res [o2 w2]] eqn:E2.
  pose proof (run_tasks_frame randint _ _ _ _ _ _ _ E2) as [(Ho & _ & _) _].
  simpl in Ho. subst o2. destruct res; reflexivity.
Qed.

Lemma run_trials_with_results (o : npfs) (Zmat : matrix) (nf : nat) (w : world rng) :
  exists rt',
    run_trials randint (with_results rt B sel o) Zmat nf (with_results rt B sel o, w)
    = (fst (run_trials randint o Zmat nf (o, w)),
       (with_results rt' B sel (fst (snd (run_trials randint o Zmat nf (o, w)))),
        snd (snd (run_trials randint o Zmat nf (o, w))))).
Proof.
  unfold run_trials.
  change (parallel (with_results rt B sel o)) with (parallel o).
  change (early_stopping (with_results rt B sel o)) with (early_stopping o).
  change (n_bootstraps (with_results rt B sel o)) with (n_bootstraps o).
  destruct (parallel o) as [P|]; [|destruct (early_stopping o)].
  - exists rt. unfold bind, pool_map. destruct (P =? 0)%nat; [reflexivity|].
    unfold bind, get_world. cbn [fst snd].
    rewrite (run_tasks_with_results P _ _ _ o w).
    destruct (run_tasks randint P _ _ _ (o, w)) as [res [o2 w2]] eqn:E2.
    pose proof (run_tasks_frame randint _ _ _ _ _ _ _ E2) as [(Ho & _ & _) _].
    simpl in Ho. subst o2. destruct res as [e|sfs]; [reflexivity|].
    simpl. unfold lift. destruct (assemble _ _ _); reflexivity.
  - apply run_monitored_with_results.
  - exists rt. rewrite run_all_with_results.
    destruct (run_all randint _ _ (o, w)) as [res [o2 w2]] eqn:E.
    pose proof (run_all_frame randint _ _ _ _ _ E) as (Ho & _ & _).
    simpl in Ho. subst o2. reflexivity.
Qed.

Lemma select_with_results (rt' : option nat) (Zmat : matrix) (o : npfs) (w : world rng) :
  fst (select Zmat (with_results rt' B sel o, w)) = fst (select Zmat (o, w))
  /\ snd (snd (select Zmat (with_results rt' B sel o, w))) = w
  /\ snd (snd (select Zmat (o, w))) = w.
Proof.
  unfold select, bind, get_self, attr, update_self, ret, raise. simpl.
  destruct (n_features o) as [nf|]; simpl; [|repeat split].
  destruct (nf =? 0)%nat; [repeat split|].
  change (null_probability (with_results rt' B sel o) nf) with (null_probability o nf).
  destruct (Qlt_bool _ _); repeat split.
Qed.

End Refit.

Section Refitting.

Context {rng : Type}.
Variable randint : nat -> rng -> list nat * rng.
Variable feast : string -> option selector.

(** A call of [fit] on valid inputs, up to the start of the trials. *)
Lemma fit_valid_inputs (data_in labels_in : loc) (o : npfs) (w : world rng)
    (d l : ndarray) :
  heap w !! data_in = Some (Ndarray d) ->
  heap w !! labels_in = Some (Ndarray l) ->
  len d = len l ->
  fit randint feast data_in labels_in (o, w)
  = match feast (fs_method o) with
    | Some f =>
        bind (run_trials randint (prepared o f d (heap w))
                (zeros (len_transpose d) (n_bootstraps o)) (len_transpose d))
          select
          (prepared o f d (heap w), set_heap (checked_heap (heap w) d l) w)
    | None =>
        (inl (AttributeError (fs_method o)),
         (o, set_heap (checked_heap (heap w) d l) w))
    end.
Proof.
  intros Hd Hl Hlen. destruct (feast (fs_method o)) as [f|] eqn:Hf.
  - unfold fit, bind at 1.
    rewrite (bootstrap_phase_ok randint feast data_in labels_in o w d l f Hd Hl Hlen Hf).
    reflexivity.
  - unfold fit, bind at 1, bootstrap_phase, bind at 1.
    rewrite (check_data_ok data_in labels_in o w d l Hd Hl Hlen).
    unfold bind at 1, get_self. simpl. unfold bind at 1, getattr_feast.
    rewrite Hf. reflexivity.
Qed.

(** What [fit] returns or raises, and the world it leaves, are those of
    the object as it was constructed. *)
Lemma fit_as_constructed (data_in labels_in : loc) (o : npfs) (w : world rng) :
  fst (fit randint feast data_in labels_in (o, w))
  = fst (fit randint feast data_in labels_in (as_constructed o, w))
  /\ snd (snd (fit randint feast data_in labels_in (o, w)))
     = snd (snd (fit randint feast data_in labels_in (as_constructed o, w))).
Proof.
  destruct (check_data_cases data_in labels_in o w) as [[e He]|(d & l & Hd & Hl & Hlen)].
  - pose proof (check_data_any_object data_in labels_in o (as_constructed o) w e He)
      as He'.
    unfold fit, bootstrap_phase, bind.
    rewrite He, He'. split; reflexivity.
  - rewrite !(fit_valid_inputs data_in labels_in _ w d l Hd Hl Hlen).
    change (fs_method (as_constructed o)) with (fs_method o).
    destruct (feast (fs_method o)) as [f|]; [|split; reflexivity].
    change (n_bootstraps (as_constructed o)) with (n_bootstraps o).
    change (prepared (as_constructed o) f d (heap w))
      with (with_results None None [] (prepared o f d (heap w))).
    set (o1 := prepared o f d (heap w)).
    set (w1 := set_heap (checked_heap (heap w) d l) w).
    set (Z0 := zeros (len_transpose d) (n_bootstraps o)).
    destruct (run_trials_with_results randint None None [] o1 Z0 (len_transpose d) w1)
      as [rt' Hr].
    unfold bind. rewrite Hr.
    destruct (run_trials randint o1 Z0 (len_transpose d) (o1, w1)) as [[e|Zmat] [o2 w2]];
      [split; reflexivity|].
    simpl.
    destruct (select_with_results None [] rt' Zmat o2 w2) as (H1 & H2 & H3).
    rewrite H1, H2, H3. split; reflexivity.
Qed.

(** [fit] reads nothing that an earlier call left in the object: two
    objects constructed alike give the same result, or the same error, and
    leave the same world, whatever they were fitted to before. *)
Theorem fit_ignores_earlier_calls (data_in labels_in : loc) (o1 o2 : npfs)
    (w : world rng) :
  as_constructed o1 = as_constructed o2 ->
  fst (fit randint feast data_in labels_in (o1, w))
  = fst (fit randint feast data_in labels_in (o2, w))
  /\ snd (snd (fit randint feast data_in labels_in (o1, w)))
     = snd (snd (fit randint feast data_in labels_in (o2, w))).
Proof.
  intros H.
  destruct (fit_as_constructed data_in labels_in o1 w) as [H1 H2].
  destruct (fit_as_constructed data_in labels_in o2 w) as [H3 H4].
  rewrite H1, H2, H3, H4, H. split; reflexivity.
Qed.

End Refitting.

(** ** Plotting the matrix *)

Section Painting.

(** Painting a row replaces it by a row of halves of the same length. *)
Lemma paint_cells (i : nat) (ks : list nat) (m : list (list float64)) (row : list float64) :
  m !! i = Some row ->
  foldl (fun m k => alter (<[k := Fin (1 # 2)]>) i m) m ks
  = <[i := foldl (fun r k => <[k := Fin (1 # 2)]> r) row ks]> m.
Proof.
  revert m row. induction ks as [|k ks IH]; intros m row Hrow; simpl.
  - symmetry. apply list_insert_id, Hrow.
  - rewrite (IH _ (<[k := Fin (1 # 2)]> row)).
    + apply list_eq. intros j. destruct (decide (i = j)) as [<-|Hne].
      * rewrite !list_lookup_insert_eq; [reflexivity| |].
        -- eapply lookup_lt_Some, Hrow.
        -- rewrite length_alter. eapply lookup_lt_Some, Hrow.
      * rewrite !list_lookup_insert_ne by exact Hne.
        apply list_lookup_alter_ne, Hne.
    + rewrite list_lookup_alter_eq, Hrow. reflexivity.
Qed.

Lemma fill_cells (row : list float64) (n : nat) :
  (n <= length row)%nat ->
  foldl (fun r k => <[k := Fin (1 # 2)]> r) row (seq 0 n)
  = replicate n (Fin (1 # 2)) ++ drop n row.
Proof.
  induction n as [|n IH]; intros Hn; [reflexivity|].
  rewrite seq_S, foldl_app, IH by lia. cbn [foldl Nat.add].
  rewrite insert_app_r_alt by (rewrite length_replicate; lia).
  rewrite length_replicate, Nat.sub_diag.
  replace (drop (S n) row) with (drop 1 (drop n row))
    by (rewrite drop_drop; f_equal; lia).
  destruct (drop n row) as [|x rest] eqn:E.
  - apply (f_equal length) in E. rewrite length_drop in E. simpl in E. lia.
  - rewrite replicate_S_end, <- app_assoc. reflexivity.
Qed.

Lemma paint_row_ok (i : nat) (m : list (list float64)) (row : list float64) :
  m !! i = Some row ->
  paint_row i m = inr (<[i := replicate (length row) (Fin (1 # 2))]> m).
Proof.
  intros Hrow. unfold paint_row. rewrite Hrow.
  rewrite (paint_cells i _ m row Hrow), fill_cells by lia.
  rewrite drop_all, app_nil_r. reflexivity.
Qed.

End Painting.

Section Plotting.

Lemma highlighted_lookup (sel : list nat) (m : list (list float64)) (i : nat) :
  highlighted sel m !! i
  = (fun row => if bool_decide (i ∈ sel) then replicate (length row) (Fin (1 # 2)) else row)
      <$> m !! i.
Proof. unfold highlighted. apply list_lookup_imap. Qed.

Lemma highlighted_nil (m : list (list float64)) : highlighted [] m = m.
Proof.
  apply list_eq. intros i. rewrite highlighted_lookup.
  rewrite bool_decide_eq_false_2 by apply not_elem_of_nil.
  destruct (m !! i); reflexivity.
Qed.

Lemma highlighted_cons (i : nat) (sel : list nat) (m : list (list float64))
    (row : list float64) :
  m !! i = Some row ->
  highlighted sel (<[i := replicate (length row) (Fin (1 # 2))]> m)
  = highlighted (i :: sel) m.
Proof.
  intros Hrow. apply list_eq. intros j. rewrite !highlighted_lookup.
  destruct (decide (j = i)) as [->|Hne].
  - rewrite list_lookup_insert_eq by (eapply lookup_lt_Some, Hrow). rewrite Hrow. simpl.
    rewrite (bool_decide_eq_true_2 (i ∈ i :: sel)) by left.
    rewrite length_replicate. destruct (bool_decide (i ∈ sel)); reflexivity.
  - rewrite list_lookup_insert_ne by congruence.
    rewrite (bool_decide_ext (j ∈ i :: sel) (j ∈ sel)); [reflexivity|].
    rewrite elem_of_cons. split; [intros [?|?]; [congruence|assumption]|intros ?; right; assumption].
Qed.

(** The loop over the selection, when every index is a row. *)
Lemma paint_rows_ok (sel : list nat) (m : list (list float64)) :
  Forall (fun i => i < length m)%nat sel ->
  paint_rows sel m = (None, highlighted sel m).
Proof.
  revert m. induction sel as [|i sel IH]; intros m H.
  - simpl. rewrite highlighted_nil. reflexivity.
  - inversion H as [|? ? Hi Hsel]; subst.
    destruct (lookup_lt_is_Some_2 _ _ Hi) as [row Hrow].
    cbn [paint_rows]. rewrite (paint_row_ok i m row Hrow).
    rewrite IH by (rewrite length_insert; exact Hsel).
    rewrite (highlighted_cons i sel m row Hrow). reflexivity.
Qed.

Lemma paint_rows_keeps (sel : list nat) (m m' : list (list float64)) (e : option exn)
    (i n : nat) :
  paint_rows sel m = (e, m') ->
  m !! i = Some (replicate n (Fin (1 # 2))) ->
  m' !! i = Some (replicate n (Fin (1 # 2))).
Proof.
  revert m. induction sel as [|j sel IH]; intros m H Hi.
  - injection H as _ <-. exact Hi.
  - cbn [paint_rows] in H. destruct (m !! j) as [row|] eqn:Hrow.
    + rewrite (paint_row_ok j m row Hrow) in H. apply IH in H; [exact H|].
      destruct (decide (i = j)) as [->|Hne].
      * rewrite list_lookup_insert_eq by (eapply lookup_lt_Some, Hrow).
        rewrite Hrow in Hi. injection Hi as ->. rewrite length_replicate. reflexivity.
      * rewrite list_lookup_insert_ne by congruence. exact Hi.
    + unfold paint_row in H. rewrite Hrow in H. injection H as _ <-. exact Hi.
Qed.

Lemma paint_rows_length (sel : list nat) (m m' : list (list float64)) (e : option exn) :
  paint_rows sel m = (e, m') -> length m' = length m.
Proof.
  revert m. induction sel as [|j sel IH]; intros m H.
  - injection H as _ <-. reflexivity.
  - cbn [paint_rows] in H. destruct (m !! j) as [row|] eqn:Hrow.
    + rewrite (paint_row_ok j m row Hrow) in H. apply IH in H.
      rewrite length_insert in H. exact H.
    + unfold paint_row in H. rewrite Hrow in H. injection H as _ <-. reflexivity.
Qed.

(** Painting what is painted changes nothing, and raises what it raised. *)
Lemma paint_rows_again (sel : list nat) (m m' : list (list float64)) (e : option exn) :
  paint_rows sel m = (e, m') -> paint_rows sel m' = (e, m').
Proof.
  revert m. induction sel as [|j sel IH]; intros m H.
  - injection H as <- <-. reflexivity.
  - cbn [paint_rows] in H. destruct (m !! j) as [row|] eqn:Hrow.
    + rewrite (paint_row_ok j m row Hrow) in H.
      assert (Hj : m' !! j = Some (replicate (length row) (Fin (1 # 2)))).
      { eapply paint_rows_keeps; [exact H|].
        apply list_lookup_insert_eq. eapply lookup_lt_Some, Hrow. }
      cbn [paint_rows]. rewrite (paint_row_ok j m' _ Hj).
      rewrite length_replicate, list_insert_id by exact Hj.
      eapply IH, H.
    + unfold paint_row in H. rewrite Hrow in H. injection H as <- <-.
      cbn [paint_rows]. unfold paint_row. rewrite Hrow. reflexivity.
Qed.

Lemma as_floats_lookup (Zmat : matrix) (i : nat) :
  as_floats Zmat !! i = map of_nat <$> Zmat !! i.
Proof. unfold as_floats. apply list_lookup_fmap. Qed.

(** A plot of an object whose selection names rows of its matrix. *)
Lemma plot_of_consistent (o : npfs) (Zmat : matrix) (show_npfs : bool) :
  Bernoulli_matrix o = Some Zmat ->
  Forall (fun i => i < length Zmat)%nat (selected_features o) ->
  exists calls,
    plot_of o show_npfs
    = (inr tt,
       (Some (if show_npfs then highlighted (selected_features o) (as_floats Zmat)
              else as_floats Zmat), calls))
    /\ In (PltImshow (if show_npfs then highlighted (selected_features o) (as_floats Zmat)
                      else as_floats Zmat)) calls.
Proof.
  intros HB Hsel. unfold plot_of, plot_bernoulli_matrix. rewrite HB. simpl.
  destruct show_npfs; simpl.
  - rewrite paint_rows_ok by (unfold as_floats; rewrite length_map; exact Hsel).
    eexists. split; [reflexivity|]. left. reflexivity.
  - eexists. split; [reflexivity|]. left. reflexivity.
Qed.

(** Highlighting twice is highlighting once: the second call leaves the
    matrix as the first left it, and returns or raises as the first did. *)
Theorem highlight_twice (selected : list nat) (st : plot_state) :
  let r1 := plot_bernoulli_matrix true selected st in
  let r2 := plot_bernoulli_matrix true selected (snd r1) in
  fst r2 = fst r1 /\ fst (snd r2) = fst (snd r1).
Proof.
  destruct st as [[m|] calls]; unfold plot_bernoulli_matrix; simpl; [|split; reflexivity].
  destruct (paint_rows selected m) as [[e|] m'] eqn:E; simpl;
    rewrite (paint_rows_again _ _ _ _ E); split; reflexivity.
Qed.

End Plotting.

Section PlotAfterFit.

Context {rng : Type}.
Variable randint : nat -> rng -> list nat * rng.
Variable feast : string -> option selector.

(** After a call of [fit] that returns, a plot with [show_npfs] returns,
    and it has written to the matrix of the object: every row of a
    selected feature holds 0.5 in each of its [n_bootstraps] columns, in
    place of the record of the trials; the other rows are as they were,
    and this matrix is what is drawn. *)
Theorem highlight_overwrites_matrix (data_in labels_in : loc) (o o' : npfs)
    (w w' : world rng) (sel : list nat) :
  fit randint feast data_in labels_in (o, w) = (inr sel, (o', w')) ->
  exists Zmat m,
    Bernoulli_matrix o' = Some Zmat
    /\ plot_of o' true
       = (inr tt,
          (Some m, [PltImshow m; PltSetCmap "hot"; PltXlabel "Bootstraps";
                    PltYlabel "Feature"; PltColorbar; PltShow]))
    /\ length m = length Zmat
    /\ (forall i, i ∈ sel -> m !! i = Some (replicate (n_bootstraps o) (Fin (1 # 2))))
    /\ (forall i, i ∉ sel -> m !! i = map of_nat <$> Zmat !! i).
Proof.
  intros H.
  apply fit_success in H
    as (d & l & f & Zmat & k & o2 & _ & _ & _ & _ & _ & HZ & Hrows & _ & _ & _
        & _ & _ & Hsel & -> & _).
  assert (Hr : Forall (fun i => i < length (as_floats Zmat))%nat sel).
  { unfold as_floats. rewrite length_map, HZ, Hsel.
    destruct (increasing_filter_seq
                (fun k => threshold o (len_transpose d) <? nth k (row_sums Zmat) 0)%nat
                0 (len_transpose d)) as [_ Hb].
    eapply Forall_impl; [exact Hb|]. simpl. intros x Hx. lia. }
  exists Zmat, (highlighted sel (as_floats Zmat)).
  split; [reflexivity|]. split.
  { unfold plot_of, plot_bernoulli_matrix. simpl. rewrite (paint_rows_ok _ _ Hr).
    reflexivity. }
  split.
  { unfold highlighted, as_floats. rewrite length_imap, length_map. reflexivity. }
  split.
  - intros i Hi. rewrite highlighted_lookup, as_floats_lookup.
    assert (Hlt : (i < length Zmat)%nat).
    { unfold as_floats in Hr. rewrite length_map in Hr.
      exact (proj1 (Forall_forall _ _) Hr i Hi). }
    destruct (lookup_lt_is_Some_2 _ _ Hlt) as [row Hrow]. rewrite Hrow. simpl.
    rewrite bool_decide_eq_true_2 by exact Hi. rewrite length_map.
    pose proof (Forall_lookup_1 _ _ _ _ Hrows Hrow) as Hn. simpl in Hn.
    rewrite Hn. reflexivity.
  - intros i Hi. rewrite highlighted_lookup, as_floats_lookup.
    rewrite bool_decide_eq_false_2 by exact Hi.
    destruct (Zmat !! i); reflexivity.
Qed.

(** The selection that the object holds always names rows of the matrix
    that it holds, whether the calls of [fit] return or raise; so a plot
    raises only when there is no matrix to plot, and then it is the
    AttributeError of the missing attribute. *)
Theorem plot_raises_only_without_matrix (data_in labels_in : loc) (o o' : npfs)
    (w w' : world rng) (r : exn + list nat) :
  consistent o ->
  fit randint feast data_in labels_in (o, w) = (r, (o', w')) ->
  consistent o'
  /\ forall show_npfs,
       fst (plot_of o' show_npfs)
       = match Bernoulli_matrix o' with
         | Some _ => inr tt
         | None => inl (AttributeError "Bernoulli_matrix")
         end.
Proof.
  intros Hc H.
  assert (Hc' : consistent o').
  { destruct r as [e|sel].
    - apply fit_inl_results in H as [HB Hs]. simpl in HB, Hs.
      unfold consistent. rewrite HB, Hs. exact Hc.
    - apply fit_inr_results in H as (Zmat & HB & Hs & Hr).
      intros Z HZ. rewrite HB in HZ. injection HZ as <-. rewrite Hs. exact Hr. }
  split; [exact Hc'|]. intros show_npfs.
  destruct (Bernoulli_matrix o') as [Zmat|] eqn:HB.
  - destruct (plot_of_consistent o' Zmat show_npfs HB (Hc' Zmat HB)) as (calls & -> & _).
    reflexivity.
  - unfold plot_of, plot_bernoulli_matrix. rewrite HB. reflexivity.
Qed.

End PlotAfterFit.

(** ** The properties on the small instance *)

Local Open Scope string_scope.

(** C1: an early stop after three of ten trials; the threshold is the one
    for ten trials. *)
Lemma C1_counterexample :
  let o := init "JMI" 1 10 false (5 # 100) 0 None (2 # 10) in
  let r := toy_fit o in
  fst r = inr []
  /\ run_time (fst (snd r)) = Some 2%nat
  /\ oracle_calls (trace (snd (snd r))) = 3%nat
  /\ (3 < n_bootstraps o)%nat
  /\ row_sums <$> Bernoulli_matrix (fst (snd r)) = Some [3; 0; 0; 0]%nat
  /\ threshold o 4 = 5%nat
  /\ binom_ppf (1 - alpha o) 3 (null_probability o 4) = 2%nat
  /\ above_threshold [3; 0; 0; 0]%nat 2 4 = [0%nat].
Proof. vm_compute. repeat split; lia. Qed.

Lemma C1_witness :
  let o := init "JMI" 1 10 false (5 # 100) 0 None (2 # 10) in
  let r := toy_fit o in
  trials_run toy_world (snd (snd r)) 3
  /\ exists Zmat nf,
       Bernoulli_matrix (fst (snd r)) = Some Zmat /\ n_features (fst (snd r)) = Some nf
       /\ row_sums Zmat = map (fun row => sum_list (take 3 row)) Zmat
       /\ [] = above_threshold (row_sums Zmat)
                  (binom_ppf (1 - alpha o) (n_bootstraps o) (null_probability o nf)) nf.
Proof.
  intros o r.
  apply (C1_threshold_after_early_stop toy_randint toy_feast 1%positive 2%positive
           o (fst (snd r)) toy_world (snd (snd r)) [] 2);
    vm_compute; reflexivity.
Defined.

(** C2: the first trial of a monitored fit on the small instance. *)
Lemma C2_witness :
  let o := prepared (init "JMI" 1 3 false (5 # 100) 0 None 1) first_features toy_data toy_heap in
  let s := (o, set_heap (checked_heap toy_heap toy_data toy_labels) toy_world) in
  let s1 := snd (boot_iteration toy_randint s) in
  let Z1 := [[1; 0; 0]; [0; 0; 0]; [0; 0; 0]; [0; 0; 0]]%nat in
  running_frequency Z1 0 = [PInf; NaN; NaN; NaN]
  /\ running_frequency Z1 0 = map (fun c => fdiv (of_nat c) (Fin 0)) (row_sums Z1)
  /\ Forall inf_or_nan (running_frequency Z1 0)
  /\ run_monitored toy_randint [0; 1; 2]%nat (zeros 4 3) (replicate 4 (Fin 0)) s
     = run_monitored toy_randint [1; 2]%nat Z1 (running_frequency Z1 0) s1.
Proof.
  intros o s s1 Z1. split; [reflexivity|].
  apply (C2_first_trial_divides_by_zero toy_randint [1; 2]%nat (zeros 4 3) Z1
           (replicate 4 (Fin 0)) s s1 [0%nat]);
    vm_compute; reflexivity.
Defined.



(** C4: two workers start from the same random state and draw the same
    sample; the sequential loop draws two different ones. *)
Lemma C4_counterexample :
  let rs := toy_fit (init "LABEL" 1 2 false (5 # 100) 0 None 0) in
  let rp := toy_fit (init "LABEL" 1 2 false (5 # 100) 0 (Some 2%nat) 0) in
  Bernoulli_matrix (fst (snd rs)) = Some [[1; 0]; [0; 1]; [0; 0]; [0; 0]]%nat
  /\ Bernoulli_matrix (fst (snd rp)) = Some [[1; 1]; [0; 0]; [0; 0]; [0; 0]]%nat
  /\ trace (snd (snd rs))
     = [EvSample [0; 1]; EvSelect 1; EvSample [1; 0]; EvSelect 1]%nat
  /\ trace (snd (snd rp))
     = [EvSample [0; 1]; EvSelect 1; EvSample [0; 1]; EvSelect 1]%nat
  /\ Bernoulli_matrix (fst (snd rs)) <> Bernoulli_matrix (fst (snd rp)).
Proof. vm_compute. repeat split. discriminate. Qed.

Lemma C4_witness :
  let o := init "LABEL" 1 2 false (5 # 100) 0 None 0 in
  exists o'' w'',
    toy_fit (with_parallel (Some 1%nat) o) = (inr [], (o'', w''))
    /\ Bernoulli_matrix o'' = Bernoulli_matrix (fst (snd (toy_fit o))).
Proof.
  intros o.
  apply (proj1 (C4_pool_of_one_matches_sequential toy_randint toy_feast)
           1%positive 2%positive o (fst (snd (toy_fit o))) toy_world
           (snd (snd (toy_fit o))) []);
    vm_compute; reflexivity.
Defined.

(** C5: the stop comes with the last of three trials; [run_time] is 2. *)
Lemma C5_counterexample :
  let o := init "JMI" 1 3 false (5 # 100) 0 None 1 in
  let r := toy_fit o in
  fst r = inr [0%nat]
  /\ run_time (fst (snd r)) = Some 2%nat
  /\ oracle_calls (trace (snd (snd r))) = 3%nat
  /\ samples_drawn (trace (snd (snd r))) = 3%nat
  /\ n_bootstraps o = 3%nat.
Proof. vm_compute. repeat split. Qed.

Lemma C5_witness :
  let o := init "JMI" 1 3 false (5 # 100) 0 None 1 in
  let r := toy_fit o in
  parallel o = None /\ early_stopping o = true
  /\ trials_run toy_world (snd (snd r)) 3 /\ (3 <= n_bootstraps o)%nat
  /\ exists Zmat, Bernoulli_matrix (fst (snd r)) = Some Zmat /\ blank_from 3 Zmat.
Proof.
  intros o r.
  apply (C5_early_stop_ends_loop toy_randint toy_feast 1%positive 2%positive
           o (fst (snd r)) toy_world (snd (snd r)) [0%nat] 2);
    vm_compute; reflexivity.
Defined.


Lemma C7_witness :
  let o := init "JMI" 3 100 false (1 # 100) 0 None 0 in
  exists Zmat, Bernoulli_matrix (fst (snd (wide_fit o))) = Some Zmat
    /\ [0; 1; 2]%nat = above_threshold (row_sums Zmat) 41 10.
Proof.
  intros o.
  apply (proj2 (proj2 (proj2 (C7_threshold_example toy_randint toy_feast "JMI" None 0)))
           1%positive 2%positive wide_world (snd (snd (wide_fit o)))
           (fst (snd (wide_fit o))) [0; 1; 2]%nat);
    vm_compute; reflexivity.
Defined.



(** C9: a fit without early stop, sequential or parallel, returns and
    leaves no trial count in the object. *)
Lemma C9_counterexample :
  let rs := toy_fit (init "JMI" 1 3 false (5 # 100) 0 None 0) in
  let rp := toy_fit (init "JMI" 1 3 false (5 # 100) 0 (Some 2%nat) 0) in
  fst rs = inr [0%nat] /\ run_time (fst (snd rs)) = None
  /\ fst rp = inr [0%nat] /\ run_time (fst (snd rp)) = None.
Proof. vm_compute. repeat split. Qed.

Lemma C9_witness :
  let o := init "JMI" 1 3 false (5 # 100) 0 None 0 in
  let o' := fst (snd (toy_fit o)) in
  selected_features o' = [0%nat]
  /\ (exists Zmat nf,
        Bernoulli_matrix o' = Some Zmat /\ n_features o' = Some nf
        /\ length Zmat = nf /\ row_length (n_bootstraps o') Zmat)
  /\ (run_time o' = run_time o
      \/ (parallel o = None /\ early_stopping o = true
          /\ exists b, (b < n_bootstraps o)%nat /\ run_time o' = Some b)).
Proof.
  intros o o'.
  apply (C9_fit_retains_matrix toy_randint toy_feast 1%positive 2%positive
           o o' toy_world (snd (snd (toy_fit o))) [0%nat]).
  vm_compute. reflexivity.
Defined.

Lemma C10_witness :
  let o := init "JMI" 1 3 false (5 # 100) 0 None 0 in
  let r := toy_fit o in
  heap (snd (snd r)) !! 1%positive = Some (Ndarray toy_data).
Proof.
  intros o r.
  apply (proj1 (C10_fit_leaves_caller_arrays_unchanged toy_randint toy_feast
                  1%positive 2%positive o (fst (snd r)) toy_world (snd (snd r))
                  (fst r) ltac:(vm_compute; reflexivity))).
  reflexivity.
Defined.

Lemma run_monitored_not_first_witness :
  let o := prepared (init "JMI" 1 3 false (5 # 100) 0 None 1) first_features toy_data toy_heap in
  let s := (o, set_heap (checked_heap toy_heap toy_data toy_labels) toy_world) in
  let r := run_monitored toy_randint (seq 0 3) (zeros 4 3) (replicate 4 (Fin 0)) s in
  fst (snd r) = o \/ exists b, (0 < b)%nat /\ fst (snd r) = set_run_time b o.
Proof.
  intros o s r.
  apply (run_monitored_not_first toy_randint 3 (zeros 4 3)
           [[1; 1; 1]; [0; 0; 0]; [0; 0; 0]; [0; 0; 0]]%nat (replicate 4 (Fin 0))
           o (fst (snd r)) (snd s) (snd (snd r))).
  vm_compute. reflexivity.
Defined.

Lemma Bernoulli_matrix_binary_witness :
  let Zmat := [[1; 1; 1]; [0; 0; 0]; [0; 0; 0]; [0; 0; 0]]%nat in
  entry Zmat 0 2 = 0%nat \/ entry Zmat 0 2 = 1%nat.
Proof.
  intros Zmat.
  pose (r := toy_fit (init "JMI" 1 3 false (5 # 100) 0 None 0)).
  apply (Bernoulli_matrix_binary toy_randint toy_feast 1%positive 2%positive
           (init "JMI" 1 3 false (5 # 100) 0 None 0) (fst (snd r)) toy_world
           (snd (snd r)) [0%nat] Zmat);
    vm_compute; reflexivity.
Defined.

Lemma length_mismatch_fails_first_witness :
  let o := init "JMI" 1 3 false (5 # 100) 0 None 0 in
  fit toy_randint toy_feast 1%positive 3%positive (o, odd_world)
  = (inl (Exception "Data and labels must be the same length"), (o, odd_world)).
Proof.
  intros o.
  apply (length_mismatch_fails_first toy_randint toy_feast 1%positive 3%positive
           o odd_world toy_data (Arr1 [Fin 0]));
    [reflexivity | reflexivity | vm_compute; discriminate].
Defined.

Lemma all_trials_without_early_stop_witness :
  let o := init "JMI" 1 3 false (5 # 100) 0 (Some 2%nat) 0 in
  trials_run toy_world (snd (snd (toy_fit o))) 3.
Proof.
  intros o.
  apply (all_trials_without_early_stop toy_randint toy_feast 1%positive 2%positive
           o (fst (snd (toy_fit o))) toy_world (snd (snd (toy_fit o))) [0%nat]);
    [vm_compute; reflexivity | right; discriminate].
Defined.

(** ** Further properties on the small instance *)

Lemma toy_randint_in_range : sampler_in_range toy_randint.
Proof.
  intros n r. unfold toy_randint. simpl. split.
  - rewrite length_map, length_seq. reflexivity.
  - apply Forall_map, Forall_forall. intros i Hi. apply elem_of_seq in Hi.
    apply Nat.mod_upper_bound. lia.
Qed.

Lemma first_features_in_range (n : nat) : answers_in_range first_features 1 n 4.
Proof.
  intros ds ls _ _ _. exists [0%nat]. split; [reflexivity|].
  repeat constructor.
Qed.

Lemma first_features_bounded : bounded_selector first_features.
Proof. intros d l k sf H. injection H as <-. rewrite length_seq. lia. Qed.

Lemma fit_failure_keeps_results_witness :
  let o := init "JMI" 3 2 false (5 # 100) (1 # 2) None 0 in
  let r := toy_fit o in
  Bernoulli_matrix (fst (snd r)) = Bernoulli_matrix o
  /\ selected_features (fst (snd r)) = selected_features o.
Proof.
  intros o r.
  apply (fit_failure_keeps_results toy_randint toy_feast 1%positive 2%positive
           o (fst (snd r)) toy_world (snd (snd r))
           (ValueError "p+beta > 1 -> Invalid probability")).
  vm_compute. reflexivity.
Defined.

Lemma selection_increasing_witness :
  let o := init "JMI" 1 3 false (5 # 100) 0 None 0 in
  let r := toy_fit o in
  increasing [0%nat]
  /\ (exists nf, n_features (fst (snd r)) = Some nf
        /\ Forall (fun k => k < nf)%nat [0%nat])
  /\ selected_features (fst (snd r)) = [0%nat].
Proof.
  intros o r.
  apply (selection_increasing toy_randint toy_feast 1%positive 2%positive
           o (fst (snd r)) toy_world (snd (snd r)) [0%nat]).
  vm_compute. reflexivity.
Defined.

Lemma parallel_fit_keeps_random_state_witness :
  let o := init "JMI" 1 3 false (5 # 100) 0 (Some 2%nat) 0 in
  np_random (snd (snd (toy_fit o))) = np_random toy_world.
Proof.
  intros o.
  apply (parallel_fit_keeps_random_state toy_randint toy_feast 1%positive 2%positive
           o (fst (snd (toy_fit o))) toy_world (snd (snd (toy_fit o)))
           (fst (toy_fit o)) 2);
    [reflexivity | vm_compute; reflexivity].
Defined.

Lemma no_features_never_returns_witness :
  let o := init "JMI" 0 2 false (5 # 100) 0 None 0 in
  let w := World 0%nat
             (<[2%positive := Ndarray toy_labels]>
                (<[1%positive := Ndarray (Arr2 0 [[]; []])]> ∅)) [] (fun c => c) in
  let r := fit toy_randint toy_feast 1%positive 2%positive (o, w) in
  exists e, fst r = inl e
    /\ forall Zmat s2,
         bootstrap_phase toy_randint toy_feast 1%positive 2%positive (o, w)
         = (inr Zmat, s2) ->
         e = ZeroDivisionError /\ s2 = (fst (snd r), snd (snd r)).
Proof.
  intros o w r.
  apply (no_features_never_returns toy_randint toy_feast 1%positive 2%positive
           o (fst (snd r)) w (snd (snd r)) (Arr2 0 [[]; []]) (fst r));
    [reflexivity | reflexivity | vm_compute; reflexivity].
Defined.

Lemma non_array_rejected_witness :
  let o := init "JMI" 1 3 false (5 # 100) 0 None 0 in
  let w := World 0%nat (<[3%positive := NotArray]> toy_heap) [] (fun c => c) in
  fit toy_randint toy_feast 3%positive 3%positive (o, w)
  = (inl (Exception "Data must be an numpy ndarray."), (o, w)).
Proof.
  intros o w.
  apply (non_array_rejected toy_randint toy_feast 3%positive 3%positive o w).
  left. reflexivity.
Defined.

Lemma check_data_copies_witness :
  let o := init "JMI" 1 3 false (5 # 100) 0 None 0 in
  let d' := copy_loc toy_heap in
  let l' := copy_loc (<[d' := Ndarray (scale (Fin 1) toy_data)]> toy_heap) in
  let w' := set_heap (checked_heap toy_heap toy_data toy_labels) toy_world in
  exists a b a' b',
    heap toy_world !! 1%positive = Some (Ndarray a)
    /\ heap toy_world !! 2%positive = Some (Ndarray b)
    /\ heap toy_world !! d' = None /\ heap toy_world !! l' = None /\ d' <> l'
    /\ heap w' = <[l' := Ndarray b']> (<[d' := Ndarray a']> (heap toy_world))
    /\ array_eq a' a /\ array_eq b' b
    /\ o = o /\ np_random w' = np_random toy_world /\ trace w' = trace toy_world.
Proof.
  intros o d' l' w'.
  apply (check_data_copies 1%positive 2%positive d' l' o o toy_world w').
  vm_compute. reflexivity.
Defined.

Lemma early_stop_not_before_third_trial_witness :
  let o := init "JMI" 1 10 false (5 # 100) 0 None (2 # 10) in
  let r := toy_fit o in
  run_time (fst (snd r)) = run_time o
  \/ exists b, run_time (fst (snd r)) = Some b /\ (2 <= b)%nat
       /\ trials_run toy_world (snd (snd r)) (S b).
Proof.
  intros o r.
  apply (early_stop_not_before_third_trial toy_randint toy_feast 1%positive 2%positive
           o (fst (snd r)) toy_world (snd (snd r)) []).
  vm_compute. reflexivity.
Defined.

Lemma monitored_loop_is_plain_loop_cut_short_witness :
  let o := prepared (init "JMI" 1 10 false (5 # 100) 0 None (2 # 10)) first_features
             toy_data toy_heap in
  let s := (o, set_heap (checked_heap toy_heap toy_data toy_labels) toy_world) in
  let r := run_monitored toy_randint (seq 0 10) (zeros 4 10) (replicate 4 (Fin 0)) s in
  exists m, (m <= 10)%nat
    /\ run_all toy_randint (seq 0 m) (zeros 4 10) s
       = (fst (run_all toy_randint (seq 0 3) (zeros 4 10) s), (o, snd (snd r)))
    /\ trials_run (snd s) (snd (snd r)) m
    /\ (fst (snd r) = o \/ (0 < m)%nat /\ fst (snd r) = set_run_time (0 + m - 1) o).
Proof.
  intros o s r.
  apply (monitored_loop_is_plain_loop_cut_short toy_randint 10 0 (zeros 4 10) _
           (replicate 4 (Fin 0)) o (fst (snd r)) (snd s) (snd (snd r))).
  vm_compute. reflexivity.
Defined.

Lemma column_sums_bounded_witness :
  let Zmat := [[1; 1; 1]; [0; 0; 0]; [0; 0; 0]; [0; 0; 0]]%nat in
  (col_sum Zmat 2 <= 1)%nat.
Proof.
  intros Zmat.
  pose (o := init "JMI" 1 3 false (5 # 100) 0 None 0).
  pose (r := toy_fit o).
  apply (column_sums_bounded toy_randint toy_feast 1%positive 2%positive
           o (fst (snd r)) toy_world (snd (snd r)) [0%nat] Zmat).
  - intros f Hf. change (Some first_features = Some f) in Hf. injection Hf as <-.
    exact first_features_bounded.
  - vm_compute. reflexivity.
  - vm_compute. reflexivity.
Defined.

Lemma fit_returns_witness :
  let o := init "JMI" 1 3 false (5 # 100) 0 (Some 2%nat) 0 in
  exists sel o' w',
    fit toy_randint toy_feast 1%positive 2%positive (o, toy_world)
    = (inr sel, (o', w')).
Proof.
  intros o.
  apply (fit_returns toy_randint toy_feast 1%positive 2%positive o toy_world
           toy_data toy_labels first_features);
    [ reflexivity | reflexivity | reflexivity | reflexivity
    | exact toy_randint_in_range | exact (first_features_in_range 2)
    | discriminate | vm_compute; discriminate | discriminate ].
Defined.

Lemma samples_of_data_size_witness :
  let o := init "JMI" 1 3 false (5 # 100) 0 (Some 2%nat) 0 in
  let r := toy_fit o in
  exists t, trace (snd (snd r)) = (trace toy_world ++ t)%list
    /\ Forall (trial_event toy_randint 2 1) t.
Proof.
  intros o r.
  apply (samples_of_data_size toy_randint toy_feast 1%positive 2%positive
           o (fst (snd r)) toy_world (snd (snd r)) (fst r) toy_data);
    [reflexivity | vm_compute; reflexivity].
Defined.

Lemma run_time_assigned_by_monitor_only_witness :
  let o := init "JMI" 3 2 false (5 # 100) (1 # 2) None 0 in
  run_time (fst (snd (toy_fit o))) = None.
Proof.
  intros o.
  apply (run_time_assigned_by_monitor_only toy_randint toy_feast 1%positive 2%positive
           o (fst (snd (toy_fit o))) toy_world (snd (snd (toy_fit o)))
           (fst (toy_fit o)));
    [left; reflexivity | vm_compute; reflexivity].
Defined.

Lemma highlight_overwrites_matrix_witness :
  let o := init "JMI" 1 3 false (5 # 100) 0 None 0 in
  let r := toy_fit o in
  exists Zmat m,
    Bernoulli_matrix (fst (snd r)) = Some Zmat
    /\ plot_of (fst (snd r)) true
       = (inr tt,
          (Some m, [PltImshow m; PltSetCmap "hot"; PltXlabel "Bootstraps";
                    PltYlabel "Feature"; PltColorbar; PltShow]))
    /\ length m = length Zmat
    /\ (forall i, i ∈ [0%nat] ->
        m !! i = Some (replicate (n_bootstraps o) (Fin (1 # 2))))
    /\ (forall i, i ∉ [0%nat] -> m !! i = map of_nat <$> Zmat !! i).
Proof.
  intros o r.
  apply (highlight_overwrites_matrix toy_randint toy_feast 1%positive 2%positive
           o (fst (snd r)) toy_world (snd (snd r)) [0%nat]).
  vm_compute. reflexivity.
Defined.

Lemma plot_raises_only_without_matrix_witness :
  let o := init "JMI" 3 2 false (5 # 100) (1 # 2) None 0 in
  let o' := fst (snd (toy_fit o)) in
  consistent o'
  /\ forall show_npfs,
       fst (plot_of o' show_npfs)
       = match Bernoulli_matrix o' with
         | Some _ => inr tt
         | None => inl (AttributeError "Bernoulli_matrix")
         end.
Proof.
  intros o o'.
  apply (plot_raises_only_without_matrix toy_randint toy_feast 1%positive 2%positive
           o o' toy_world (snd (snd (toy_fit o))) (fst (toy_fit o))).
  - intros Zmat HZ. discriminate HZ.
  - vm_compute. reflexivity.
Defined.

Lemma sequential_fit_advances_random_state_witness :
  let o := init "JMI" 1 3 false (5 # 100) 0 None 0 in
  let r := toy_fit o in
  exists m, (m <= n_bootstraps o)%nat /\ trials_run toy_world (snd (snd r)) m
    /\ np_random (snd (snd r)) = draws toy_randint 2 m 0%nat.
Proof.
  intros o r.
  apply (sequential_fit_advances_random_state toy_randint toy_feast
           1%positive 2%positive o (fst (snd r)) toy_world (snd (snd r)) [0%nat]
           toy_data);
    [reflexivity | reflexivity | vm_compute; reflexivity].
Defined.

Lemma fit_ignores_earlier_calls_witness :
  let o2 := init "JMI" 1 10 false (5 # 100) 0 None (2 # 10) in
  let o1 := fst (snd (toy_fit o2)) in
  fst (fit toy_randint toy_feast 1%positive 2%positive (o1, toy_world))
  = fst (fit toy_randint toy_feast 1%positive 2%positive (o2, toy_world))
  /\ snd (snd (fit toy_randint toy_feast 1%positive 2%positive (o1, toy_world)))
     = snd (snd (fit toy_randint toy_feast 1%positive 2%positive (o2, toy_world))).
Proof.
  intros o2 o1.
  apply (fit_ignores_earlier_calls toy_randint toy_feast 1%positive 2%positive
           o1 o2 toy_world).
  vm_compute. reflexivity.
Defined.
